(** * Level math, fader, volume meter, packet interleaver and reconnect logic
      of libobs (obs-audio-controls.c, obs-output.c)

    The C functions are embedded as Rocq functions over explicit state.
    - [float] is IEEE-754 binary32, evaluated with round-to-nearest-even
      (Stdlib's [SpecFloat] at precision 24, maximal exponent 128);
    - [log10f], [powf] and [cbrtf] come from the C library: they are the
      fields of a record [libm] the definitions are parameterised by;
    - [unsigned int] and [size_t] wrap modulo 2^32 and 2^64;
    - [int] and [int64_t] are modelled as [Z]: signed overflow is undefined
      behaviour in C, so the model describes the executions without it;
    - a pointer that may be NULL is an [option];
    - locks are not modelled: every function below runs under the mutex of
      the object it changes, i.e. atomically. *)

From Stdlib Require Import ZArith List Bool Lia Sorted Permutation SpecFloat.
Import ListNotations.
Open Scope Z_scope.

(** ** binary32 arithmetic *)

Module F32.

Definition prec : Z := 24.
Definition emax : Z := 128.

Definition t : Type := spec_float.

Definition zero : t := S754_zero false.
Definition neg_zero : t := S754_zero true.
Definition infinity : t := S754_infinity false.
Definition neg_infinity : t := S754_infinity true.
Definition nan : t := S754_nan.

Definition add : t -> t -> t := SFadd prec emax.
Definition sub : t -> t -> t := SFsub prec emax.
Definition mul : t -> t -> t := SFmul prec emax.
Definition div : t -> t -> t := SFdiv prec emax.
Definition sqrt : t -> t := SFsqrt prec emax.
Definition opp : t -> t := SFopp.

(** The C comparisons; each is false as soon as an operand is a NaN. *)
Definition eqb : t -> t -> bool := SFeqb.
Definition ltb : t -> t -> bool := SFltb.
Definition leb : t -> t -> bool := SFleb.
Definition gtb (x y : t) : bool := SFltb y x.
Definition geb (x y : t) : bool := SFleb y x.

(** Conversion of an integer, as the cast [(float)n] does it. *)
Definition of_Z (n : Z) : t := binary_normalize prec emax n 0 false.

(** The decimal literal [num / den] ([den] a power of ten), rounded once. *)
Definition lit (num : Z) (den : positive) : t :=
  match num with
  | Z0 => zero
  | Zpos n => div (S754_finite false n 0) (S754_finite false den 0)
  | Zneg n => div (S754_finite true n 0) (S754_finite false den 0)
  end.

Definition one : t := of_Z 1.

Definition is_nan (x : t) : bool :=
  match x with S754_nan => true | _ => false end.

End F32.

Abbreviation f32 := F32.t.

Declare Scope f32_scope.
Delimit Scope f32_scope with f32.
Infix "+" := F32.add : f32_scope.
Infix "-" := F32.sub : f32_scope.
Infix "*" := F32.mul : f32_scope.
Infix "/" := F32.div : f32_scope.
Notation "- x" := (F32.opp x) : f32_scope.
Infix "==" := F32.eqb (at level 70, no associativity) : f32_scope.
Infix "<?" := F32.ltb : f32_scope.
Infix "<=?" := F32.leb : f32_scope.
Infix ">?" := F32.gtb : f32_scope.
Infix ">=?" := F32.geb : f32_scope.

(** The C library functions the level math calls. *)
Record libm : Type := {
  log10f : f32 -> f32;
  powf : f32 -> f32 -> f32;
  cbrtf : f32 -> f32
}.

(** Unsigned machine integers. *)
Definition u32 (n : Z) : Z := n mod 2 ^ 32.
Definition usize (n : Z) : Z := n mod 2 ^ 64.

(** ** Level and fader math (obs-audio-controls.c) *)

Module Level.
Section WithLibm.

Variable M : libm.

Local Open Scope f32_scope.

Definition mul_to_db (mul : f32) : f32 :=
  if mul == F32.zero then F32.neg_infinity
  else F32.of_Z 20 * log10f M mul.

Definition db_to_mul (db : f32) : f32 :=
  if db == F32.neg_infinity then F32.zero
  else powf M (F32.of_Z 10) (db / F32.of_Z 20).

Definition cubic_def_to_db (def : f32) : f32 :=
  if def == F32.one then F32.zero
  else if def <=? F32.zero then F32.neg_infinity
  else mul_to_db (def * def * def).

Definition cubic_db_to_def (db : f32) : f32 :=
  if db == F32.zero then F32.one
  else if db == F32.neg_infinity then F32.zero
  else cbrtf M (db_to_mul db).

Definition iec_def_to_db (def : f32) : f32 :=
  if def == F32.one then F32.zero
  else if def <=? F32.zero then F32.neg_infinity
  else if def >=? F32.lit 75 100 then
    (def - F32.one) / F32.lit 25 100 * F32.of_Z 9
  else if def >=? F32.lit 5 10 then
    (def - F32.lit 75 100) / F32.lit 25 100 * F32.of_Z 11 - F32.of_Z 9
  else if def >=? F32.lit 3 10 then
    (def - F32.lit 5 10) / F32.lit 2 10 * F32.of_Z 10 - F32.of_Z 20
  else if def >=? F32.lit 15 100 then
    (def - F32.lit 3 10) / F32.lit 15 100 * F32.of_Z 10 - F32.of_Z 30
  else if def >=? F32.lit 75 1000 then
    (def - F32.lit 15 100) / F32.lit 75 1000 * F32.of_Z 10 - F32.of_Z 40
  else if def >=? F32.lit 25 1000 then
    (def - F32.lit 75 1000) / F32.lit 5 100 * F32.of_Z 10 - F32.of_Z 50
  else if def >=? F32.lit 1 1000 then
    (def - F32.lit 25 1000) / F32.lit 25 1000 * F32.of_Z 90 - F32.of_Z 60
  else F32.neg_infinity.

Definition iec_db_to_def (db : f32) : f32 :=
  if db == F32.zero then F32.one
  else if db == F32.neg_infinity then F32.zero
  else if db >=? F32.of_Z (-9) then
    (db + F32.of_Z 9) / F32.of_Z 9 * F32.lit 25 100 + F32.lit 75 100
  else if db >=? F32.of_Z (-20) then
    (db + F32.of_Z 20) / F32.of_Z 11 * F32.lit 25 100 + F32.lit 5 10
  else if db >=? F32.of_Z (-30) then
    (db + F32.of_Z 30) / F32.of_Z 10 * F32.lit 2 10 + F32.lit 3 10
  else if db >=? F32.of_Z (-40) then
    (db + F32.of_Z 40) / F32.of_Z 10 * F32.lit 15 100 + F32.lit 15 100
  else if db >=? F32.of_Z (-50) then
    (db + F32.of_Z 50) / F32.of_Z 10 * F32.lit 75 1000 + F32.lit 75 1000
  else if db >=? F32.of_Z (-60) then
    (db + F32.of_Z 60) / F32.of_Z 10 * F32.lit 5 100 + F32.lit 25 1000
  else if db >=? F32.of_Z (-114) then
    (db + F32.of_Z 150) / F32.of_Z 90 * F32.lit 25 1000
  else F32.zero.

Definition LOG_OFFSET_DB : f32 := F32.of_Z 6.
Definition LOG_RANGE_DB : f32 := F32.of_Z 96.
Definition LOG_OFFSET_VAL : f32 :=
  F32.lit (-77815125038364363) 100000000000000000.
Definition LOG_RANGE_VAL : f32 :=
  F32.lit (-200860017176191756) 100000000000000000.

Definition log_def_to_db (def : f32) : f32 :=
  if def >=? F32.one then F32.zero
  else if def <=? F32.zero then F32.neg_infinity
  else
    - (LOG_RANGE_DB + LOG_OFFSET_DB)
      * powf M ((LOG_RANGE_DB + LOG_OFFSET_DB) / LOG_OFFSET_DB) (- def)
    + LOG_OFFSET_DB.

Definition log_db_to_def (db : f32) : f32 :=
  if db >=? F32.zero then F32.one
  else if db <=? F32.of_Z (-96) then F32.zero
  else
    (- log10f M (- db + LOG_OFFSET_DB) - LOG_RANGE_VAL)
    / (LOG_OFFSET_VAL - LOG_RANGE_VAL).

End WithLibm.
End Level.


(** ** Fader control (obs-audio-controls.c) *)

Module Fader.

Inductive obs_fader_type : Type :=
| OBS_FADER_CUBIC
| OBS_FADER_IEC
| OBS_FADER_LOG.

(** What the fader needs of an [obs_source_t]: its identity and the linear
    gain [obs_source_get_volume] reads. *)
Record obs_source : Type := {
  source_id : nat;
  user_volume : f32
}.

(** [struct obs_fader], without its mutex and its signal handler.  [source]
    is the pointer to the bound source ([None] is NULL). *)
Record obs_fader : Type := {
  def_to_db : f32 -> f32;
  db_to_def : f32 -> f32;
  source : option nat;
  type : obs_fader_type;
  max_db : f32;
  min_db : f32;
  cur_db : f32;
  ignore_next_signal : bool
}.

(** What a call on a fader leaves behind: the fader, the call to
    [obs_source_set_volume] it made (source and gain), the [volume_changed]
    signal it emitted (the dB value), and the value it returned. *)
Record outcome (R : Type) : Type := {
  fader_after : option obs_fader;
  set_volume : option (nat * f32);
  volume_changed : option f32;
  returned : R
}.
Arguments fader_after {R} _.
Arguments set_volume {R} _.
Arguments volume_changed {R} _.
Arguments returned {R} _.

Section WithLibm.

Variable M : libm.

Local Open Scope f32_scope.

Definition obs_fader_create (ty : obs_fader_type) : obs_fader :=
  match ty with
  | OBS_FADER_CUBIC =>
      {| def_to_db := Level.cubic_def_to_db M;
         db_to_def := Level.cubic_db_to_def M;
         source := None; type := ty;
         max_db := F32.zero; min_db := F32.neg_infinity;
         cur_db := F32.zero; ignore_next_signal := false |}
  | OBS_FADER_IEC =>
      {| def_to_db := Level.iec_def_to_db;
         db_to_def := Level.iec_db_to_def;
         source := None; type := ty;
         max_db := F32.zero; min_db := F32.neg_infinity;
         cur_db := F32.zero; ignore_next_signal := false |}
  | OBS_FADER_LOG =>
      {| def_to_db := Level.log_def_to_db M;
         db_to_def := Level.log_db_to_def M;
         source := None; type := ty;
         max_db := F32.zero; min_db := F32.of_Z (-96);
         cur_db := F32.zero; ignore_next_signal := false |}
  end.

Definition set_cur_db (f : obs_fader) (db : f32) : obs_fader :=
  {| def_to_db := def_to_db f; db_to_def := db_to_def f;
     source := source f; type := type f;
     max_db := max_db f; min_db := min_db f;
     cur_db := db; ignore_next_signal := ignore_next_signal f |}.

Definition set_ignore_next_signal (f : obs_fader) (b : bool) : obs_fader :=
  {| def_to_db := def_to_db f; db_to_def := db_to_def f;
     source := source f; type := type f;
     max_db := max_db f; min_db := min_db f;
     cur_db := cur_db f; ignore_next_signal := b |}.

Definition set_source (f : obs_fader) (s : option nat) : obs_fader :=
  {| def_to_db := def_to_db f; db_to_def := db_to_def f;
     source := s; type := type f;
     max_db := max_db f; min_db := min_db f;
     cur_db := cur_db f; ignore_next_signal := ignore_next_signal f |}.

Definition obs_fader_set_db (fader : option obs_fader) (db : f32)
  : outcome bool :=
  match fader with
  | None =>
      {| fader_after := None; set_volume := None; volume_changed := None;
         returned := false |}
  | Some f =>
      let clamped := false in
      let f := set_cur_db f db in
      let '(f, clamped) :=
        if cur_db f >? max_db f then (set_cur_db f (max_db f), true)
        else (f, clamped) in
      let '(f, clamped) :=
        if cur_db f <? min_db f then (set_cur_db f F32.neg_infinity, true)
        else (f, clamped) in
      let f := set_ignore_next_signal f true in
      let src := source f in
      let mul := Level.db_to_mul M (cur_db f) in
      {| fader_after := Some f;
         set_volume := option_map (fun s => (s, mul)) src;
         volume_changed := None;
         returned := negb clamped |}
  end.

Definition obs_fader_get_db (fader : option obs_fader) : f32 :=
  match fader with
  | None => F32.zero
  | Some f => cur_db f
  end.

Definition obs_fader_set_deflection (fader : option obs_fader) (def : f32)
  : outcome bool :=
  match fader with
  | None =>
      {| fader_after := None; set_volume := None; volume_changed := None;
         returned := false |}
  | Some f => obs_fader_set_db fader (def_to_db f def)
  end.

Definition obs_fader_set_mul (fader : option obs_fader) (mul : f32)
  : outcome bool :=
  match fader with
  | None =>
      {| fader_after := None; set_volume := None; volume_changed := None;
         returned := false |}
  | Some _ => obs_fader_set_db fader (Level.mul_to_db M mul)
  end.

Definition detach (f : obs_fader) : obs_fader :=
  match source f with
  | None => f
  | Some _ => set_source f None
  end.

Definition obs_fader_detach_source (fader : option obs_fader)
  : option obs_fader :=
  option_map detach fader.

Definition obs_fader_attach_source (fader : option obs_fader)
    (src : option obs_source) : outcome bool :=
  match fader, src with
  | Some f, Some s =>
      let f := detach f in
      let f := set_source f (Some (source_id s)) in
      let f := set_cur_db f (Level.mul_to_db M (user_volume s)) in
      {| fader_after := Some f; set_volume := None;
         volume_changed := None; returned := true |}
  | _, _ =>
      {| fader_after := fader; set_volume := None; volume_changed := None;
         returned := false |}
  end.

(** The handler of the bound source's "volume" signal; [mul] is the signal's
    "volume" parameter. *)
Definition fader_source_volume_changed (f : obs_fader) (mul : f32)
  : outcome unit :=
  if ignore_next_signal f then
    {| fader_after := Some (set_ignore_next_signal f false);
       set_volume := None; volume_changed := None; returned := tt |}
  else
    let db := Level.mul_to_db M mul in
    let f := set_cur_db f db in
    {| fader_after := Some f; set_volume := None;
       volume_changed := Some db; returned := tt |}.

End WithLibm.

(** The fader invariant of the data model: [min_db <= cur_db <= max_db], or
    [cur_db] is the silence value. *)
Definition in_range (f : obs_fader) : bool :=
  (F32.leb (min_db f) (cur_db f) && F32.leb (cur_db f) (max_db f))
  || F32.eqb (cur_db f) F32.neg_infinity.

Definition after {R} (o : outcome R) (d : obs_fader) : obs_fader :=
  match fader_after o with
  | Some f => f
  | None => d
  end.

(** The clamp bounds are numbers and [max_db] is not below [min_db]. *)
Definition bounds_ordered (f : obs_fader) : Prop :=
  F32.is_nan (min_db f) = false /\ F32.is_nan (max_db f) = false
  /\ F32.ltb (max_db f) (min_db f) = false.

End Fader.

(** ** Volume meter (obs-audio-controls.c) *)

Module Volmeter.

(** [struct obs_volmeter], without its mutex, its signal handler and the
    two conversion pointers (not used by the window accumulation). *)
Record obs_volmeter : Type := {
  cur_db : f32;
  channels : Z;
  update_ms : Z;
  update_frames : Z;
  peakhold_ms : Z;
  peakhold_frames : Z;
  peakhold_count : Z;
  ival_frames : Z;
  ival_sum : f32;
  ival_max : f32;
  vol_peak : f32;
  vol_mag : f32;
  vol_max : f32
}.

(** The planes of a [struct audio_data]: [None] is a NULL plane pointer. *)
Definition planes : Type := list (option (list f32)).

Record audio_data : Type := {
  data : planes;
  frames : Z
}.

Local Open Scope f32_scope.

(** The inner loop of [volmeter_sum_and_max] over the samples of one plane. *)
Fixpoint sum_and_max_samples (cs : list f32) (s m : f32) : f32 * f32 :=
  match cs with
  | [] => (s, m)
  | c :: cs' =>
      let pow := c * c in
      let s := s + pow in
      let m := if m >? pow then m else pow in
      sum_and_max_samples cs' s m
  end.

(** A plane shorter than [frames] is read as far as it goes. *)
Fixpoint volmeter_sum_and_max (d : planes) (frames : Z) (sum max : f32)
  : f32 * f32 :=
  match d with
  | Some plane :: rest =>
      let '(s, m) :=
        sum_and_max_samples (firstn (Z.to_nat frames) plane) sum max in
      volmeter_sum_and_max rest frames s m
  | _ => (sum, max)
  end.

Definition alpha : f32 := F32.lit 15 100.

Definition volmeter_calc_ival_levels (v : obs_volmeter) : obs_volmeter :=
  let samples := u32 (ival_frames v * channels v) in
  let ival_max_ := F32.sqrt (ival_max v) in
  let ival_rms := F32.sqrt (ival_sum v / F32.of_Z samples) in
  let vol_max_ :=
    if ival_max_ >? vol_max v then ival_max_
    else alpha * vol_max v + (F32.one - alpha) * ival_max_ in
  let '(vol_peak_, peakhold_count_) :=
    if (vol_max_ >? vol_peak v) || (peakhold_count v >? peakhold_frames v)%Z
    then (vol_max_, 0%Z)
    else (vol_peak v, u32 (peakhold_count v + ival_frames v)) in
  let vol_mag_ := alpha * ival_rms + vol_mag v * (F32.one - alpha) in
  {| cur_db := cur_db v; channels := channels v;
     update_ms := update_ms v; update_frames := update_frames v;
     peakhold_ms := peakhold_ms v; peakhold_frames := peakhold_frames v;
     peakhold_count := peakhold_count_;
     ival_frames := 0; ival_sum := F32.zero; ival_max := F32.zero;
     vol_peak := vol_peak_; vol_mag := vol_mag_; vol_max := vol_max_ |}.

(** [adata[i] += frames] for the planes before the first NULL. *)
Fixpoint advance (d : planes) (frames : Z) : planes :=
  match d with
  | Some plane :: rest =>
      Some (skipn (Z.to_nat frames) plane) :: advance rest frames
  | _ => d
  end.

Definition accumulate (v : obs_volmeter) (frames : Z) (s m : f32)
  : obs_volmeter :=
  {| cur_db := cur_db v; channels := channels v;
     update_ms := update_ms v; update_frames := update_frames v;
     peakhold_ms := peakhold_ms v; peakhold_frames := peakhold_frames v;
     peakhold_count := peakhold_count v;
     ival_frames := u32 (ival_frames v + u32 frames);
     ival_sum := s; ival_max := m;
     vol_peak := vol_peak v; vol_mag := vol_mag v; vol_max := vol_max v |}.

(** The result of [volmeter_process_audio_data]: the meter, the value
    returned, and (for the proofs only) the log of the calls to
    [volmeter_calc_ival_levels], each with the frame count of the window it
    finalized. *)
Record processed : Type := {
  meter : obs_volmeter;
  updated : bool;
  finalized : list Z
}.

(** The [while (left)] loop.  It need not terminate (it does not when
    [update_frames] is 0), hence the fuel: [None] is "still running". *)
Fixpoint process_loop (fuel : nat) (v : obs_volmeter) (adata : planes)
    (left : Z) (upd : bool) (log : list Z) : option processed :=
  if (left =? 0)%Z then
    Some {| meter := v; updated := upd; finalized := log |}
  else
    match fuel with
    | O => None
    | S fuel' =>
        let frames :=
          if (usize (ival_frames v + left) >? update_frames v)%Z
          then u32 (update_frames v - ival_frames v)
          else left in
        let '(s, m) :=
          volmeter_sum_and_max adata frames (ival_sum v) (ival_max v) in
        let v := accumulate v frames s m in
        let left := usize (left - frames) in
        let adata := advance adata frames in
        if negb (ival_frames v =? update_frames v)%Z then
          Some {| meter := v; updated := upd; finalized := log |}
        else
          process_loop fuel' (volmeter_calc_ival_levels v) adata left true
            (log ++ [ival_frames v])
    end.

Definition volmeter_process_audio_data (fuel : nat) (v : obs_volmeter)
    (d : audio_data) : option processed :=
  process_loop fuel v (data d) (frames d) false [].

End Volmeter.

(** ** Encoded output: packet interleaver and reconnect (obs-output.c) *)

Module Output.

Inductive obs_encoder_type : Type :=
| OBS_ENCODER_AUDIO
| OBS_ENCODER_VIDEO.

Definition type_eqb (a b : obs_encoder_type) : bool :=
  match a, b with
  | OBS_ENCODER_AUDIO, OBS_ENCODER_AUDIO => true
  | OBS_ENCODER_VIDEO, OBS_ENCODER_VIDEO => true
  | _, _ => false
  end.

(** The fields of [struct encoder_packet] the output reads or writes (the
    payload and the keyframe flag travel with the packet untouched).
    [encoder] identifies the encoder that produced the packet. *)
Record encoder_packet : Type := {
  pts : Z;
  dts : Z;
  timebase_den : Z;
  type : obs_encoder_type;
  dts_usec : Z;
  track_idx : nat;
  encoder : nat
}.

Definition set_track_idx (p : encoder_packet) (i : nat) : encoder_packet :=
  {| pts := pts p; dts := dts p; timebase_den := timebase_den p;
     type := type p; dts_usec := dts_usec p; track_idx := i;
     encoder := encoder p |}.

(** Modelled from the spec: [packet_dts_usec] and [MICROSECOND_DEN] are
    declared in obs-internal.h, which is not among the sources.  The derived
    microsecond decode timestamp is the decode timestamp rescaled from the
    packet's timebase to microseconds, with C's truncating division. *)
Definition MICROSECOND_DEN : Z := 1000000.

Definition packet_dts_usec (p : encoder_packet) : Z :=
  Z.quot (dts p * MICROSECOND_DEN) (timebase_den p).

(** Modelled from the spec: the constants below are declared in headers that
    are not among the sources (obs-output.h, obs-defs.h, media-io/audio-io.h):
    the capability bits of an output, the number of audio track slots (the
    interleaver takes one video and up to four audio tracks), and the stop
    codes (success, bad-path, connect-failed, invalid-stream, generic-error,
    disconnected).  The properties below only depend on the bits being
    distinct bits and on the codes being distinct. *)
Definition OBS_OUTPUT_VIDEO : Z := 1.
Definition OBS_OUTPUT_AUDIO : Z := 2.
Definition OBS_OUTPUT_ENCODED : Z := 4.
Definition OBS_OUTPUT_SERVICE : Z := 8.
Definition OBS_OUTPUT_MULTI_TRACK : Z := 16.
Definition MAX_AUDIO_MIXES : nat := 4.
Definition OBS_OUTPUT_SUCCESS : Z := 0.
Definition OBS_OUTPUT_BAD_PATH : Z := -1.
Definition OBS_OUTPUT_CONNECT_FAILED : Z := -2.
Definition OBS_OUTPUT_INVALID_STREAM : Z := -3.
Definition OBS_OUTPUT_ERROR : Z := -4.
Definition OBS_OUTPUT_DISCONNECTED : Z := -5.

(** What the output asks of its service: the [supports_multitrack] callback
    ([None] when the service has none), with the value it returns. *)
Record obs_service : Type := {
  supports_multitrack : option bool
}.

(** [struct obs_output]: the fields of the interleaver and of the reconnect
    logic.  A pointer to an encoder or a service is [None] when NULL;
    [audio_encoders] and [audio_offsets] have [MAX_AUDIO_MIXES] entries. *)
Record obs_output : Type := {
  flags : Z;
  service : option obs_service;
  video_encoder : option nat;
  audio_encoders : list (option nat);
  received_audio : bool;
  received_video : bool;
  highest_audio_ts : Z;
  highest_video_ts : Z;
  video_offset : Z;
  audio_offsets : list Z;
  interleaved_packets : list encoder_packet;
  total_frames : Z;
  active : bool;
  stopped : bool;
  reconnecting : bool;
  reconnect_retry_sec : Z;
  reconnect_retry_max : Z;
  reconnect_retries : Z;
  reconnect_retry_cur_sec : Z
}.

Definition set_received_audio (o : obs_output) (x : bool) : obs_output :=
  {| flags := flags o; service := service o;
     video_encoder := video_encoder o; audio_encoders := audio_encoders o;
     received_audio := x; received_video := received_video o;
     highest_audio_ts := highest_audio_ts o;
     highest_video_ts := highest_video_ts o; video_offset := video_offset o;
     audio_offsets := audio_offsets o;
     interleaved_packets := interleaved_packets o;
     total_frames := total_frames o; active := active o;
     stopped := stopped o; reconnecting := reconnecting o;
     reconnect_retry_sec := reconnect_retry_sec o;
     reconnect_retry_max := reconnect_retry_max o;
     reconnect_retries := reconnect_retries o;
     reconnect_retry_cur_sec := reconnect_retry_cur_sec o |}.

Definition set_received_video (o : obs_output) (x : bool) : obs_output :=
  {| flags := flags o; service := service o;
     video_encoder := video_encoder o; audio_encoders := audio_encoders o;
     received_audio := received_audio o; received_video := x;
     highest_audio_ts := highest_audio_ts o;
     highest_video_ts := highest_video_ts o; video_offset := video_offset o;
     audio_offsets := audio_offsets o;
     interleaved_packets := interleaved_packets o;
     total_frames := total_frames o; active := active o;
     stopped := stopped o; reconnecting := reconnecting o;
     reconnect_retry_sec := reconnect_retry_sec o;
     reconnect_retry_max := reconnect_retry_max o;
     reconnect_retries := reconnect_retries o;
     reconnect_retry_cur_sec := reconnect_retry_cur_sec o |}.

Definition set_highest_audio_ts (o : obs_output) (x : Z) : obs_output :=
  {| flags := flags o; service := service o;
     video_encoder := video_encoder o; audio_encoders := audio_encoders o;
     received_audio := received_audio o; received_video := received_video o;
     highest_audio_ts := x; highest_video_ts := highest_video_ts o;
     video_offset := video_offset o; audio_offsets := audio_offsets o;
     interleaved_packets := interleaved_packets o;
     total_frames := total_frames o; active := active o;
     stopped := stopped o; reconnecting := reconnecting o;
     reconnect_retry_sec := reconnect_retry_sec o;
     reconnect_retry_max := reconnect_retry_max o;
     reconnect_retries := reconnect_retries o;
     reconnect_retry_cur_sec := reconnect_retry_cur_sec o |}.

Definition set_highest_video_ts (o : obs_output) (x : Z) : obs_output :=
  {| flags := flags o; service := service o;
     video_encoder := video_encoder o; audio_encoders := audio_encoders o;
     received_audio := received_audio o; received_video := received_video o;
     highest_audio_ts := highest_audio_ts o; highest_video_ts := x;
     video_offset := video_offset o; audio_offsets := audio_offsets o;
     interleaved_packets := interleaved_packets o;
     total_frames := total_frames o; active := active o;
     stopped := stopped o; reconnecting := reconnecting o;
     reconnect_retry_sec := reconnect_retry_sec o;
     reconnect_retry_max := reconnect_retry_max o;
     reconnect_retries := reconnect_retries o;
     reconnect_retry_cur_sec := reconnect_retry_cur_sec o |}.

Definition set_video_offset (o : obs_output) (x : Z) : obs_output :=
  {| flags := flags o; service := service o;
     video_encoder := video_encoder o; audio_encoders := audio_encoders o;
     received_audio := received_audio o; received_video := received_video o;
     highest_audio_ts := highest_audio_ts o;
     highest_video_ts := highest_video_ts o; video_offset := x;
     audio_offsets := audio_offsets o;
     interleaved_packets := interleaved_packets o;
     total_frames := total_frames o; active := active o;
     stopped := stopped o; reconnecting := reconnecting o;
     reconnect_retry_sec := reconnect_retry_sec o;
     reconnect_retry_max := reconnect_retry_max o;
     reconnect_retries := reconnect_retries o;
     reconnect_retry_cur_sec := reconnect_retry_cur_sec o |}.

Definition set_audio_offsets (o : obs_output) (x : list Z) : obs_output :=
  {| flags := flags o; service := service o;
     video_encoder := video_encoder o; audio_encoders := audio_encoders o;
     received_audio := received_audio o; received_video := received_video o;
     highest_audio_ts := highest_audio_ts o;
     highest_video_ts := highest_video_ts o; video_offset := video_offset o;
     audio_offsets := x; interleaved_packets := interleaved_packets o;
     total_frames := total_frames o; active := active o;
     stopped := stopped o; reconnecting := reconnecting o;
     reconnect_retry_sec := reconnect_retry_sec o;
     reconnect_retry_max := reconnect_retry_max o;
     reconnect_retries := reconnect_retries o;
     reconnect_retry_cur_sec := reconnect_retry_cur_sec o |}.

Definition set_interleaved_packets (o : obs_output) (x : list encoder_packet) : obs_output :=
  {| flags := flags o; service := service o;
     video_encoder := video_encoder o; audio_encoders := audio_encoders o;
     received_audio := received_audio o; received_video := received_video o;
     highest_audio_ts := highest_audio_ts o;
     highest_video_ts := highest_video_ts o; video_offset := video_offset o;
     audio_offsets := audio_offsets o; interleaved_packets := x;
     total_frames := total_frames o; active := active o;
     stopped := stopped o; reconnecting := reconnecting o;
     reconnect_retry_sec := reconnect_retry_sec o;
     reconnect_retry_max := reconnect_retry_max o;
     reconnect_retries := reconnect_retries o;
     reconnect_retry_cur_sec := reconnect_retry_cur_sec o |}.

Definition set_total_frames (o : obs_output) (x : Z) : obs_output :=
  {| flags := flags o; service := service o;
     video_encoder := video_encoder o; audio_encoders := audio_encoders o;
     received_audio := received_audio o; received_video := received_video o;
     highest_audio_ts := highest_audio_ts o;
     highest_video_ts := highest_video_ts o; video_offset := video_offset o;
     audio_offsets := audio_offsets o;
     interleaved_packets := interleaved_packets o; total_frames := x;
     active := active o; stopped := stopped o;
     reconnecting := reconnecting o;
     reconnect_retry_sec := reconnect_retry_sec o;
     reconnect_retry_max := reconnect_retry_max o;
     reconnect_retries := reconnect_retries o;
     reconnect_retry_cur_sec := reconnect_retry_cur_sec o |}.

Definition set_active (o : obs_output) (x : bool) : obs_output :=
  {| flags := flags o; service := service o;
     video_encoder := video_encoder o; audio_encoders := audio_encoders o;
     received_audio := received_audio o; received_video := received_video o;
     highest_audio_ts := highest_audio_ts o;
     highest_video_ts := highest_video_ts o; video_offset := video_offset o;
     audio_offsets := audio_offsets o;
     interleaved_packets := interleaved_packets o;
     total_frames := total_frames o; active := x; stopped := stopped o;
     reconnecting := reconnecting o;
     reconnect_retry_sec := reconnect_retry_sec o;
     reconnect_retry_max := reconnect_retry_max o;
     reconnect_retries := reconnect_retries o;
     reconnect_retry_cur_sec := reconnect_retry_cur_sec o |}.

Definition set_stopped (o : obs_output) (x : bool) : obs_output :=
  {| flags := flags o; service := service o;
     video_encoder := video_encoder o; audio_encoders := audio_encoders o;
     received_audio := received_audio o; received_video := received_video o;
     highest_audio_ts := highest_audio_ts o;
     highest_video_ts := highest_video_ts o; video_offset := video_offset o;
     audio_offsets := audio_offsets o;
     interleaved_packets := interleaved_packets o;
     total_frames := total_frames o; active := active o; stopped := x;
     reconnecting := reconnecting o;
     reconnect_retry_sec := reconnect_retry_sec o;
     reconnect_retry_max := reconnect_retry_max o;
     reconnect_retries := reconnect_retries o;
     reconnect_retry_cur_sec := reconnect_retry_cur_sec o |}.

Definition set_reconnecting (o : obs_output) (x : bool) : obs_output :=
  {| flags := flags o; service := service o;
     video_encoder := video_encoder o; audio_encoders := audio_encoders o;
     received_audio := received_audio o; received_video := received_video o;
     highest_audio_ts := highest_audio_ts o;
     highest_video_ts := highest_video_ts o; video_offset := video_offset o;
     audio_offsets := audio_offsets o;
     interleaved_packets := interleaved_packets o;
     total_frames := total_frames o; active := active o;
     stopped := stopped o; reconnecting := x;
     reconnect_retry_sec := reconnect_retry_sec o;
     reconnect_retry_max := reconnect_retry_max o;
     reconnect_retries := reconnect_retries o;
     reconnect_retry_cur_sec := reconnect_retry_cur_sec o |}.

Definition set_reconnect_retries (o : obs_output) (x : Z) : obs_output :=
  {| flags := flags o; service := service o;
     video_encoder := video_encoder o; audio_encoders := audio_encoders o;
     received_audio := received_audio o; received_video := received_video o;
     highest_audio_ts := highest_audio_ts o;
     highest_video_ts := highest_video_ts o; video_offset := video_offset o;
     audio_offsets := audio_offsets o;
     interleaved_packets := interleaved_packets o;
     total_frames := total_frames o; active := active o;
     stopped := stopped o; reconnecting := reconnecting o;
     reconnect_retry_sec := reconnect_retry_sec o;
     reconnect_retry_max := reconnect_retry_max o; reconnect_retries := x;
     reconnect_retry_cur_sec := reconnect_retry_cur_sec o |}.

Definition set_reconnect_retry_cur_sec (o : obs_output) (x : Z) : obs_output :=
  {| flags := flags o; service := service o;
     video_encoder := video_encoder o; audio_encoders := audio_encoders o;
     received_audio := received_audio o; received_video := received_video o;
     highest_audio_ts := highest_audio_ts o;
     highest_video_ts := highest_video_ts o; video_offset := video_offset o;
     audio_offsets := audio_offsets o;
     interleaved_packets := interleaved_packets o;
     total_frames := total_frames o; active := active o;
     stopped := stopped o; reconnecting := reconnecting o;
     reconnect_retry_sec := reconnect_retry_sec o;
     reconnect_retry_max := reconnect_retry_max o;
     reconnect_retries := reconnect_retries o;
     reconnect_retry_cur_sec := x |}.


(** Writing [a[i] = x] in a C array (nothing is written out of range). *)
Fixpoint array_set {A} (a : list A) (i : nat) (x : A) : list A :=
  match a, i with
  | [], _ => []
  | _ :: r, O => x :: r
  | y :: r, S i' => y :: array_set r i' x
  end.

Definition has_flag (o : obs_output) (bit : Z) : bool :=
  negb (Z.land (flags o) bit =? 0).

(** What the output does to the world around it. *)
Inductive effect : Type :=
| signal_start
| signal_stop (code : Z)
| signal_reconnect (timeout_sec : Z)
| signal_reconnect_success
| reconnect_thread_created (wait_ms : Z).

(** [obs_output_create]: the zeroed structure with the reconnect defaults
    (a NULL array pointer is the empty packet buffer). *)
Definition obs_output_create (info_flags : Z) : obs_output :=
  {| flags := info_flags; service := None; video_encoder := None;
     audio_encoders := repeat None MAX_AUDIO_MIXES;
     received_audio := false; received_video := false;
     highest_audio_ts := 0; highest_video_ts := 0;
     video_offset := 0; audio_offsets := repeat 0 MAX_AUDIO_MIXES;
     interleaved_packets := []; total_frames := 0;
     active := false; stopped := false; reconnecting := false;
     reconnect_retry_sec := 2; reconnect_retry_max := 20;
     reconnect_retries := 0; reconnect_retry_cur_sec := 0 |}.

Definition free_packets (o : obs_output) : obs_output :=
  set_interleaved_packets o [].

Definition obs_output_active (output : option obs_output) : bool :=
  match output with
  | Some o => active o || reconnecting o
  | None => false
  end.

Definition service_supports_multitrack (o : obs_output) : bool :=
  match service o with
  | None => false
  | Some s =>
      match supports_multitrack s with
      | None => false
      | Some b => b
      end
  end.

(** The [for] loop of [num_audio_mixes]: the encoder slots before the first
    NULL. *)
Fixpoint count_mixes (slots : list (option nat)) : nat :=
  match slots with
  | Some _ :: r => S (count_mixes r)
  | _ => O
  end.

Definition num_audio_mixes (o : obs_output) : nat :=
  if has_flag o OBS_OUTPUT_SERVICE && negb (service_supports_multitrack o)
  then 1%nat
  else if has_flag o OBS_OUTPUT_MULTI_TRACK
  then count_mixes (firstn MAX_AUDIO_MIXES (audio_encoders o))
  else 1%nat.

Definition slot_holds (slot : option nat) (e : nat) : bool :=
  match slot with
  | Some e' => Nat.eqb e' e
  | None => false
  end.

Fixpoint find_slot (slots : list (option nat)) (e : nat) (i : nat)
  : option nat :=
  match slots with
  | [] => None
  | s :: r => if slot_holds s e then Some i else find_slot r e (S i)
  end.

(** [None] is the failed [assert(false)]: the packet's encoder is in no
    slot. *)
Definition get_track_index (o : obs_output) (pkt : encoder_packet)
  : option nat :=
  find_slot (firstn MAX_AUDIO_MIXES (audio_encoders o)) (encoder pkt) 0.

Definition check_received (o : obs_output) (out : encoder_packet)
  : obs_output :=
  match type out with
  | OBS_ENCODER_VIDEO =>
      if negb (received_video o) then set_received_video o true else o
  | OBS_ENCODER_AUDIO =>
      if negb (received_audio o) then set_received_audio o true else o
  end.

Definition apply_interleaved_packet_offset (o : obs_output)
    (out : encoder_packet) : encoder_packet :=
  let offset :=
    match type out with
    | OBS_ENCODER_VIDEO => video_offset o
    | OBS_ENCODER_AUDIO => nth (track_idx out) (audio_offsets o) 0
    end in
  let out :=
    {| pts := pts out - offset; dts := dts out - offset;
       timebase_den := timebase_den out; type := type out;
       dts_usec := dts_usec out; track_idx := track_idx out;
       encoder := encoder out |} in
  {| pts := pts out; dts := dts out; timebase_den := timebase_den out;
     type := type out; dts_usec := packet_dts_usec out;
     track_idx := track_idx out; encoder := encoder out |}.

Definition has_higher_opposing_ts (o : obs_output) (packet : encoder_packet)
  : bool :=
  match type packet with
  | OBS_ENCODER_VIDEO => highest_audio_ts o >? dts_usec packet
  | OBS_ENCODER_AUDIO => highest_video_ts o >? dts_usec packet
  end.

(** The result is the output and the packets handed to the driver's
    [encoded_packet] callback (none or one).  On an empty buffer the C code
    reads past the array; the model does nothing there. *)
Definition send_interleaved (o : obs_output)
  : obs_output * list encoder_packet :=
  match interleaved_packets o with
  | [] => (o, [])
  | out :: rest =>
      if negb (has_higher_opposing_ts o out) then (o, [])
      else
        let o :=
          match type out with
          | OBS_ENCODER_VIDEO => set_total_frames o (total_frames o + 1)
          | OBS_ENCODER_AUDIO => o
          end in
        let o := set_interleaved_packets o rest in
        (o, if negb (stopped o) then [out] else [])
  end.

Definition set_higher_ts (o : obs_output) (packet : encoder_packet)
  : obs_output :=
  match type packet with
  | OBS_ENCODER_VIDEO =>
      if highest_video_ts o <? dts_usec packet
      then set_highest_video_ts o (dts_usec packet) else o
  | OBS_ENCODER_AUDIO =>
      if highest_audio_ts o <? dts_usec packet
      then set_highest_audio_ts o (dts_usec packet) else o
  end.

(** [idx >= num - 1] is a [size_t] comparison: on an empty buffer [num - 1]
    wraps and the C code reads past the array; the model answers [false]
    there. *)
Definition can_prune_interleaved_packet (o : obs_output) (idx : nat) : bool :=
  let pkts := interleaved_packets o in
  if Nat.eqb (length pkts) 0 then false
  else if (length pkts - 1 <=? idx)%nat then false
  else
    match nth_error pkts idx with
    | None => false
    | Some packet =>
        if negb (type_eqb (type packet) OBS_ENCODER_AUDIO) then false
        else
          match nth_error pkts (S idx) with
          | None => false
          | Some next =>
              if type_eqb (type next) OBS_ENCODER_VIDEO
                 && (dts_usec next =? dts_usec packet)
              then false
              else true
          end
    end.

(** [while (can_prune_interleaved_packet(output, start_idx)) start_idx++]:
    the index stays below the length of the buffer, which bounds the loop. *)
Fixpoint prune_scan (fuel : nat) (o : obs_output) (start_idx : nat) : nat :=
  match fuel with
  | O => start_idx
  | S fuel' =>
      if can_prune_interleaved_packet o start_idx
      then prune_scan fuel' o (S start_idx)
      else start_idx
  end.

Definition prune_interleaved_packets (o : obs_output) : obs_output :=
  let start_idx := prune_scan (length (interleaved_packets o)) o 0 in
  if negb (Nat.eqb start_idx 0)
  then set_interleaved_packets o (skipn start_idx (interleaved_packets o))
  else o.

Definition find_first_packet_type (o : obs_output) (ty : obs_encoder_type)
    (audio_idx : nat) : option encoder_packet :=
  find (fun packet =>
          type_eqb (type packet) ty
          && negb (type_eqb ty OBS_ENCODER_AUDIO
                   && negb (Nat.eqb (track_idx packet) audio_idx)))
       (interleaved_packets o).

(** The loop filling [audio[i]] for [i < audio_mixes], from index [i] on:
    [None] when some track has no packet in the buffer. *)
Fixpoint first_audio_packets (o : obs_output) (n i : nat)
  : option (list encoder_packet) :=
  match n with
  | O => Some []
  | S n' =>
      match find_first_packet_type o OBS_ENCODER_AUDIO i with
      | None => None
      | Some a => option_map (cons a) (first_audio_packets o n' (S i))
      end
  end.

(** [audio_offsets[i] = audio[i]->dts], from index [i] on. *)
Fixpoint store_audio_offsets (offs : list Z) (audio : list encoder_packet)
    (i : nat) : list Z :=
  match audio with
  | [] => offs
  | a :: r => store_audio_offsets (array_set offs i (dts a)) r (S i)
  end.

(** The outer [None] is undefined behaviour: with no audio mix at all,
    [audio[0]] is read uninitialised. *)
Definition initialize_interleaved_packets (o : obs_output)
  : option (obs_output * bool) :=
  let audio_mixes := num_audio_mixes o in
  let video := find_first_packet_type o OBS_ENCODER_VIDEO 0 in
  let o :=
    match video with
    | None => set_received_video o false
    | Some _ => o
    end in
  match first_audio_packets o audio_mixes 0 with
  | None => Some (set_received_audio o false, false)
  | Some audio =>
      match video with
      | None => Some (o, false)
      | Some v =>
          let o := set_video_offset o (dts v) in
          let o :=
            set_audio_offsets o
              (store_audio_offsets (audio_offsets o) audio 0) in
          match audio with
          | [] => None
          | a0 :: _ =>
              let o :=
                set_highest_audio_ts o (highest_audio_ts o - dts_usec a0) in
              let o :=
                set_highest_video_ts o (highest_video_ts o - dts_usec v) in
              let o :=
                set_interleaved_packets o
                  (map (apply_interleaved_packet_offset o)
                       (interleaved_packets o)) in
              Some (o, true)
          end
      end
  end.

(** The position found by the loop of [insert_interleaved_packet] is the
    first packet with a greater [dts_usec]. *)
Fixpoint insert_packet (out : encoder_packet) (pkts : list encoder_packet)
  : list encoder_packet :=
  match pkts with
  | [] => [out]
  | cur_packet :: r =>
      if dts_usec out <? dts_usec cur_packet then out :: pkts
      else cur_packet :: insert_packet out r
  end.

Definition insert_interleaved_packet (o : obs_output) (out : encoder_packet)
  : obs_output :=
  set_interleaved_packets o (insert_packet out (interleaved_packets o)).

Definition resort_interleaved_packets (o : obs_output) : obs_output :=
  let old_array := interleaved_packets o in
  fold_left insert_interleaved_packet old_array (set_interleaved_packets o []).

(** One call of the encoder callback.  The result is [None] when the call
    aborts (failed assertion) or has no defined behaviour; otherwise the
    output and the packets passed downstream by this call. *)
Definition interleave_packets (o : obs_output) (packet : encoder_packet)
  : option (obs_output * list encoder_packet) :=
  let resolved :=
    match type packet with
    | OBS_ENCODER_AUDIO =>
        option_map (set_track_idx packet) (get_track_index o packet)
    | OBS_ENCODER_VIDEO => Some packet
    end in
  match resolved with
  | None => None
  | Some packet =>
      let was_started := received_audio o && received_video o in
      let out := packet in
      let '(o, out) :=
        if was_started then (o, apply_interleaved_packet_offset o out)
        else (check_received o packet, out) in
      let o := insert_interleaved_packet o out in
      let o := set_higher_ts o out in
      if received_audio o && received_video o then
        if negb was_started then
          let o := prune_interleaved_packets o in
          match initialize_interleaved_packets o with
          | None => None
          | Some (o, true) =>
              Some (send_interleaved (resort_interleaved_packets o))
          | Some (o, false) => Some (o, [])
          end
        else Some (send_interleaved o)
      else Some (o, [])
  end.

(** The calls of one activation, in order, with everything passed
    downstream. *)
Fixpoint deliver (o : obs_output) (pkts : list encoder_packet)
  : option (obs_output * list encoder_packet) :=
  match pkts with
  | [] => Some (o, [])
  | p :: r =>
      match interleave_packets o p with
      | None => None
      | Some (o1, sent1) =>
          match deliver o1 r with
          | None => None
          | Some (o2, sent2) => Some (o2, sent1 ++ sent2)
          end
      end
  end.

(** The state part of [hook_data_capture]; hooking the encoders or the raw
    media outputs to their callbacks is left to those collaborators.  The
    loop over the audio tracks writes [audio_offsets[0]] each time. *)
Definition hook_data_capture (o : obs_output) (encoded has_video has_audio : bool)
  : obs_output :=
  if encoded then
    let o := set_received_audio o false in
    let o := set_received_video o false in
    let o := set_highest_audio_ts o 0 in
    let o := set_highest_video_ts o 0 in
    let o := set_video_offset o 0 in
    let o :=
      set_audio_offsets o
        (Nat.iter MAX_AUDIO_MIXES (fun offs => array_set offs 0%nat 0)
           (audio_offsets o)) in
    free_packets o
  else o.

(** The callback [hook_data_capture] gives the encoders of an encoded
    output. *)
Inductive encoded_callback_t : Type :=
| cb_interleave_packets
| cb_default_encoded_callback.

Definition hooked_callback (has_video has_audio : bool) : encoded_callback_t :=
  if has_video && has_audio then cb_interleave_packets
  else cb_default_encoded_callback.

(** The state part of [obs_output_end_data_capture]. *)
Definition obs_output_end_data_capture (o : obs_output) : obs_output :=
  if negb (active o) then o else set_active o false.

(** The first line of [reconnect_thread]: how long the thread waits. *)
Definition reconnect_thread_wait_ms (o : obs_output) : Z :=
  reconnect_retry_cur_sec o * 1000.

(** [ret] is what [pthread_create] returns. *)
Definition output_reconnect (ret : Z) (o : obs_output)
  : obs_output * list effect :=
  let o :=
    if negb (reconnecting o) then
      let o := set_reconnect_retry_cur_sec o (reconnect_retry_sec o) in
      set_reconnect_retries o 0
    else o in
  if reconnect_retries o >=? reconnect_retry_max o then
    (set_reconnecting o false, [signal_stop OBS_OUTPUT_DISCONNECTED])
  else
    let o := if negb (reconnecting o) then set_reconnecting o true else o in
    let o :=
      if negb (reconnect_retries o =? 0)
      then set_reconnect_retry_cur_sec o (reconnect_retry_cur_sec o * 2)
      else o in
    let o := set_reconnect_retries o (reconnect_retries o + 1) in
    if ret <? 0 then
      (set_reconnecting o false, [signal_stop OBS_OUTPUT_DISCONNECTED])
    else
      (o, [reconnect_thread_created (reconnect_thread_wait_ms o);
           signal_reconnect (reconnect_retry_cur_sec o)]).

Definition obs_output_signal_stop (ret : Z) (output : option obs_output)
    (code : Z) : option obs_output * list effect :=
  match output with
  | None => (None, [])
  | Some o =>
      let o := obs_output_end_data_capture o in
      if (reconnecting o && negb (code =? OBS_OUTPUT_SUCCESS))
         || (code =? OBS_OUTPUT_DISCONNECTED)
      then let '(o, fx) := output_reconnect ret o in (Some o, fx)
      else (Some o, [signal_stop code])
  end.

End Output.


(** ** Encoded output: encoders, life cycle and the other callbacks
       (obs-output.c) *)

Module Lifecycle.

Import Output.



Definition set_video_encoder (o : obs_output) (x : option nat) : obs_output :=
  {| flags := flags o; service := service o;
     video_encoder := x; audio_encoders := audio_encoders o;
     received_audio := received_audio o; received_video := received_video o;
     highest_audio_ts := highest_audio_ts o;
     highest_video_ts := highest_video_ts o; video_offset := video_offset o;
     audio_offsets := audio_offsets o;
     interleaved_packets := interleaved_packets o;
     total_frames := total_frames o; active := active o;
     stopped := stopped o; reconnecting := reconnecting o;
     reconnect_retry_sec := reconnect_retry_sec o;
     reconnect_retry_max := reconnect_retry_max o;
     reconnect_retries := reconnect_retries o;
     reconnect_retry_cur_sec := reconnect_retry_cur_sec o |}.

Definition set_audio_encoders (o : obs_output) (x : list (option nat))
  : obs_output :=
  {| flags := flags o; service := service o;
     video_encoder := video_encoder o; audio_encoders := x;
     received_audio := received_audio o; received_video := received_video o;
     highest_audio_ts := highest_audio_ts o;
     highest_video_ts := highest_video_ts o; video_offset := video_offset o;
     audio_offsets := audio_offsets o;
     interleaved_packets := interleaved_packets o;
     total_frames := total_frames o; active := active o;
     stopped := stopped o; reconnecting := reconnecting o;
     reconnect_retry_sec := reconnect_retry_sec o;
     reconnect_retry_max := reconnect_retry_max o;
     reconnect_retries := reconnect_retries o;
     reconnect_retry_cur_sec := reconnect_retry_cur_sec o |}.


(** What the output reads of an [obs_encoder_t]: its identity and the type
    in its [info]. *)
Record obs_encoder : Type := {
  encoder_id : nat;
  encoder_type : obs_encoder_type
}.

Definition same_encoder (slot : option nat) (encoder : option obs_encoder)
  : bool :=
  match slot, encoder with
  | None, None => true
  | Some a, Some b => Nat.eqb a (encoder_id b)
  | _, _ => false
  end.

(** The index test shared by the setter and the getter of an audio encoder:
    four slots on a multi-track output, slot 0 otherwise. *)
Definition audio_idx_refused (o : obs_output) (idx : nat) : bool :=
  if has_flag o OBS_OUTPUT_MULTI_TRACK then (MAX_AUDIO_MIXES <=? idx)%nat
  else (0 <? idx)%nat.

(** Registering the output with the encoder ([obs_encoder_add_output],
    [obs_encoder_remove_output]) is left to the encoder. *)
Definition obs_output_set_audio_encoder (output : option obs_output)
    (encoder : option obs_encoder) (idx : nat) : option obs_output :=
  match output with
  | None => None
  | Some o =>
      if match encoder with
         | Some en => negb (type_eqb (encoder_type en) OBS_ENCODER_AUDIO)
         | None => false
         end
      then Some o
      else if audio_idx_refused o idx then Some o
      else if same_encoder (nth idx (audio_encoders o) None) encoder
      then Some o
      else
        Some (set_audio_encoders o
                (array_set (audio_encoders o) idx
                   (option_map encoder_id encoder)))
  end.

Definition obs_output_get_audio_encoder (output : option obs_output)
    (idx : nat) : option nat :=
  match output with
  | None => None
  | Some o =>
      if audio_idx_refused o idx then None
      else nth idx (audio_encoders o) None
  end.

(** The preferred size pushed to the new encoder is the encoder's affair. *)
Definition obs_output_set_video_encoder (output : option obs_output)
    (encoder : option obs_encoder) : option obs_output :=
  match output with
  | None => None
  | Some o =>
      if same_encoder (video_encoder o) encoder then Some o
      else if match encoder with
              | Some en => negb (type_eqb (encoder_type en) OBS_ENCODER_VIDEO)
              | None => false
              end
      then Some o
      else Some (set_video_encoder o (option_map encoder_id encoder))
  end.



(** [obs_output_start]: [started] is what the driver's [start] returns. *)
Definition obs_output_start (started : bool) (output : option obs_output)
  : option obs_output * bool :=
  match output with
  | None => (None, false)
  | Some o => (Some (set_stopped o false), started)
  end.

(** What [obs_output_stop] does besides changing the output. *)
Inductive stop_step : Type :=
| wake_reconnect_thread
| join_reconnect_thread
| driver_stop
| emit (fx : effect).

(** [thread_active] is the flag [reconnect_thread_active]. *)
Definition obs_output_stop (thread_active : bool) (output : option obs_output)
  : option obs_output * list stop_step :=
  match output with
  | None => (None, [])
  | Some o =>
      (Some (set_stopped o true),
       wake_reconnect_thread
       :: (if thread_active then [join_reconnect_thread] else [])
       ++ [driver_stop; emit (signal_stop OBS_OUTPUT_SUCCESS)])
  end.

(** The callback of an encoded output without interleaving.  As for
    [interleave_packets], [None] is the failed assertion. *)
Definition default_encoded_callback (o : obs_output) (packet : encoder_packet)
  : option (obs_output * list encoder_packet) :=
  let resolved :=
    match type packet with
    | OBS_ENCODER_AUDIO =>
        option_map (set_track_idx packet) (get_track_index o packet)
    | OBS_ENCODER_VIDEO => Some packet
    end in
  match resolved with
  | None => None
  | Some packet =>
      let sent := if negb (stopped o) then [packet] else [] in
      let o :=
        match type packet with
        | OBS_ENCODER_VIDEO => set_total_frames o (total_frames o + 1)
        | OBS_ENCODER_AUDIO => o
        end in
      Some (o, sent)
  end.

(** The callback of a raw video output, for any type of frames. *)
Definition default_raw_video_callback {frame_t : Type} (o : obs_output)
    (frame : frame_t) : obs_output * list frame_t :=
  let sent := if negb (stopped o) then [frame] else [] in
  (set_total_frames o (total_frames o + 1), sent).

(** The two pointers of [struct obs_output] to the raw media outputs. *)
Record media : Type := {
  video : option nat;
  audio : option nat
}.

Definition is_null {A} (ptr : option A) : bool :=
  match ptr with
  | None => true
  | Some _ => false
  end.

(** [convert_flags]: the results are [encoded], [has_video], [has_audio] and
    [has_service]. *)
Definition convert_flags (o : obs_output) (fl : Z)
  : bool * bool * bool * bool :=
  let encoded := negb (Z.land (flags o) OBS_OUTPUT_ENCODED =? 0) in
  let fl := if fl =? 0 then flags o else Z.land fl (flags o) in
  (encoded,
   negb (Z.land fl OBS_OUTPUT_VIDEO =? 0),
   negb (Z.land fl OBS_OUTPUT_AUDIO =? 0),
   negb (Z.land fl OBS_OUTPUT_SERVICE =? 0)).

(** The loop of [audio_valid] over the first [n] encoder slots, from slot
    [i] on. *)
Fixpoint slots_filled (slots : list (option nat)) (n i : nat) : bool :=
  match n with
  | O => true
  | S n' =>
      if is_null (nth i slots None) then false
      else slots_filled slots n' (S i)
  end.

Definition audio_valid (o : obs_output) (m : media) (encoded : bool) : bool :=
  if encoded then
    let mix_count := num_audio_mixes o in
    if Nat.eqb mix_count 0 then false
    else slots_filled (audio_encoders o) mix_count 0
  else negb (is_null (audio m)).

Definition can_begin_data_capture (o : obs_output) (m : media)
    (encoded has_video has_audio has_service : bool) : bool :=
  if has_video
     && (if encoded then is_null (video_encoder o) else is_null (video m))
  then false
  else if has_audio && negb (audio_valid o m encoded) then false
  else if has_service && is_null (service o) then false
  else true.

Definition obs_output_can_begin_data_capture (output : option obs_output)
    (m : media) (fl : Z) : bool :=
  match output with
  | None => false
  | Some o =>
      if active o then false
      else
        let '(encoded, has_video, has_audio, has_service) :=
          convert_flags o fl in
        can_begin_data_capture o m encoded has_video has_audio has_service
  end.

(** Starting the encoders and activating the service are left to those
    collaborators. *)
Definition obs_output_begin_data_capture (output : option obs_output)
    (m : media) (fl : Z) : option obs_output * list effect * bool :=
  match output with
  | None => (None, [], false)
  | Some o =>
      if active o then (Some o, [], false)
      else
        let o := set_total_frames o 0 in
        let '(encoded, has_video, has_audio, has_service) :=
          convert_flags o fl in
        if negb (can_begin_data_capture o m encoded has_video has_audio
                   has_service)
        then (Some o, [], false)
        else
          let o := hook_data_capture o encoded has_video has_audio in
          let o := set_active o true in
          if reconnecting o
          then (Some (set_reconnecting o false),
                [signal_reconnect_success], true)
          else (Some o, [signal_start], true)
  end.

End Lifecycle.

(** ** Volume meter: settings and signals (obs-audio-controls.c) *)

Module VolmeterApi.

Import Volmeter.

Definition set_cur_db (v : obs_volmeter) (x : f32) : obs_volmeter :=
  {| cur_db := x; channels := channels v;
     update_ms := update_ms v; update_frames := update_frames v;
     peakhold_ms := peakhold_ms v; peakhold_frames := peakhold_frames v;
     peakhold_count := peakhold_count v;
     ival_frames := ival_frames v; ival_sum := ival_sum v;
     ival_max := ival_max v;
     vol_peak := vol_peak v; vol_mag := vol_mag v; vol_max := vol_max v |}.

Definition set_update_ms (v : obs_volmeter) (x : Z) : obs_volmeter :=
  {| cur_db := cur_db v; channels := channels v;
     update_ms := x; update_frames := update_frames v;
     peakhold_ms := peakhold_ms v; peakhold_frames := peakhold_frames v;
     peakhold_count := peakhold_count v;
     ival_frames := ival_frames v; ival_sum := ival_sum v;
     ival_max := ival_max v;
     vol_peak := vol_peak v; vol_mag := vol_mag v; vol_max := vol_max v |}.

Definition set_peakhold_ms (v : obs_volmeter) (x : Z) : obs_volmeter :=
  {| cur_db := cur_db v; channels := channels v;
     update_ms := update_ms v; update_frames := update_frames v;
     peakhold_ms := x; peakhold_frames := peakhold_frames v;
     peakhold_count := peakhold_count v;
     ival_frames := ival_frames v; ival_sum := ival_sum v;
     ival_max := ival_max v;
     vol_peak := vol_peak v; vol_mag := vol_mag v; vol_max := vol_max v |}.

(** [sr] and [ch] are what the audio output reports when it is asked: its
    sample rate (an [unsigned int]) and its number of channels. *)
Definition volmeter_update_audio_settings (v : obs_volmeter) (sr ch : Z)
  : obs_volmeter :=
  {| cur_db := cur_db v; channels := u32 ch;
     update_ms := update_ms v;
     update_frames := u32 (update_ms v * u32 sr) / 1000;
     peakhold_ms := peakhold_ms v;
     peakhold_frames := u32 (peakhold_ms v * u32 sr) / 1000;
     peakhold_count := peakhold_count v;
     ival_frames := ival_frames v; ival_sum := ival_sum v;
     ival_max := ival_max v;
     vol_peak := vol_peak v; vol_mag := vol_mag v; vol_max := vol_max v |}.

Definition obs_volmeter_set_update_interval (volmeter : option obs_volmeter)
    (ms sr ch : Z) : option obs_volmeter :=
  match volmeter with
  | None => None
  | Some v =>
      if u32 ms =? 0 then Some v
      else
        Some (volmeter_update_audio_settings (set_update_ms v (u32 ms)) sr ch)
  end.

Definition obs_volmeter_get_update_interval (volmeter : option obs_volmeter)
  : Z :=
  match volmeter with
  | None => 0
  | Some v => update_ms v
  end.

Definition obs_volmeter_set_peak_hold (volmeter : option obs_volmeter)
    (ms sr ch : Z) : option obs_volmeter :=
  match volmeter with
  | None => None
  | Some v =>
      Some (volmeter_update_audio_settings (set_peakhold_ms v (u32 ms)) sr ch)
  end.

Definition obs_volmeter_get_peak_hold (volmeter : option obs_volmeter) : Z :=
  match volmeter with
  | None => 0
  | Some v => peakhold_ms v
  end.

(** The zeroed structure [bzalloc] returns. *)
Definition zeroed : obs_volmeter :=
  {| cur_db := F32.zero; channels := 0; update_ms := 0; update_frames := 0;
     peakhold_ms := 0; peakhold_frames := 0; peakhold_count := 0;
     ival_frames := 0; ival_sum := F32.zero; ival_max := F32.zero;
     vol_peak := F32.zero; vol_mag := F32.zero; vol_max := F32.zero |}.

(** [obs_volmeter_create], when its allocations succeed.  The type only
    selects the two conversions, see [db_to_pos]. *)
Definition obs_volmeter_create (ty : Fader.obs_fader_type) (sr ch : Z)
  : option obs_volmeter :=
  let v := obs_volmeter_set_update_interval (Some zeroed) 50 sr ch in
  obs_volmeter_set_peak_hold v 1500 sr ch.

Section WithLibm.

Variable M : libm.

(** The conversion [obs_volmeter_create] stores in [db_to_pos]. *)
Definition db_to_pos (ty : Fader.obs_fader_type) : f32 -> f32 :=
  match ty with
  | Fader.OBS_FADER_CUBIC => Level.cubic_db_to_def M
  | Fader.OBS_FADER_IEC => Level.iec_db_to_def
  | Fader.OBS_FADER_LOG => Level.log_db_to_def M
  end.

Definition volmeter_source_volume_changed (v : obs_volmeter) (mul : f32)
  : obs_volmeter :=
  set_cur_db v (Level.mul_to_db M mul).

(** The parameters of a [levels_updated] signal. *)
Record levels : Type := {
  level : f32;
  magnitude : f32;
  peak : f32;
  muted : bool
}.

(** The handler of the source's "audio_data" signal; [ty] is the type the
    meter was created with and [is_muted] the "muted" parameter of the
    signal.  The result is the meter and the [levels_updated] signal, if one
    is emitted; [None] while the processing loop is still running. *)
Definition volmeter_source_data_received (fuel : nat)
    (ty : Fader.obs_fader_type) (v : obs_volmeter) (d : audio_data)
    (is_muted : bool) : option (obs_volmeter * option levels) :=
  match volmeter_process_audio_data fuel v d with
  | None => None
  | Some r =>
      let v := meter r in
      if updated r then
        let mul := Level.db_to_mul M (cur_db v) in
        let level_ :=
          db_to_pos ty (Level.mul_to_db M (F32.mul (vol_max v) mul)) in
        let mag := db_to_pos ty (Level.mul_to_db M (F32.mul (vol_mag v) mul)) in
        let peak_ :=
          db_to_pos ty (Level.mul_to_db M (F32.mul (vol_peak v) mul)) in
        Some (v, Some {| level := level_; magnitude := mag; peak := peak_;
                         muted := is_muted |})
      else Some (v, None)
  end.

End WithLibm.

(** C's [isfinite]. *)
Definition isfinite (x : f32) : bool :=
  match x with
  | S754_zero _ | S754_finite _ _ _ => true
  | _ => false
  end.

End VolmeterApi.

(** ** Inputs of the examples *)

Abbreviation obs_output := Output.obs_output.
Abbreviation encoder_packet := Output.encoder_packet.
Abbreviation effect := Output.effect.

(** The C library at a few arguments where its result is exact (or is the
    nearest binary32 value); NaN stands for every value the examples do not
    use. *)
Definition libm_points : libm :=
  {| log10f := fun x =>
       if F32.eqb x F32.one then F32.zero
       else if F32.eqb x (F32.of_Z 10) then F32.one
       else if F32.eqb x (F32.of_Z 100) then F32.of_Z 2
       else F32.nan;
     powf := fun b e =>
       if F32.eqb b (F32.of_Z 10) && F32.eqb e F32.zero then F32.one
       else if F32.eqb b (F32.of_Z 10) && F32.eqb e F32.one then F32.of_Z 10
       else if F32.eqb b (F32.of_Z 10) && F32.eqb e (F32.of_Z (-1))
       then F32.lit 1 10
       else F32.nan;
     cbrtf := fun x =>
       if F32.eqb x F32.zero then F32.zero
       else if F32.eqb x F32.one then F32.one
       else if F32.eqb x (F32.of_Z 8) then F32.of_Z 2
       else F32.nan |}.

(** The two conversions of a deflection family meet exactly at both ends. *)
Definition exact_endpoints (def_to_db db_to_def : f32 -> f32) : Prop :=
  def_to_db F32.one = F32.zero
  /\ (forall def, F32.leb def F32.zero = true ->
        def_to_db def = F32.neg_infinity)
  /\ (forall db, F32.eqb db F32.zero = true -> db_to_def db = F32.one)
  /\ db_to_def F32.neg_infinity = F32.zero.

(** Each end of the deflection scale goes to its end of the dB scale and
    back. *)
Definition endpoints_correspond (def_to_db db_to_def : f32 -> f32) : Prop :=
  db_to_def (def_to_db F32.one) = F32.one
  /\ (forall def, F32.leb def F32.zero = true ->
        db_to_def (def_to_db def) = F32.zero)
  /\ def_to_db (db_to_def F32.zero) = F32.zero
  /\ def_to_db (db_to_def F32.neg_infinity) = F32.neg_infinity.

(** A logarithmic fader bound to source 7. *)
Definition log_fader_on_7 : Fader.obs_fader :=
  Fader.set_source (Fader.obs_fader_create libm_points Fader.OBS_FADER_LOG)
    (Some 7%nat).

(** Whether [obs_fader_set_db] has to clamp [db] on fader [f]. *)
Definition must_clamp (f : Fader.obs_fader) (db : f32) : bool :=
  F32.gtb db (Fader.max_db f) || F32.ltb db (Fader.min_db f).

(** A meter with a window of four frames, nothing accumulated, and a buffer
    of ten frames (two and a half windows) on one plane. *)
Definition meter_window_4 : Volmeter.obs_volmeter :=
  {| Volmeter.cur_db := F32.zero; Volmeter.channels := 1;
     Volmeter.update_ms := 50; Volmeter.update_frames := 4;
     Volmeter.peakhold_ms := 1500; Volmeter.peakhold_frames := 120;
     Volmeter.peakhold_count := 0; Volmeter.ival_frames := 0;
     Volmeter.ival_sum := F32.zero; Volmeter.ival_max := F32.zero;
     Volmeter.vol_peak := F32.zero; Volmeter.vol_mag := F32.zero;
     Volmeter.vol_max := F32.zero |}.

Definition ten_frames : Volmeter.audio_data :=
  {| Volmeter.data := [Some (repeat F32.one 10)]; Volmeter.frames := 10 |}.

(** The RMS of the window being finalized. *)
Definition window_rms (v : Volmeter.obs_volmeter) : f32 :=
  F32.sqrt
    (F32.div (Volmeter.ival_sum v)
       (F32.of_Z (u32 (Volmeter.ival_frames v * Volmeter.channels v)))).

(** The magnitude update as the specification words it: the decay branch of
    the filter of the published max, applied to the window RMS. *)
Definition spec_magnitude (v : Volmeter.obs_volmeter) : f32 :=
  F32.add (F32.mul Volmeter.alpha (Volmeter.vol_mag v))
    (F32.mul (F32.sub F32.one Volmeter.alpha) (window_rms v)).

(** A full window of one frame of amplitude 1 on one channel, over a
    published magnitude of 0. *)
Definition meter_unit_window : Volmeter.obs_volmeter :=
  {| Volmeter.cur_db := F32.zero; Volmeter.channels := 1;
     Volmeter.update_ms := 50; Volmeter.update_frames := 1;
     Volmeter.peakhold_ms := 1500; Volmeter.peakhold_frames := 30;
     Volmeter.peakhold_count := 0; Volmeter.ival_frames := 1;
     Volmeter.ival_sum := F32.one; Volmeter.ival_max := F32.one;
     Volmeter.vol_peak := F32.zero; Volmeter.vol_mag := F32.zero;
     Volmeter.vol_max := F32.zero |}.

(** One failure of an output: the driver reports a disconnect and
    [pthread_create] succeeds (returns 0). *)
Definition fail (o : obs_output) : obs_output * list effect :=
  match Output.obs_output_signal_stop 0 (Some o) Output.OBS_OUTPUT_DISCONNECTED
  with
  | (Some o', fx) => (o', fx)
  | (None, fx) => (o, fx)
  end.

(** The output after [n] failures in a row, each retry having failed. *)
Fixpoint after_failures (n : nat) (o : obs_output) : obs_output :=
  match n with
  | O => o
  | S n' => fst (fail (after_failures n' o))
  end.

(** A freshly created output whose data capture is active. *)
Definition streaming (info_flags : Z) : obs_output :=
  Output.set_active (Output.obs_output_create info_flags) true.

(** The capabilities of an encoded output with video and audio. *)
Definition av_encoded : Z :=
  Z.lor (Z.lor Output.OBS_OUTPUT_VIDEO Output.OBS_OUTPUT_AUDIO)
    Output.OBS_OUTPUT_ENCODED.

(** A two-track encoded output: video encoder 0, audio encoders 1 and 2. *)
Definition two_track_output : obs_output :=
  {| Output.flags := Z.lor av_encoded Output.OBS_OUTPUT_MULTI_TRACK;
     Output.service := None;
     Output.video_encoder := Some 0%nat;
     Output.audio_encoders := [Some 1%nat; Some 2%nat; None; None];
     Output.received_audio := false; Output.received_video := false;
     Output.highest_audio_ts := 0; Output.highest_video_ts := 0;
     Output.video_offset := 0; Output.audio_offsets := [0; 0; 0; 0];
     Output.interleaved_packets := []; Output.total_frames := 0;
     Output.active := false; Output.stopped := false;
     Output.reconnecting := false;
     Output.reconnect_retry_sec := 2; Output.reconnect_retry_max := 20;
     Output.reconnect_retries := 0; Output.reconnect_retry_cur_sec := 0 |}.

(** A single-track encoded output: video encoder 0, audio encoder 1. *)
Definition one_track_output : obs_output :=
  {| Output.flags := av_encoded; Output.service := None;
     Output.video_encoder := Some 0%nat;
     Output.audio_encoders := [Some 1%nat; None; None; None];
     Output.received_audio := false; Output.received_video := false;
     Output.highest_audio_ts := 0; Output.highest_video_ts := 0;
     Output.video_offset := 0; Output.audio_offsets := [0; 0; 0; 0];
     Output.interleaved_packets := []; Output.total_frames := 0;
     Output.active := false; Output.stopped := false;
     Output.reconnecting := false;
     Output.reconnect_retry_sec := 2; Output.reconnect_retry_max := 20;
     Output.reconnect_retries := 0; Output.reconnect_retry_cur_sec := 0 |}.

(** A packet with a microsecond timebase, as its encoder hands it over:
    [usec] is the microsecond timestamp the encoder stamped on it. *)
Definition packet (ty : Output.obs_encoder_type) (enc : nat) (d usec : Z)
  : encoder_packet :=
  {| Output.pts := d; Output.dts := d; Output.timebase_den := 1000000;
     Output.type := ty; Output.dts_usec := usec; Output.track_idx := 0;
     Output.encoder := enc |}.

Definition video_packet (d : Z) : encoder_packet :=
  packet Output.OBS_ENCODER_VIDEO 0 d d.

(** Packets of the two audio tracks; the encoder of track 1 is at decode
    timestamp 1000 when the activation starts. *)
Definition audio_packet (d : Z) : encoder_packet :=
  packet Output.OBS_ENCODER_AUDIO 1 d d.

Definition audio2_packet (d : Z) : encoder_packet :=
  packet Output.OBS_ENCODER_AUDIO 2 d d.

(** Every stream in decode order, on two audio tracks. *)
Definition two_track_arrivals : list encoder_packet :=
  [video_packet 0; audio_packet 0; audio2_packet 1000; video_packet 33;
   video_packet 66; video_packet 100; audio_packet 23].

(** One audio track; the video packet of timestamp 5 arrives after the one
    of timestamp 10. *)
Definition late_video_arrivals : list encoder_packet :=
  [video_packet 0; audio_packet 0; video_packet 10; audio_packet 20;
   audio_packet 30; audio_packet 40; video_packet 5].

(** The timestamps a run passed downstream. *)
Definition sent_usec (r : option (obs_output * list encoder_packet)) : list Z :=
  match r with
  | Some (_, sent) => map Output.dts_usec sent
  | None => []
  end.

(** The effects of the next failure of [o]. *)
Definition next_failure (o : obs_output) : list effect := snd (fail o).

(** Timestamps that never decrease. *)
Fixpoint non_decreasing (l : list Z) : bool :=
  match l with
  | x :: (y :: _) as r => (x <=? y) && non_decreasing r
  | _ => true
  end.

(** The state an output is in when its two-track activation above has
    received its seven packets. *)
Definition two_track_output_after : obs_output :=
  match
    Output.deliver (Output.hook_data_capture two_track_output true true true)
      two_track_arrivals
  with
  | Some (o, _) => o
  | None => two_track_output
  end.

(** ** Streams as the encoders produce them *)

(** The clock of one encoder: the timebase denominator of its packets and
    the microsecond time of its decode timestamp 0. *)
Record stream_clock : Type := {
  den : Z;
  base_usec : Z
}.

(** The packet carries the timebase of its stream, and a microsecond
    timestamp that is its decode timestamp on the clock of the stream and is
    not negative. *)
Definition stamped (c : stream_clock) (p : encoder_packet) : bool :=
  (Output.timebase_den p =? den c)
  && (Output.dts_usec p =? base_usec c + Output.packet_dts_usec p)
  && (0 <=? Output.dts_usec p).

Definition not_before (last : option Z) (d : Z) : bool :=
  match last with
  | None => true
  | Some l => l <=? d
  end.

(** The arrivals of an activation with one video and one audio stream, in
    any interleaving: every packet is stamped by the clock of its stream,
    every audio packet comes from encoder [e], and within each stream the
    decode timestamps never decrease ([lv] and [la] are the last decode
    timestamps seen so far). *)
Fixpoint in_order (cv ca : stream_clock) (e : nat) (lv la : option Z)
    (pkts : list encoder_packet) : bool :=
  match pkts with
  | [] => true
  | p :: r =>
      match Output.type p with
      | Output.OBS_ENCODER_VIDEO =>
          stamped cv p && not_before lv (Output.dts p)
          && in_order cv ca e (Some (Output.dts p)) la r
      | Output.OBS_ENCODER_AUDIO =>
          Nat.eqb (Output.encoder p) e
          && stamped ca p && not_before la (Output.dts p)
          && in_order cv ca e lv (Some (Output.dts p)) r
      end
  end.

(** An output with one audio mix whose encoder, in slot 0, is [e]. *)
Definition single_track (o : obs_output) (e : nat) : Prop :=
  Output.num_audio_mixes o = 1%nat
  /\ (exists slots, Output.audio_encoders o = Some e :: slots)
  /\ length (Output.audio_offsets o) = Output.MAX_AUDIO_MIXES.

(** The packet of decode timestamp [d] as the encoder [enc] of a stream
    with clock [c] hands it over. *)
Definition encoded (c : stream_clock) (ty : Output.obs_encoder_type)
    (enc : nat) (d : Z) : encoder_packet :=
  {| Output.pts := d; Output.dts := d; Output.timebase_den := den c;
     Output.type := ty;
     Output.dts_usec := base_usec c + Z.quot (d * Output.MICROSECOND_DEN) (den c);
     Output.track_idx := 0; Output.encoder := enc |}.

(** A 30 fps video stream and a 44.1 kHz audio stream (1024 samples per
    packet), started 100 microseconds apart. *)
Definition video_30fps : stream_clock := {| den := 30; base_usec := 5000000 |}.
Definition audio_44k : stream_clock := {| den := 44100; base_usec := 5000100 |}.

(** Video (with two frames of decode delay) and audio, each in decode order,
    audio running ahead at first. *)
Definition in_order_arrivals : list encoder_packet :=
  [encoded audio_44k Output.OBS_ENCODER_AUDIO 1 0;
   encoded audio_44k Output.OBS_ENCODER_AUDIO 1 1024;
   encoded video_30fps Output.OBS_ENCODER_VIDEO 0 (-2);
   encoded video_30fps Output.OBS_ENCODER_VIDEO 0 (-1);
   encoded audio_44k Output.OBS_ENCODER_AUDIO 1 2048;
   encoded audio_44k Output.OBS_ENCODER_AUDIO 1 3072;
   encoded video_30fps Output.OBS_ENCODER_VIDEO 0 0;
   encoded audio_44k Output.OBS_ENCODER_AUDIO 1 4096;
   encoded video_30fps Output.OBS_ENCODER_VIDEO 0 1;
   encoded video_30fps Output.OBS_ENCODER_VIDEO 0 2;
   encoded audio_44k Output.OBS_ENCODER_AUDIO 1 5120;
   encoded audio_44k Output.OBS_ENCODER_AUDIO 1 6144;
   encoded video_30fps Output.OBS_ENCODER_VIDEO 0 3].

(** Two streams in decode order whose microsecond timestamps are negative
    (a clock that starts 100 microseconds before 0). *)
Definition early_clock : stream_clock := {| den := 1000000; base_usec := -100 |}.

Definition negative_stamp_arrivals : list encoder_packet :=
  [encoded early_clock Output.OBS_ENCODER_VIDEO 0 0;
   encoded early_clock Output.OBS_ENCODER_AUDIO 1 0;
   encoded early_clock Output.OBS_ENCODER_VIDEO 0 50;
   encoded early_clock Output.OBS_ENCODER_VIDEO 0 60;
   encoded early_clock Output.OBS_ENCODER_AUDIO 1 10].




(** A meter created while the audio output reports no sample rate. *)
Definition meter_no_audio : Volmeter.obs_volmeter :=
  match VolmeterApi.obs_volmeter_create Fader.OBS_FADER_LOG 0 0 with
  | Some v => v
  | None => VolmeterApi.zeroed
  end.

(** The single-track output of the examples, streaming, after three
    failures in a row: it is waiting to reconnect. *)
Definition reconnecting_output : obs_output :=
  after_failures 3 (Output.set_active one_track_output true).

(** No raw media output is attached to an encoded output. *)
Definition no_media : Lifecycle.media :=
  {| Lifecycle.video := None; Lifecycle.audio := None |}.

(** Audio encoder 5. *)
Definition audio_encoder_5 : Lifecycle.obs_encoder :=
  {| Lifecycle.encoder_id := 5; Lifecycle.encoder_type := Output.OBS_ENCODER_AUDIO |}.

(** What the interleaver leaves alone: the capabilities, the service, the
    encoders and the life-cycle flags of the output. *)
Definition same_setup (o o' : obs_output) : Prop :=
  Output.flags o' = Output.flags o
  /\ Output.service o' = Output.service o
  /\ Output.video_encoder o' = Output.video_encoder o
  /\ Output.audio_encoders o' = Output.audio_encoders o
  /\ Output.stopped o' = Output.stopped o
  /\ Output.active o' = Output.active o
  /\ Output.reconnecting o' = Output.reconnecting o.

(** What every step of the interleaver but the sending leaves alone: the
    above and the frame count. *)
Definition kept (o o' : obs_output) : Prop :=
  same_setup o o' /\ Output.total_frames o' = Output.total_frames o.

(** The video packets among the packets passed on. *)
Definition video_count (sent : list encoder_packet) : Z :=
  Z.of_nat
    (length
       (filter (fun s => Output.type_eqb (Output.type s) Output.OBS_ENCODER_VIDEO)
          sent)).

(** The packet an encoded callback works on: an audio packet gets the index
    of its track. *)
Definition with_track_index (o : obs_output) (p : encoder_packet)
  : option encoder_packet :=
  match Output.type p with
  | Output.OBS_ENCODER_AUDIO =>
      option_map (Output.set_track_idx p) (Output.get_track_index o p)
  | Output.OBS_ENCODER_VIDEO => Some p
  end.

(** The encoder of the packet is the video encoder's affair, or is held by
    one of the four audio slots of the output. *)
Definition from_known_encoder (o : obs_output) (p : encoder_packet) : Prop :=
  Output.type p = Output.OBS_ENCODER_AUDIO ->
  In (Some (Output.encoder p))
     (firstn Output.MAX_AUDIO_MIXES (Output.audio_encoders o)).

(** The single-track output of the examples once both streams are received:
    after the video packets of timestamps 0 and 33 and the audio packet of
    timestamp 0. *)
Definition started_output : obs_output :=
  match
    Output.deliver (Output.hook_data_capture one_track_output true true true)
      [video_packet 0; audio_packet 0; video_packet 33]
  with
  | Some (o, _) => o
  | None => one_track_output
  end.


(** * Properties *)

(** ** Comparisons of binary32 values *)

Lemma SFcompare_refl (x : f32) :
  F32.is_nan x = false -> SFcompare x x = Some Eq.
Proof.
  destruct x as [s|s| |s m e]; simpl; try discriminate; intros _.
  - reflexivity.
  - destruct s; reflexivity.
  - rewrite Z.compare_refl, Pos.compare_cont_refl. destruct s; reflexivity.
Qed.

Lemma SFcompare_antisym (x y : f32) :
  SFcompare y x = option_map CompOpp (SFcompare x y).
Proof.
  destruct x as [s1|s1| |s1 m1 e1], y as [s2|s2| |s2 m2 e2]; simpl;
    try reflexivity;
    try (destruct s1; reflexivity);
    try (destruct s2; reflexivity);
    try (destruct s1, s2; reflexivity).
  rewrite (Z.compare_antisym e1 e2).
  pose proof (Pos.compare_cont_antisym m1 m2 Eq) as H; simpl in H.
  rewrite <- H.
  destruct s1, s2; simpl; try reflexivity;
    destruct (e1 ?= e2); simpl; try reflexivity;
    destruct (Pos.compare_cont Eq m1 m2); reflexivity.
Qed.

Lemma SFcompare_some (x y : f32) :
  F32.is_nan x = false -> F32.is_nan y = false ->
  exists c, SFcompare x y = Some c.
Proof.
  destruct x as [s1|s1| |s1 m1 e1], y as [s2|s2| |s2 m2 e2]; simpl;
    try discriminate; intros _ _; eexists; reflexivity.
Qed.

(** For numbers, [not (y < x)] is [x <= y]. *)
Lemma not_ltb_leb (x y : f32) :
  F32.is_nan x = false -> F32.is_nan y = false ->
  F32.ltb y x = false -> F32.leb x y = true.
Proof.
  intros Hx Hy. unfold F32.ltb, F32.leb, SFltb, SFleb.
  rewrite (SFcompare_antisym x y).
  destruct (SFcompare_some x y Hx Hy) as [c ->]. simpl.
  destruct c; simpl; congruence.
Qed.

Lemma leb_refl (x : f32) : F32.is_nan x = false -> F32.leb x x = true.
Proof.
  intros Hx. unfold F32.leb, SFleb. now rewrite SFcompare_refl.
Qed.

Lemma leb_zero_not_one (x : f32) : F32.leb x F32.zero = true -> F32.eqb x F32.one = false.
Proof.
  destruct x as [s|s| |s m e]; simpl; try reflexivity; try discriminate.
  - destruct s; [reflexivity | discriminate].
  - destruct s; [reflexivity | discriminate].
Qed.

Lemma leb_zero_not_geb_one (x : f32) :
  F32.leb x F32.zero = true -> F32.geb x F32.one = false.
Proof.
  destruct x as [s|s| |s m e]; simpl; try reflexivity; try discriminate.
  - destruct s; [reflexivity | discriminate].
  - destruct s; [reflexivity | discriminate].
Qed.

Lemma eqb_zero_geb_zero (x : f32) :
  F32.eqb x F32.zero = true -> F32.geb x F32.zero = true.
Proof.
  destruct x as [s|s| |s m e]; simpl; try reflexivity; try discriminate.
  - destruct s; discriminate.
  - destruct s; discriminate.
Qed.

(** ** Level math *)

Section LevelFacts.

Variable M : libm.

Lemma cubic_endpoints :
  exact_endpoints (Level.cubic_def_to_db M) (Level.cubic_db_to_def M).
Proof.
  repeat split.
  - intros def Hle. unfold Level.cubic_def_to_db.
    now rewrite (leb_zero_not_one def Hle), Hle.
  - intros db Hz. unfold Level.cubic_db_to_def. now rewrite Hz.
Qed.

Lemma iec_endpoints :
  exact_endpoints Level.iec_def_to_db Level.iec_db_to_def.
Proof.
  repeat split.
  - intros def Hle. unfold Level.iec_def_to_db.
    now rewrite (leb_zero_not_one def Hle), Hle.
  - intros db Hz. unfold Level.iec_db_to_def. now rewrite Hz.
Qed.

Lemma log_endpoints :
  exact_endpoints (Level.log_def_to_db M) (Level.log_db_to_def M).
Proof.
  repeat split.
  - intros def Hle. unfold Level.log_def_to_db.
    now rewrite (leb_zero_not_geb_one def Hle), Hle.
  - intros db Hz. unfold Level.log_db_to_def.
    now rewrite (eqb_zero_geb_zero db Hz).
Qed.

Lemma exact_endpoints_correspond (def_to_db db_to_def : f32 -> f32) :
  exact_endpoints def_to_db db_to_def ->
  endpoints_correspond def_to_db db_to_def.
Proof.
  intros (H1 & Hle & Hz & Hinf). unfold endpoints_correspond.
  rewrite H1, Hinf, (Hz F32.zero eq_refl), H1, (Hle F32.zero eq_refl).
  split; [reflexivity | split; [ | split; reflexivity]].
  intros def Hdef. now rewrite (Hle def Hdef).
Qed.

(** C9.  For the cubic, the segmented (IEC) and the logarithmic family:
    deflection 1 converts to exactly 0 dB, every deflection at or below 0
    converts to exactly minus infinity, 0 dB converts to exactly deflection
    1, and minus infinity converts to exactly deflection 0; so deflection 1
    and 0 dB, and deflection 0 (or less) and minus infinity, correspond in
    both directions. *)
Theorem deflection_families_exact_endpoints :
  (exact_endpoints (Level.cubic_def_to_db M) (Level.cubic_db_to_def M)
   /\ endpoints_correspond (Level.cubic_def_to_db M) (Level.cubic_db_to_def M))
  /\ (exact_endpoints Level.iec_def_to_db Level.iec_db_to_def
      /\ endpoints_correspond Level.iec_def_to_db Level.iec_db_to_def)
  /\ (exact_endpoints (Level.log_def_to_db M) (Level.log_db_to_def M)
      /\ endpoints_correspond (Level.log_def_to_db M) (Level.log_db_to_def M)).
Proof.
  pose proof cubic_endpoints as Hc.
  pose proof iec_endpoints as Hi.
  pose proof log_endpoints as Hl.
  split; [ | split]; (split; [ | apply exact_endpoints_correspond]); assumption.
Qed.

End LevelFacts.

(** The endpoints seen from both sides, for a deflection of -5 and the
    tabulated library. *)
Lemma deflection_families_exact_endpoints_witness :
  F32.leb (F32.of_Z (-5)) F32.zero = true
  /\ Level.cubic_def_to_db libm_points (F32.of_Z (-5)) = F32.neg_infinity
  /\ Level.iec_def_to_db (F32.of_Z (-5)) = F32.neg_infinity
  /\ Level.log_def_to_db libm_points (F32.of_Z (-5)) = F32.neg_infinity
  /\ Level.log_db_to_def libm_points F32.neg_zero = F32.one.
Proof.
  pose proof (deflection_families_exact_endpoints libm_points)
    as [[[_ [Hc _]] _] [[[_ [Hi _]] _] [[_ [Hl [Hz _]]] _]]].
  assert (H5 : F32.leb (F32.of_Z (-5)) F32.zero = true) by reflexivity.
  split; [exact H5 | split; [exact (Hc _ H5) | split; [exact (Hi _ H5) | ] ] ].
  split; [exact (Hl _ H5) | apply Hz; reflexivity].
Defined.

(** ** Fader control *)

Section FaderFacts.

Variable M : libm.

(** The clamping of [obs_fader_set_db] in closed form. *)
Lemma set_db_stored (f : Fader.obs_fader) (db : f32) :
  F32.ltb (Fader.max_db f) (Fader.min_db f) = false ->
  exists f',
    Fader.fader_after (Fader.obs_fader_set_db M (Some f) db) = Some f'
    /\ Fader.cur_db f' =
         (if F32.gtb db (Fader.max_db f) then Fader.max_db f
          else if F32.ltb db (Fader.min_db f) then F32.neg_infinity
          else db)
    /\ Fader.min_db f' = Fader.min_db f
    /\ Fader.max_db f' = Fader.max_db f
    /\ Fader.source f' = Fader.source f
    /\ Fader.ignore_next_signal f' = true.
Proof.
  intros Hord. unfold Fader.obs_fader_set_db. cbn [Fader.set_cur_db
    Fader.cur_db Fader.max_db Fader.min_db].
  destruct (F32.gtb db (Fader.max_db f)) eqn:Hgt;
    cbn [Fader.set_cur_db Fader.cur_db Fader.max_db Fader.min_db].
  - rewrite Hord. eexists; split; [reflexivity | ]. cbn. auto.
  - destruct (F32.ltb db (Fader.min_db f)) eqn:Hlt;
      (eexists; split; [reflexivity | ]); cbn; auto.
Qed.

(** C3 (as amended).  On a fader whose [max_db] is not below its [min_db],
    [obs_fader_set_db] stores [max_db] for a value above [max_db], minus
    infinity for a value below [min_db] and any other value unchanged; it
    marks the next notification as its own, passes the linear gain of the
    stored value to the bound source, and returns [true] exactly when it did
    not clamp. *)
Theorem set_db_clamps_and_reports (f : Fader.obs_fader) (db : f32) :
  F32.ltb (Fader.max_db f) (Fader.min_db f) = false ->
  let r := Fader.obs_fader_set_db M (Some f) db in
  exists f',
    Fader.fader_after r = Some f'
    /\ Fader.cur_db f' =
         (if F32.gtb db (Fader.max_db f) then Fader.max_db f
          else if F32.ltb db (Fader.min_db f) then F32.neg_infinity
          else db)
    /\ Fader.ignore_next_signal f' = true
    /\ Fader.set_volume r =
         option_map (fun s => (s, Level.db_to_mul M (Fader.cur_db f')))
           (Fader.source f)
    /\ Fader.volume_changed r = None
    /\ Fader.returned r = negb (must_clamp f db).
Proof.
  intros Hord r.
  destruct (set_db_stored f db Hord) as (f' & Hf' & Hcur & _ & _ & _ & Hign).
  exists f'. split; [exact Hf' | split; [exact Hcur | split; [exact Hign | ]]].
  subst r. revert Hf'. unfold Fader.obs_fader_set_db, must_clamp.
  cbn [Fader.set_cur_db Fader.cur_db Fader.max_db Fader.min_db].
  destruct (F32.gtb db (Fader.max_db f)) eqn:Hgt;
    cbn [Fader.set_cur_db Fader.cur_db Fader.max_db Fader.min_db].
  - rewrite Hord. cbn. intros [= <-]. cbn. auto.
  - destruct (F32.ltb db (Fader.min_db f)) eqn:Hlt; cbn;
      intros [= <-]; cbn; auto.
Qed.

(** Every fader [obs_fader_create] makes has ordered bounds, and no function
    of the fader changes them. *)
Lemma created_bounds_ordered (ty : Fader.obs_fader_type) :
  Fader.bounds_ordered (Fader.obs_fader_create M ty).
Proof. destruct ty; repeat split. Qed.

(** The range invariant after [obs_fader_set_db] with a number. *)
Lemma set_db_in_range (f : Fader.obs_fader) (db : f32) :
  Fader.bounds_ordered f -> F32.is_nan db = false ->
  Fader.in_range
    (Fader.after (Fader.obs_fader_set_db M (Some f) db) f) = true.
Proof.
  intros (Hmin & Hmax & Hord) Hdb.
  destruct (set_db_stored f db Hord) as (f' & Hf' & Hcur & Hmn & Hmx & _).
  unfold Fader.after. rewrite Hf'. unfold Fader.in_range.
  rewrite Hcur, Hmn, Hmx.
  destruct (F32.gtb db (Fader.max_db f)) eqn:Hgt.
  - rewrite (not_ltb_leb _ _ Hmin Hmax Hord), (leb_refl _ Hmax). reflexivity.
  - destruct (F32.ltb db (Fader.min_db f)) eqn:Hlt.
    + apply orb_true_r.
    + rewrite (not_ltb_leb _ _ Hmin Hdb Hlt), (not_ltb_leb _ _ Hdb Hmax Hgt).
      reflexivity.
Qed.

(** C8 (as amended).  On a fader with ordered bounds, [obs_fader_set_db]
    with a number, and [obs_fader_set_deflection] and [obs_fader_set_mul]
    when the converted value is a number, leave [min_db <= cur_db <= max_db]
    or [cur_db] at minus infinity; [obs_fader_attach_source] and a
    notification that is not the fader's own store the dB value of the
    source's gain as it is, without clamping. *)
Theorem fader_range_after_mutation (f : Fader.obs_fader) :
  Fader.bounds_ordered f ->
  (forall db, F32.is_nan db = false ->
     Fader.in_range
       (Fader.after (Fader.obs_fader_set_db M (Some f) db) f) = true)
  /\ (forall def, F32.is_nan (Fader.def_to_db f def) = false ->
        Fader.in_range
          (Fader.after (Fader.obs_fader_set_deflection M (Some f) def) f)
        = true)
  /\ (forall mul, F32.is_nan (Level.mul_to_db M mul) = false ->
        Fader.in_range
          (Fader.after (Fader.obs_fader_set_mul M (Some f) mul) f) = true)
  /\ (forall s,
        Fader.cur_db
          (Fader.after (Fader.obs_fader_attach_source M (Some f) (Some s)) f)
        = Level.mul_to_db M (Fader.user_volume s))
  /\ (forall mul, Fader.ignore_next_signal f = false ->
        Fader.cur_db
          (Fader.after (Fader.fader_source_volume_changed M f mul) f)
        = Level.mul_to_db M mul).
Proof.
  intros Hb. repeat apply conj.
  - intros db Hdb. now apply set_db_in_range.
  - intros def Hdef. now apply set_db_in_range.
  - intros mul Hmul. now apply set_db_in_range.
  - intros s. reflexivity.
  - intros mul Hign. unfold Fader.fader_source_volume_changed.
    rewrite Hign. reflexivity.
Qed.

(** Whatever the C library, once [log10f 10] is 1 a gain of 10 reported by
    the source puts a logarithmic fader 20 dB above its [max_db]. *)
Lemma volume_changed_above_max :
  log10f M (F32.of_Z 10) = F32.one ->
  let f := Fader.obs_fader_create M Fader.OBS_FADER_LOG in
  let f' := Fader.after (Fader.fader_source_volume_changed M f (F32.of_Z 10)) f in
  Fader.cur_db f' = F32.of_Z 20 /\ Fader.in_range f' = false.
Proof.
  intros H10 f f'. subst f f'.
  unfold Fader.fader_source_volume_changed, Fader.obs_fader_create.
  cbn [Fader.ignore_next_signal Fader.after Fader.fader_after
       Fader.set_cur_db Fader.cur_db].
  unfold Level.mul_to_db.
  change (F32.eqb (F32.of_Z 10) F32.zero) with false. cbv iota.
  rewrite H10. split; reflexivity.
Qed.

End FaderFacts.

Lemma set_db_clamps_and_reports_witness :
  F32.ltb (Fader.max_db log_fader_on_7) (Fader.min_db log_fader_on_7) = false
  /\ exists f',
       Fader.fader_after
         (Fader.obs_fader_set_db libm_points (Some log_fader_on_7)
            (F32.of_Z (-100))) = Some f'
       /\ Fader.cur_db f' = F32.neg_infinity
       /\ Fader.set_volume
            (Fader.obs_fader_set_db libm_points (Some log_fader_on_7)
               (F32.of_Z (-100))) = Some (7%nat, F32.zero)
       /\ Fader.returned
            (Fader.obs_fader_set_db libm_points (Some log_fader_on_7)
               (F32.of_Z (-100))) = false.
Proof.
  assert (H : F32.ltb (Fader.max_db log_fader_on_7)
                (Fader.min_db log_fader_on_7) = false) by reflexivity.
  split; [exact H | ].
  destruct (set_db_clamps_and_reports libm_points log_fader_on_7
              (F32.of_Z (-100)) H) as (f' & Hf & Hc & _ & Hv & _ & Hr).
  exists f'. split; [exact Hf | split; [exact Hc | ] ].
  split; [ | exact Hr]. rewrite Hv, Hc. reflexivity.
Defined.

(** C3 (as stated) fails: 5 dB on a logarithmic fader is clamped to 0 dB,
    and the call returns [false]. *)
Lemma set_db_returns_false_when_clamping :
  let r := Fader.obs_fader_set_db libm_points (Some log_fader_on_7)
             (F32.of_Z 5) in
  must_clamp log_fader_on_7 (F32.of_Z 5) = true
  /\ Fader.cur_db (Fader.after r log_fader_on_7) = F32.zero
  /\ Fader.set_volume r = Some (7%nat, F32.one)
  /\ Fader.returned r = false.
Proof. cbv zeta. repeat split. Qed.

(** C8 (as stated) fails: a source gain of 10 (+20 dB) reported to a
    logarithmic fader is stored as 20 dB, above [max_db = 0]. *)
Lemma volume_changed_leaves_range :
  let f := Fader.obs_fader_create libm_points Fader.OBS_FADER_LOG in
  let f' :=
    Fader.after
      (Fader.fader_source_volume_changed libm_points f (F32.of_Z 10)) f in
  Fader.ignore_next_signal f = false
  /\ Fader.max_db f' = F32.zero
  /\ Fader.cur_db f' = F32.of_Z 20
  /\ Fader.in_range f' = false.
Proof.
  cbv zeta.
  destruct (volume_changed_above_max libm_points eq_refl) as [Hc Hr].
  split; [reflexivity | split; [reflexivity | split; [exact Hc | exact Hr]]].
Qed.

Lemma fader_range_after_mutation_witness :
  Fader.bounds_ordered log_fader_on_7
  /\ Fader.in_range
       (Fader.after
          (Fader.obs_fader_set_db libm_points (Some log_fader_on_7)
             (F32.of_Z (-100))) log_fader_on_7) = true
  /\ Fader.in_range
       (Fader.after
          (Fader.obs_fader_set_deflection libm_points (Some log_fader_on_7)
             (F32.of_Z 2)) log_fader_on_7) = true.
Proof.
  assert (Hb : Fader.bounds_ordered log_fader_on_7)
    by (repeat split; reflexivity).
  destruct (fader_range_after_mutation libm_points log_fader_on_7 Hb)
    as (Hdb & Hdef & _).
  split; [exact Hb | split].
  - apply Hdb. reflexivity.
  - apply Hdef. reflexivity.
Defined.

(** ** Volume meter *)

Lemma u32_small (n : Z) : 0 <= n < 4294967296 -> u32 n = n.
Proof. intros H. unfold u32. apply Z.mod_small. exact H. Qed.

Lemma usize_small (n : Z) : 0 <= n < 18446744073709551616 -> usize n = n.
Proof. intros H. unfold usize. apply Z.mod_small. exact H. Qed.

Lemma process_loop_done fuel v adata upd log :
  Volmeter.process_loop fuel v adata 0 upd log
  = Some {| Volmeter.meter := v; Volmeter.updated := upd;
            Volmeter.finalized := log |}.
Proof. destruct fuel; reflexivity. Qed.

Lemma calc_resets_window (v : Volmeter.obs_volmeter) :
  Volmeter.ival_frames (Volmeter.volmeter_calc_ival_levels v) = 0
  /\ Volmeter.update_frames (Volmeter.volmeter_calc_ival_levels v)
     = Volmeter.update_frames v.
Proof.
  unfold Volmeter.volmeter_calc_ival_levels.
  destruct (_ || _); split; reflexivity.
Qed.

(** The loop invariant: from [a < W] accumulated frames and [left] frames to
    go, the loop finalizes [(a + left) / W] windows and keeps the rest. *)
Lemma process_loop_windows :
  forall fuel v adata left upd log,
    0 <= Volmeter.ival_frames v < Volmeter.update_frames v ->
    Volmeter.update_frames v < 4294967296 ->
    0 <= left ->
    Volmeter.ival_frames v + left < 18446744073709551616 ->
    (Z.to_nat left < fuel)%nat ->
    exists r,
      Volmeter.process_loop fuel v adata left upd log = Some r
      /\ Volmeter.finalized r =
           log ++ repeat (Volmeter.update_frames v)
                    (Z.to_nat ((Volmeter.ival_frames v + left)
                               / Volmeter.update_frames v))
      /\ Volmeter.ival_frames (Volmeter.meter r) =
           (Volmeter.ival_frames v + left) mod Volmeter.update_frames v
      /\ Volmeter.updated r =
           upd || (0 <? (Volmeter.ival_frames v + left)
                        / Volmeter.update_frames v)
      /\ Volmeter.update_frames (Volmeter.meter r) = Volmeter.update_frames v.
Proof.
  induction fuel as [|fuel IH]; intros v adata left upd log Ha HW Hl Hsz Hfuel;
    [lia | ].
  set (a := Volmeter.ival_frames v) in *.
  set (W := Volmeter.update_frames v) in *.
  cbn [Volmeter.process_loop].
  destruct (Z.eqb_spec left 0) as [-> | Hne].
  { eexists; split; [reflexivity | ]. cbn.
    rewrite Z.add_0_r, (Z.div_small a W), (Z.mod_small a W) by lia.
    cbn. rewrite app_nil_r, orb_false_r. auto. }
  fold a W. rewrite (usize_small (a + left)) by lia.
  destruct (Z.gtb_spec (a + left) W) as [Hgt | Hle].
  - (* the window fills up and frames remain *)
    rewrite (u32_small (W - a)) by lia.
    destruct (Volmeter.volmeter_sum_and_max adata (W - a) _ _) as [s m].
    unfold Volmeter.accumulate at 1 2.
    cbn [Volmeter.ival_frames Volmeter.update_frames].
    fold a W. rewrite (u32_small (W - a)) by lia.
    replace (a + (W - a)) with W by lia.
    rewrite (u32_small W) by lia. rewrite Z.eqb_refl. cbn [negb].
    rewrite (usize_small (left - (W - a))) by lia.
    match goal with
    | |- context [Volmeter.process_loop fuel ?v1 ?ad ?l1 true ?lg] =>
        destruct (calc_resets_window
                    (Volmeter.accumulate v (W - a) s m)) as [H0 HW'];
        destruct (IH (Volmeter.volmeter_calc_ival_levels
                        (Volmeter.accumulate v (W - a) s m)) ad l1 true lg)
          as (r & Hr & Hfin & Hrem & Hupd & Hupf)
    end.
    + rewrite H0, HW'. cbn. fold W. lia.
    + rewrite HW'. cbn. fold W. lia.
    + lia.
    + rewrite H0. lia.
    + lia.
    + exists r. split; [exact Hr | ].
      rewrite H0, HW' in *. cbn [Volmeter.accumulate Volmeter.update_frames] in *.
      fold W in Hfin, Hrem, Hupd, Hupf.
      replace (a + left) with ((left - (W - a)) + 1 * W) by lia.
      rewrite Z.div_add, Z.mod_add by lia.
      rewrite Z.add_0_l in Hfin, Hrem, Hupd.
      assert (Hq : 0 <= (left - (W - a)) / W) by (apply Z.div_pos; lia).
      rewrite Z2Nat.inj_add by lia. rewrite Nat.add_comm.
      change (Z.to_nat 1) with 1%nat. cbn [Nat.add repeat].
      assert (Hw : Volmeter.ival_frames (Volmeter.accumulate v (W - a) s m)
                   = W).
      { cbn [Volmeter.accumulate Volmeter.ival_frames]. fold a.
        rewrite (u32_small (W - a)) by lia.
        replace (a + (W - a)) with W by lia. apply u32_small. lia. }
      rewrite Hfin, Hw, <- app_assoc. cbn [app].
      split; [reflexivity | split; [exact Hrem | split; [ | exact Hupf]]].
      rewrite Hupd. destruct (Z.ltb_spec 0 ((left - (W - a)) / W + 1)); [ | lia].
      now rewrite orb_true_r.
  - (* all remaining frames fit in the window *)
    destruct (Volmeter.volmeter_sum_and_max adata left _ _) as [s m].
    unfold Volmeter.accumulate at 1 2.
    cbn [Volmeter.ival_frames Volmeter.update_frames].
    fold a W. rewrite (u32_small left) by lia.
    rewrite (u32_small (a + left)) by lia.
    rewrite Z.sub_diag. change (usize 0) with 0.
    destruct (Z.eqb_spec (a + left) W) as [Heq | Hneq]; cbn [negb].
    + rewrite process_loop_done. eexists; split; [reflexivity | ].
      destruct (calc_resets_window (Volmeter.accumulate v left s m))
        as [H0 HW'].
      cbn [Volmeter.finalized Volmeter.meter Volmeter.updated].
      rewrite H0, HW'. cbn [Volmeter.accumulate Volmeter.update_frames
        Volmeter.ival_frames]. fold a W.
      rewrite (u32_small left), (u32_small (a + left)) by lia.
      rewrite Heq, Z.div_same, Z.mod_same by lia.
      cbn. now rewrite orb_true_r.
    + eexists; split; [reflexivity | ].
      cbn [Volmeter.finalized Volmeter.meter Volmeter.updated
           Volmeter.accumulate Volmeter.update_frames Volmeter.ival_frames].
      fold a W.
      rewrite (u32_small left), (u32_small (a + left)) by lia.
      rewrite (Z.div_small (a + left) W), (Z.mod_small (a + left) W) by lia.
      cbn. rewrite app_nil_r, orb_false_r. auto.
Qed.

(** C5.  With [a < window_frames] frames accumulated, a buffer of [n] frames
    ([a + n] within [size_t]) finalizes exactly [(a + n) / window_frames] windows, each of
    [window_frames] frames, and keeps the other [(a + n) mod window_frames]
    frames accumulated: every frame is in one finalized window or in the
    remainder.  Two and a half windows on an empty meter finalize two windows
    and keep half a window. *)
Theorem window_finalization_count
    (v : Volmeter.obs_volmeter) (d : Volmeter.audio_data) (fuel : nat) :
  0 <= Volmeter.ival_frames v < Volmeter.update_frames v ->
  Volmeter.update_frames v < 2 ^ 32 ->
  0 <= Volmeter.frames d ->
  Volmeter.ival_frames v + Volmeter.frames d < 2 ^ 64 ->
  (Z.to_nat (Volmeter.frames d) < fuel)%nat ->
  let a := Volmeter.ival_frames v in
  let W := Volmeter.update_frames v in
  let n := Volmeter.frames d in
  exists r,
    Volmeter.volmeter_process_audio_data fuel v d = Some r
    /\ Volmeter.finalized r = repeat W (Z.to_nat ((a + n) / W))
    /\ Volmeter.ival_frames (Volmeter.meter r) = (a + n) mod W
    /\ Volmeter.updated r = (0 <? (a + n) / W)
    /\ a + n = W * Z.of_nat (length (Volmeter.finalized r))
               + Volmeter.ival_frames (Volmeter.meter r)
    /\ (a = 0 -> 2 * n = 5 * W ->
        Volmeter.finalized r = [W; W]
        /\ 2 * Volmeter.ival_frames (Volmeter.meter r) = W).
Proof.
  change (2 ^ 32) with 4294967296. change (2 ^ 64) with 18446744073709551616.
  intros Ha HW Hn Hsz Hfuel a W n.
  destruct (process_loop_windows fuel v (Volmeter.data d) n false []
              Ha HW Hn Hsz Hfuel) as (r & Hr & Hfin & Hrem & Hupd & _).
  fold a W in Hfin, Hrem, Hupd. cbn [app orb] in Hfin, Hupd.
  exists r. split; [exact Hr | ].
  split; [exact Hfin | split; [exact Hrem | split; [exact Hupd | split]]].
  - rewrite Hfin, Hrem, repeat_length.
    assert (0 <= (a + n) / W) by (apply Z.div_pos; lia).
    rewrite Z2Nat.id by lia. apply Z.div_mod. lia.
  - intros Ha0 H25. rewrite Hfin, Hrem, Ha0, Z.add_0_l.
    assert (Hq : n / W = 2).
    { symmetry. apply (Z.div_unique n W 2 (n - 2 * W)); lia. }
    assert (Hm : n mod W = n - 2 * W).
    { symmetry. apply (Z.mod_unique n W 2 (n - 2 * W)); lia. }
    rewrite Hq, Hm. split; [reflexivity | lia].
Qed.

Lemma window_finalization_count_witness :
  exists r,
    Volmeter.volmeter_process_audio_data 11 meter_window_4 ten_frames = Some r
    /\ Volmeter.finalized r = [4; 4]
    /\ Volmeter.ival_frames (Volmeter.meter r) = 2
    /\ Volmeter.updated r = true.
Proof.
  destruct (window_finalization_count meter_window_4 ten_frames 11)
    as (r & Hr & Hfin & Hrem & Hupd & _).
  - cbn. lia.
  - reflexivity.
  - cbn. lia.
  - reflexivity.
  - cbn. lia.
  - exists r. split; [exact Hr | ].
    split; [exact Hfin | split; [exact Hrem | exact Hupd]].
Defined.

(** C6 (as amended).  When a window is finalized, the published magnitude
    becomes [0.15 * window_rms + 0.85 * old magnitude], the weight
    [alpha = 0.15] being on the new window RMS, whichever branch the filter
    of the published max takes; the magnitude has no snap-up branch. *)
Theorem magnitude_update (v : Volmeter.obs_volmeter) :
  Volmeter.vol_mag (Volmeter.volmeter_calc_ival_levels v)
  = F32.add (F32.mul Volmeter.alpha (window_rms v))
      (F32.mul (Volmeter.vol_mag v) (F32.sub F32.one Volmeter.alpha))
  /\ Volmeter.alpha = S754_finite false 10066330 (-26)
  /\ F32.sub F32.one Volmeter.alpha = S754_finite false 14260634 (-24).
Proof.
  split; [ | split; reflexivity].
  unfold Volmeter.volmeter_calc_ival_levels, window_rms.
  destruct (_ || _); reflexivity.
Qed.

(** C6 (as stated) fails: finalizing a window of RMS 1 over a magnitude of 0
    publishes 0.15, where the decay branch of the max filter would give
    0.85. *)
Lemma magnitude_is_not_the_max_decay :
  Volmeter.vol_mag (Volmeter.volmeter_calc_ival_levels meter_unit_window)
  = F32.lit 15 100
  /\ window_rms meter_unit_window = F32.one
  /\ spec_magnitude meter_unit_window = S754_finite false 14260634 (-24)
  /\ F32.eqb
       (Volmeter.vol_mag (Volmeter.volmeter_calc_ival_levels meter_unit_window))
       (spec_magnitude meter_unit_window) = false.
Proof. repeat split. Qed.

(** ** Reconnect *)

(** A failure while reconnecting with retries left: the step of the retry
    loop. *)
Lemma reconnect_step (ret : Z) (o : obs_output) (code : Z) :
  Output.reconnecting o = true ->
  code <> Output.OBS_OUTPUT_SUCCESS ->
  0 <= ret ->
  Output.reconnect_retries o < Output.reconnect_retry_max o ->
  let cur :=
    if Output.reconnect_retries o =? 0 then Output.reconnect_retry_cur_sec o
    else Output.reconnect_retry_cur_sec o * 2 in
  exists o',
    Output.obs_output_signal_stop ret (Some o) code
    = (Some o', [Output.reconnect_thread_created (cur * 1000);
                 Output.signal_reconnect cur])
    /\ Output.reconnect_retries o' = Output.reconnect_retries o + 1
    /\ Output.reconnect_retry_cur_sec o' = cur
    /\ Output.reconnecting o' = true
    /\ Output.active o' = false
    /\ Output.reconnect_retry_max o' = Output.reconnect_retry_max o
    /\ Output.reconnect_retry_sec o' = Output.reconnect_retry_sec o.
Proof.
  intros Hrec Hcode Hret Hlt cur. subst cur.
  apply Z.eqb_neq in Hcode.
  destruct o as [fl sv ve ae ra rv ha hv vo ao pk tf act st rc rs rm rr cs].
  cbn in Hrec, Hlt |- *. subst rc.
  unfold Output.obs_output_signal_stop, Output.obs_output_end_data_capture,
    Output.output_reconnect.
  destruct act; cbn; rewrite Hcode; cbn;
    (destruct (Z.geb_spec rr rm); [lia | ]);
    (destruct (Z.ltb_spec ret 0); [lia | ]);
    destruct (rr =? 0); cbn;
    (eexists; split; [reflexivity | ]); cbn; auto 10.
Qed.

(** A failure once the retries are used up. *)
Lemma reconnect_gives_up (ret : Z) (o : obs_output) (code : Z) :
  Output.reconnecting o = true ->
  code <> Output.OBS_OUTPUT_SUCCESS ->
  Output.reconnect_retry_max o <= Output.reconnect_retries o ->
  exists o',
    Output.obs_output_signal_stop ret (Some o) code
    = (Some o', [Output.signal_stop Output.OBS_OUTPUT_DISCONNECTED])
    /\ Output.reconnect_retries o' = Output.reconnect_retries o
    /\ Output.reconnect_retry_cur_sec o' = Output.reconnect_retry_cur_sec o
    /\ Output.reconnecting o' = false
    /\ Output.active o' = false.
Proof.
  intros Hrec Hcode Hge.
  apply Z.eqb_neq in Hcode.
  destruct o as [fl sv ve ae ra rv ha hv vo ao pk tf act st rc rs rm rr cs].
  cbn in Hrec, Hge |- *. subst rc.
  unfold Output.obs_output_signal_stop, Output.obs_output_end_data_capture,
    Output.output_reconnect.
  destruct act; cbn; rewrite Hcode; cbn;
    (destruct (Z.geb_spec rr rm); [ | lia]);
    (eexists; split; [reflexivity | ]); cbn; auto.
Qed.

(** The first failure of an active output opens the reconnect episode. *)
Lemma reconnect_first (ret : Z) (o : obs_output) :
  Output.reconnecting o = false ->
  0 <= ret ->
  0 < Output.reconnect_retry_max o ->
  exists o',
    Output.obs_output_signal_stop ret (Some o) Output.OBS_OUTPUT_DISCONNECTED
    = (Some o',
       [Output.reconnect_thread_created (Output.reconnect_retry_sec o * 1000);
        Output.signal_reconnect (Output.reconnect_retry_sec o)])
    /\ Output.reconnect_retries o' = 1
    /\ Output.reconnect_retry_cur_sec o' = Output.reconnect_retry_sec o
    /\ Output.reconnecting o' = true
    /\ Output.active o' = false
    /\ Output.reconnect_retry_max o' = Output.reconnect_retry_max o
    /\ Output.reconnect_retry_sec o' = Output.reconnect_retry_sec o.
Proof.
  intros Hrec Hret Hmax.
  destruct o as [fl sv ve ae ra rv ha hv vo ao pk tf act st rc rs rm rr cs].
  cbn in Hrec, Hmax |- *. subst rc.
  unfold Output.obs_output_signal_stop, Output.obs_output_end_data_capture,
    Output.output_reconnect.
  destruct act; cbn;
    (destruct (Z.geb_spec 0 rm); [lia | ]);
    (destruct (Z.ltb_spec ret 0); [lia | ]);
    (eexists; split; [reflexivity | ]); cbn; auto 10.
Qed.

Lemma after_failures_S (n : nat) (o : obs_output) :
  after_failures (S n) o = fst (fail (after_failures n o)).
Proof. reflexivity. Qed.

(** The state after [n] failures, within the retry budget: [n] retries
    done, the backoff at [base * 2^(n-1)]. *)
Lemma after_failures_state (o : obs_output) (n : nat) :
  Output.reconnecting o = false ->
  Z.of_nat n < Output.reconnect_retry_max o ->
  let o' := after_failures (S n) o in
  Output.reconnect_retries o' = Z.of_nat (S n)
  /\ Output.reconnect_retry_cur_sec o'
     = Output.reconnect_retry_sec o * 2 ^ Z.of_nat n
  /\ Output.reconnecting o' = true
  /\ Output.active o' = false
  /\ Output.reconnect_retry_max o' = Output.reconnect_retry_max o
  /\ Output.reconnect_retry_sec o' = Output.reconnect_retry_sec o.
Proof.
  intros Hrec. induction n as [|n IH]; intros Hlt o'; subst o'.
  - cbn [after_failures]. unfold fail.
    destruct (reconnect_first 0 o Hrec ltac:(lia) ltac:(lia))
      as (o1 & -> & H1 & H2 & H3 & H4 & H5 & H6).
    cbn [fst]. rewrite H1, H2, H3, H4, H5, H6. cbn. repeat split; lia.
  - destruct (IH ltac:(lia)) as (H1 & H2 & H3 & H4 & H5 & H6).
    set (on := after_failures (S n) o) in *.
    rewrite (after_failures_S (S n) o). fold on. unfold fail.
    destruct (reconnect_step 0 on Output.OBS_OUTPUT_DISCONNECTED H3
                ltac:(discriminate) ltac:(lia) ltac:(lia))
      as (o1 & -> & G1 & G2 & G3 & G4 & G5 & G6).
    cbn [fst]. rewrite G1, G2, G3, G4, G5, G6, H1, H2, H5, H6.
    destruct (Z.eqb_spec (Z.of_nat (S n)) 0); [lia | ].
    repeat split; try lia.
    replace (Z.of_nat (S n)) with (Z.of_nat n + 1) by lia.
    rewrite Z.pow_add_r by lia. lia.
Qed.

(** The effects of failure number [n + 1], within the retry budget: a wait
    of [base * 2^n] seconds. *)
Lemma next_failure_backoff (o : obs_output) (n : nat) :
  Output.reconnecting o = false ->
  Z.of_nat n < Output.reconnect_retry_max o ->
  next_failure (after_failures n o)
  = [Output.reconnect_thread_created
       (Output.reconnect_retry_sec o * 2 ^ Z.of_nat n * 1000);
     Output.signal_reconnect (Output.reconnect_retry_sec o * 2 ^ Z.of_nat n)].
Proof.
  intros Hrec Hlt. pose proof (after_failures_state o n Hrec Hlt) as H.
  cbv zeta in H. destruct H as (H1 & H2 & _).
  destruct n as [|n].
  - cbn [after_failures]. unfold next_failure, fail.
    destruct (reconnect_first 0 o Hrec ltac:(lia) ltac:(lia))
      as (o1 & -> & _). cbn. now rewrite Z.mul_1_r.
  - destruct (after_failures_state o n Hrec ltac:(lia))
      as (G1 & G2 & G3 & G4 & G5 & G6).
    unfold next_failure, fail.
    destruct (reconnect_step 0 (after_failures (S n) o)
                Output.OBS_OUTPUT_DISCONNECTED G3
                ltac:(discriminate) ltac:(lia) ltac:(lia))
      as (o1 & -> & _).
    cbn [snd]. rewrite G1, G2.
    destruct (Z.eqb_spec (Z.of_nat (S n)) 0); [lia | ].
    replace (Z.of_nat (S n)) with (Z.of_nat n + 1) by lia.
    rewrite Z.pow_add_r by lia.
    replace (Output.reconnect_retry_sec o * 2 ^ Z.of_nat n * 2)
      with (Output.reconnect_retry_sec o * (2 ^ Z.of_nat n * 2 ^ 1)) by lia.
    reflexivity.
Qed.

(** C2.  With the defaults of [obs_output_create] (2 seconds, 20 retries),
    failure number [n + 1 <= 20] waits [2^(n+1)] seconds, so retries 1 to 5
    wait 2, 4, 8, 16 and 32 seconds; after 20 retries the next failure
    emits a stop event with the disconnected code, creates no thread and
    leaves the output neither reconnecting nor active. *)
Theorem default_reconnect_backoff (info_flags : Z) :
  let o := streaming info_flags in
  (forall n, (n < 20)%nat ->
     next_failure (after_failures n o)
     = [Output.reconnect_thread_created (2 ^ Z.of_nat (S n) * 1000);
        Output.signal_reconnect (2 ^ Z.of_nat (S n))])
  /\ map (fun n => next_failure (after_failures n o)) (seq 0 5)
     = map (fun sec => [Output.reconnect_thread_created (sec * 1000);
                        Output.signal_reconnect sec]) [2; 4; 8; 16; 32]
  /\ Output.reconnect_retries (after_failures 20 o)
     = Output.reconnect_retry_max o
  /\ next_failure (after_failures 20 o)
     = [Output.signal_stop Output.OBS_OUTPUT_DISCONNECTED]
  /\ Output.obs_output_active (Some (after_failures 21 o)) = false.
Proof.
  intros o.
  assert (Hrec : Output.reconnecting o = false) by reflexivity.
  assert (Hb : forall n, (n < 20)%nat ->
            next_failure (after_failures n o)
            = [Output.reconnect_thread_created (2 ^ Z.of_nat (S n) * 1000);
               Output.signal_reconnect (2 ^ Z.of_nat (S n))]).
  { intros n Hn. rewrite (next_failure_backoff o n Hrec) by (cbn; lia).
    change (Output.reconnect_retry_sec o) with (2 ^ 1).
    rewrite <- Z.pow_add_r by lia.
    replace (1 + Z.of_nat n) with (Z.of_nat (S n)) by lia. reflexivity. }
  split; [exact Hb | ].
  split.
  { cbn [seq map]. rewrite !Hb by lia. reflexivity. }
  destruct (after_failures_state o 19 Hrec ltac:(cbn; lia))
    as (H1 & H2 & H3 & H4 & H5 & H6).
  split; [rewrite H1; reflexivity | ].
  destruct (reconnect_gives_up 0 (after_failures 20 o)
              Output.OBS_OUTPUT_DISCONNECTED H3 ltac:(discriminate))
    as (o1 & Ho1 & _ & _ & G3 & G4).
  { rewrite H1, H5. cbn. lia. }
  split.
  - unfold next_failure, fail. now rewrite Ho1.
  - rewrite (after_failures_S 20 o). unfold fail. rewrite Ho1. cbn [fst Output.obs_output_active].
    now rewrite G3, G4.
Qed.

Lemma default_reconnect_backoff_witness :
  (4 < 20)%nat
  /\ next_failure (after_failures 4 (streaming av_encoded))
     = [Output.reconnect_thread_created 32000; Output.signal_reconnect 32].
Proof.
  assert (H : (4 < 20)%nat) by lia.
  split; [exact H | ].
  exact (proj1 (default_reconnect_backoff 7) 4%nat H).
Defined.

(** C4 (as amended).  A failure signalled while the output is reconnecting
    is the next step of the retry loop: with retries left it increments the
    retry count, doubles the backoff (from the second retry on), creates a
    new waiting thread and emits a reconnect event; with none left it stops
    with the disconnected code and changes neither count nor backoff. *)
Theorem failure_while_reconnecting (ret : Z) (o : obs_output) (code : Z) :
  Output.reconnecting o = true ->
  code <> Output.OBS_OUTPUT_SUCCESS ->
  0 <= ret ->
  exists o' fx,
    Output.obs_output_signal_stop ret (Some o) code = (Some o', fx)
    /\ (Output.reconnect_retries o < Output.reconnect_retry_max o ->
        Output.reconnect_retries o' = Output.reconnect_retries o + 1
        /\ Output.reconnect_retry_cur_sec o'
           = (if Output.reconnect_retries o =? 0
              then Output.reconnect_retry_cur_sec o
              else Output.reconnect_retry_cur_sec o * 2)
        /\ Output.reconnecting o' = true
        /\ fx = [Output.reconnect_thread_created
                   (Output.reconnect_retry_cur_sec o' * 1000);
                 Output.signal_reconnect (Output.reconnect_retry_cur_sec o')])
    /\ (Output.reconnect_retry_max o <= Output.reconnect_retries o ->
        Output.reconnect_retries o' = Output.reconnect_retries o
        /\ Output.reconnect_retry_cur_sec o' = Output.reconnect_retry_cur_sec o
        /\ Output.reconnecting o' = false
        /\ fx = [Output.signal_stop Output.OBS_OUTPUT_DISCONNECTED]).
Proof.
  intros Hrec Hcode Hret.
  destruct (Z.lt_ge_cases (Output.reconnect_retries o)
              (Output.reconnect_retry_max o)) as [Hlt | Hge].
  - destruct (reconnect_step ret o code Hrec Hcode Hret Hlt)
      as (o' & Ho' & H1 & H2 & H3 & _).
    exists o'. eexists. split; [exact Ho' | ]. split; [ | lia].
    intros _. rewrite H2. auto.
  - destruct (reconnect_gives_up ret o code Hrec Hcode Hge)
      as (o' & Ho' & H1 & H2 & H3 & _).
    exists o'. eexists. split; [exact Ho' | ]. split; [lia | ].
    intros _. auto.
Qed.

Lemma failure_while_reconnecting_witness :
  exists o' fx,
    Output.obs_output_signal_stop 0
      (Some (after_failures 1 (streaming av_encoded)))
      Output.OBS_OUTPUT_CONNECT_FAILED = (Some o', fx)
    /\ Output.reconnect_retries o' = 2.
Proof.
  destruct (failure_while_reconnecting 0
              (after_failures 1 (streaming av_encoded))
              Output.OBS_OUTPUT_CONNECT_FAILED)
    as (o' & fx & Ho' & Hstep & _).
  - reflexivity.
  - discriminate.
  - lia.
  - exists o', fx. split; [exact Ho' | ].
    destruct Hstep as (H1 & _); [cbn; lia | ]. exact H1.
Defined.

(** C4 (as stated) fails: an output that is reconnecting after one retry
    (count 1, backoff 2 s) and is told that the connection failed comes out
    with count 2 and backoff 4 s, and a second waiting thread is created. *)
Lemma failure_while_reconnecting_changes_state :
  let o := after_failures 1 (streaming av_encoded) in
  let r := Output.obs_output_signal_stop 0 (Some o)
             Output.OBS_OUTPUT_CONNECT_FAILED in
  Output.reconnecting o = true
  /\ Output.reconnect_retries o = 1
  /\ Output.reconnect_retry_cur_sec o = 2
  /\ option_map Output.reconnect_retries (fst r) = Some 2
  /\ option_map Output.reconnect_retry_cur_sec (fst r) = Some 4
  /\ snd r = [Output.reconnect_thread_created 4000; Output.signal_reconnect 4].
Proof. cbv zeta. repeat split. Qed.

(** C10.  [obs_output_active] is false for no output; for an output it is
    the disjunction of the active and the reconnecting flag, so it is true
    whenever the output is reconnecting; in particular it stays true after
    a disconnect has ended the data capture of an active output and opened
    a reconnect episode. *)
Theorem active_while_reconnecting (o : obs_output) (ret : Z) :
  Output.obs_output_active None = false
  /\ Output.obs_output_active (Some o)
     = Output.active o || Output.reconnecting o
  /\ (Output.reconnecting o = true -> Output.obs_output_active (Some o) = true)
  /\ (Output.active o = true -> Output.reconnecting o = false ->
      0 < Output.reconnect_retry_max o -> 0 <= ret ->
      exists o' fx,
        Output.obs_output_signal_stop ret (Some o)
          Output.OBS_OUTPUT_DISCONNECTED = (Some o', fx)
        /\ Output.active o' = false
        /\ Output.reconnecting o' = true
        /\ Output.obs_output_active (Some o') = true).
Proof.
  split; [reflexivity | split; [reflexivity | split]].
  - intros H. cbn. rewrite H. apply orb_true_r.
  - intros Hact Hrec Hmax Hret.
    destruct (reconnect_first ret o Hrec Hret Hmax)
      as (o' & Ho' & _ & _ & H3 & H4 & _).
    exists o'. eexists. split; [exact Ho' | ].
    cbn. rewrite H3, H4. auto.
Qed.

Lemma active_while_reconnecting_witness :
  exists o' fx,
    Output.obs_output_signal_stop 0 (Some (streaming av_encoded))
      Output.OBS_OUTPUT_DISCONNECTED = (Some o', fx)
    /\ Output.active o' = false
    /\ Output.obs_output_active (Some o') = true.
Proof.
  destruct (active_while_reconnecting (streaming av_encoded) 0)
    as (_ & _ & _ & H).
  destruct H as (o' & fx & Ho' & Ha & _ & Hact);
    [reflexivity | reflexivity | cbn; lia | lia | ].
  exists o', fx. split; [exact Ho' | split; [exact Ha | exact Hact]].
Defined.

(** ** Activation and interleaving *)

Lemma iter_array_set_0 (offs : list Z) :
  Nat.iter Output.MAX_AUDIO_MIXES (fun a => Output.array_set a 0%nat 0) offs
  = Output.array_set offs 0%nat 0.
Proof. destruct offs; reflexivity. Qed.

(** What [hook_data_capture] resets on an encoded output: everything the
    interleaver keeps, except the audio offsets of the tracks after the
    first. *)
Lemma hook_data_capture_resets (o : obs_output) (has_video has_audio : bool) :
  let o' := Output.hook_data_capture o true has_video has_audio in
  Output.interleaved_packets o' = []
  /\ Output.received_audio o' = false
  /\ Output.received_video o' = false
  /\ Output.highest_audio_ts o' = 0
  /\ Output.highest_video_ts o' = 0
  /\ Output.video_offset o' = 0
  /\ Output.audio_offsets o' = Output.array_set (Output.audio_offsets o) 0%nat 0.
Proof.
  cbv zeta. unfold Output.hook_data_capture, Output.free_packets.
  cbn [Output.set_interleaved_packets Output.set_audio_offsets
       Output.set_video_offset Output.set_highest_video_ts
       Output.set_highest_audio_ts Output.set_received_video
       Output.set_received_audio Output.interleaved_packets
       Output.received_audio Output.received_video Output.highest_audio_ts
       Output.highest_video_ts Output.video_offset Output.audio_offsets].
  rewrite iter_array_set_0. repeat split.
Qed.

(** C7 fails on the code.  After a two-track activation the audio offset of
    track 1 is 1000; [hook_data_capture] for the next activation zeroes the
    offset of track 0 only and leaves the 1000 in place. *)
Theorem hook_data_capture_keeps_track_offsets :
  Output.audio_offsets two_track_output_after = [0; 1000; 0; 0]
  /\ Output.audio_offsets
       (Output.hook_data_capture two_track_output_after true true true)
     = [0; 1000; 0; 0]
  /\ Output.interleaved_packets
       (Output.hook_data_capture two_track_output_after true true true) = []
  /\ nth 1 (Output.audio_offsets
              (Output.hook_data_capture two_track_output_after true true true))
       0 <> 0.
Proof.
  pose proof (hook_data_capture_resets two_track_output_after true true) as H.
  cbv zeta in H. destruct H as (Hp & _ & _ & _ & _ & _ & Ho).
  assert (Ha : Output.audio_offsets two_track_output_after = [0; 1000; 0; 0])
    by reflexivity.
  split; [exact Ha | ]. rewrite Ho, Ha. cbn.
  split; [reflexivity | split; [exact Hp | discriminate]].
Qed.

(** C1 (as stated) fails.  On a two-track output, with every stream in decode
    order, the timestamps passed downstream are 0, 0, 0, 33, 23: the audio
    high-water-mark is lowered by the time origin of track 0 only, stays at
    1000, and lets video through ahead of the audio packet of timestamp
    23. *)
Lemma two_tracks_sent_out_of_order :
  sent_usec
    (Output.deliver (Output.hook_data_capture two_track_output true true true)
       two_track_arrivals) = [0; 0; 0; 33; 23]
  /\ non_decreasing
       (sent_usec
          (Output.deliver
             (Output.hook_data_capture two_track_output true true true)
             two_track_arrivals)) = false.
Proof. split; reflexivity. Qed.

(** With one audio track, a stream that is itself out of order comes out
    out of order: the video packet of timestamp 5 arrives after the one of
    timestamp 10 was passed downstream. *)
Lemma late_packet_sent_out_of_order :
  sent_usec
    (Output.deliver (Output.hook_data_capture one_track_output true true true)
       late_video_arrivals) = [0; 0; 10; 5].
Proof. reflexivity. Qed.

(** *** Truncating division *)

Lemma quot_mono (n a b : Z) : 0 < n -> a <= b -> Z.quot a n <= Z.quot b n.
Proof. intros Hn Hab. now apply Z.quot_le_mono. Qed.

(** The difference of two truncated quotients is at most one above the
    truncated quotient of the difference. *)
Lemma quot_sub_bound (n x y : Z) :
  0 < n -> y <= x -> Z.quot x n - Z.quot y n <= Z.quot (x - y) n + 1.
Proof.
  intros Hn Hyx.
  pose proof (Z.quot_rem' x n) as Hx.
  pose proof (Z.quot_rem' y n) as Hy.
  pose proof (Z.quot_rem' (x - y) n) as Hd.
  pose proof (Z.rem_bound_pos (x - y) n ltac:(lia) Hn) as Bd.
  destruct (Z.le_gt_cases 0 x) as [Hx0 | Hx0].
  - pose proof (Z.rem_bound_pos x n Hx0 Hn) as Bx.
    destruct (Z.le_gt_cases 0 y) as [Hy0 | Hy0].
    + pose proof (Z.rem_bound_pos y n Hy0 Hn) as By. nia.
    + pose proof (Z.rem_bound_pos_neg y n Hn ltac:(lia)) as By. nia.
  - pose proof (Z.rem_bound_pos_neg x n Hn ltac:(lia)) as Bx.
    pose proof (Z.rem_bound_pos_neg y n Hn ltac:(lia)) as By. nia.
Qed.

(** *** The packet buffer as a sorted list *)

Definition usec_le (p q : encoder_packet) : Prop :=
  Output.dts_usec p <= Output.dts_usec q.

Definition sorted_usec : list encoder_packet -> Prop := StronglySorted usec_le.

Lemma insert_packet_In (out x : encoder_packet) (l : list encoder_packet) :
  In x (Output.insert_packet out l) <-> x = out \/ In x l.
Proof.
  induction l as [|a l IH]; simpl.
  - intuition congruence.
  - destruct (Output.dts_usec out <? Output.dts_usec a); simpl.
    + intuition congruence.
    + rewrite IH. intuition congruence.
Qed.

Lemma insert_packet_sorted (out : encoder_packet) (l : list encoder_packet) :
  sorted_usec l -> sorted_usec (Output.insert_packet out l).
Proof.
  unfold sorted_usec. induction l as [|a l IH]; simpl; intros Hs.
  - constructor; constructor.
  - inversion Hs as [|? ? Hl Ha]; subst.
    destruct (Z.ltb_spec (Output.dts_usec out) (Output.dts_usec a)).
    + constructor; [exact Hs | ]. constructor; [unfold usec_le; lia | ].
      rewrite Forall_forall in Ha |- *. intros x Hx.
      specialize (Ha x Hx). unfold usec_le in *. lia.
    + constructor; [now apply IH | ].
      rewrite Forall_forall in Ha |- *. intros x Hx.
      apply insert_packet_In in Hx. destruct Hx as [-> | Hx].
      * unfold usec_le. lia.
      * now apply Ha.
Qed.

Lemma sorted_usec_skipn (n : nat) (l : list encoder_packet) :
  sorted_usec l -> sorted_usec (skipn n l).
Proof.
  unfold sorted_usec. revert l. induction n as [|n IH]; intros l Hs.
  - exact Hs.
  - destruct l as [|a l]; [constructor | ]. simpl.
    inversion Hs; subst. now apply IH.
Qed.

Lemma In_skipn {A} (n : nat) (l : list A) (x : A) :
  In x (skipn n l) -> In x l.
Proof.
  revert l. induction n as [|n IH]; intros l Hx; [exact Hx | ].
  destruct l as [|a l]; [exact Hx | ]. right. now apply IH.
Qed.

(** [resort_interleaved_packets] is an insertion sort of the buffer. *)
Definition insertion_sort (l acc : list encoder_packet) : list encoder_packet :=
  fold_left (fun acc p => Output.insert_packet p acc) l acc.

Lemma resort_insertion_sort (l : list encoder_packet) (o : obs_output)
    (acc : list encoder_packet) :
  fold_left Output.insert_interleaved_packet l
    (Output.set_interleaved_packets o acc)
  = Output.set_interleaved_packets o (insertion_sort l acc).
Proof.
  revert acc. induction l as [|a l IH]; intros acc; [reflexivity | ].
  unfold insertion_sort. cbn [fold_left].
  change (Output.insert_interleaved_packet
            (Output.set_interleaved_packets o acc) a)
    with (Output.set_interleaved_packets o (Output.insert_packet a acc)).
  apply IH.
Qed.

Lemma insertion_sort_sorted (l acc : list encoder_packet) :
  sorted_usec acc -> sorted_usec (insertion_sort l acc).
Proof.
  revert acc. induction l as [|a l IH]; intros acc Hs; [exact Hs | ].
  apply IH. now apply insert_packet_sorted.
Qed.

Lemma insertion_sort_In (l acc : list encoder_packet) (x : encoder_packet) :
  In x (insertion_sort l acc) <-> In x l \/ In x acc.
Proof.
  revert acc. induction l as [|a l IH]; intros acc; cbn [insertion_sort fold_left].
  - simpl. tauto.
  - fold (insertion_sort l (Output.insert_packet a acc)).
    rewrite IH, insert_packet_In. simpl. intuition congruence.
Qed.

(** *** Invariants of an activation with one audio track *)

Section SingleTrack.

Variables cv ca : stream_clock.
Variable e : nat.
Variable o0 : obs_output.

Hypothesis Hcv : 0 < den cv.
Hypothesis Hca : 0 < den ca.
Hypothesis Hsingle : single_track o0 e.

(** The part of the output the interleaver never changes. *)
Definition config (o : obs_output)
  : Z * option Output.obs_service * list (option nat) :=
  (Output.flags o, Output.service o, Output.audio_encoders o).

(** The microsecond value of decode timestamp [d] on clock [c]. *)
Definition usec_of (c : stream_clock) (d : Z) : Z :=
  Z.quot (d * Output.MICROSECOND_DEN) (den c).

Definition clock_of (ty : Output.obs_encoder_type) : stream_clock :=
  match ty with
  | Output.OBS_ENCODER_VIDEO => cv
  | Output.OBS_ENCODER_AUDIO => ca
  end.

(** The corrected timestamp of the last packet a stream delivered, [lv] and
    [la] being the last decode timestamps of video and audio. *)
Definition level (o : obs_output) (lv la : Z) (ty : Output.obs_encoder_type)
  : Z :=
  match ty with
  | Output.OBS_ENCODER_VIDEO => usec_of cv (lv - Output.video_offset o)
  | Output.OBS_ENCODER_AUDIO =>
      usec_of ca (la - nth 0 (Output.audio_offsets o) 0)
  end.

(** Once both streams are received: the buffer is sorted, no buffered packet
    is later than the last packet of its stream, and a high-water-mark is
    at most one microsecond above the last packet of its stream. *)
Definition synchronized (o : obs_output) (lv la : Z) : Prop :=
  config o = config o0
  /\ Output.received_audio o = true
  /\ Output.received_video o = true
  /\ sorted_usec (Output.interleaved_packets o)
  /\ (forall p, In p (Output.interleaved_packets o) ->
        Output.dts_usec p <= level o lv la (Output.type p))
  /\ Output.highest_video_ts o <= level o lv la Output.OBS_ENCODER_VIDEO + 1
  /\ Output.highest_audio_ts o <= level o lv la Output.OBS_ENCODER_AUDIO + 1.

(** [E] is a timestamp no buffered packet and no later arrival falls
    below. *)
Definition lower (E : Z) (o : obs_output) (lv la : Z) : Prop :=
  (forall p, In p (Output.interleaved_packets o) -> E <= Output.dts_usec p)
  /\ E <= level o lv la Output.OBS_ENCODER_VIDEO
  /\ E <= level o lv la Output.OBS_ENCODER_AUDIO.

(** What one call passes downstream, seen against the state it leaves:
    nothing, or one packet that is a lower bound of that state and not below
    any lower bound of the state before. *)
Definition sent_ok (o : obs_output) (lv la : Z) (o' : obs_output)
    (lv' la' : Z) (sent : list encoder_packet) : Prop :=
  (forall E, lower E o lv la -> lower E o' lv' la')
  /\ (sent = []
      \/ exists h, sent = [h]
           /\ lower (Output.dts_usec h) o' lv' la'
           /\ forall E, lower E o lv la -> E <= Output.dts_usec h).

Lemma usec_of_mono (c : stream_clock) (a b : Z) :
  0 < den c -> a <= b -> usec_of c a <= usec_of c b.
Proof.
  intros Hc Hab. unfold usec_of, Output.MICROSECOND_DEN.
  apply quot_mono; lia.
Qed.

Lemma usec_of_sub (c : stream_clock) (a b : Z) :
  0 < den c -> b <= a -> usec_of c a - usec_of c b <= usec_of c (a - b) + 1.
Proof.
  intros Hc Hab. unfold usec_of, Output.MICROSECOND_DEN.
  replace ((a - b) * 1000000) with (a * 1000000 - b * 1000000) by lia.
  apply quot_sub_bound; lia.
Qed.

(** The emission gate keeps the invariant, and what it lets through is in
    order. *)
Lemma send_interleaved_ok (o : obs_output) (lv la : Z) :
  synchronized o lv la ->
  synchronized (fst (Output.send_interleaved o)) lv la
  /\ sent_ok o lv la (fst (Output.send_interleaved o)) lv la
       (snd (Output.send_interleaved o)).
Proof.
  intros (Hcfg & Hra & Hrv & Hs & Hb & Hhv & Hha).
  unfold Output.send_interleaved.
  destruct (Output.interleaved_packets o) as [|h rest] eqn:Hpk.
  { cbn [fst snd]. split.
    - unfold synchronized. rewrite Hpk. auto 10.
    - split; [auto | now left]. }
  destruct (Output.has_higher_opposing_ts o h) eqn:Hgate; cbn [negb fst snd].
  2: { split.
    - unfold synchronized. rewrite Hpk. auto 10.
    - split; [auto | now left]. }
  inversion Hs as [|? ? Hrest Hhead]; subst.
  rewrite Forall_forall in Hhead.
  set (o1 := match Output.type h with
             | Output.OBS_ENCODER_AUDIO => o
             | Output.OBS_ENCODER_VIDEO =>
                 Output.set_total_frames o (Output.total_frames o + 1)
             end).
  set (o' := Output.set_interleaved_packets o1 rest).
  assert (Hlev : forall ty, level o' lv la ty = level o lv la ty).
  { intros ty. unfold o', o1. destruct (Output.type h), ty; reflexivity. }
  assert (Hpk' : Output.interleaved_packets o' = rest) by reflexivity.
  assert (Hsync : synchronized o' lv la).
  { unfold synchronized. rewrite Hpk', !Hlev.
    split; [unfold o', o1; destruct (Output.type h); exact Hcfg | ].
    split; [unfold o', o1; destruct (Output.type h); exact Hra | ].
    split; [unfold o', o1; destruct (Output.type h); exact Hrv | ].
    split; [exact Hrest | ].
    split; [intros p Hp; rewrite Hlev; apply Hb; now right | ].
    split; unfold o', o1; destruct (Output.type h); assumption. }
  assert (Hlow : forall E, lower E o lv la -> lower E o' lv la).
  { intros E (H1 & H2 & H3). unfold lower. rewrite Hpk', !Hlev.
    split; [intros p Hp; apply H1; rewrite Hpk; now right | ].
    split; assumption. }
  split; [exact Hsync | ]. split; [exact Hlow | ].
  destruct (Output.stopped o') eqn:Hst; cbn [negb]; [now left | right].
  exists h. split; [reflexivity | split].
  - unfold lower. rewrite Hpk', !Hlev.
    pose proof (Hb h (or_introl eq_refl)) as Hown.
    unfold Output.has_higher_opposing_ts in Hgate.
    repeat apply conj.
    + intros p Hp. apply (Hhead p Hp).
    + destruct (Output.type h); [ | exact Hown].
      apply Z.gtb_lt in Hgate. lia.
    + destruct (Output.type h); [exact Hown | ].
      apply Z.gtb_lt in Hgate. lia.
  - intros E (H1 & _). apply H1. rewrite Hpk. now left.
Qed.

(** *** What each helper leaves unchanged *)

(** The fields the invariants read, besides the buffer and the
    high-water-marks. *)
Definition frame (o : obs_output)
  : (Z * option Output.obs_service * list (option nat)) * Z * list Z * bool :=
  (config o, Output.video_offset o, Output.audio_offsets o, Output.stopped o).

Lemma level_frame (o o' : obs_output) (lv la : Z)
    (ty : Output.obs_encoder_type) :
  frame o' = frame o -> level o' lv la ty = level o lv la ty.
Proof.
  unfold frame. intros H.
  assert (Hv : Output.video_offset o' = Output.video_offset o) by congruence.
  assert (Ha : Output.audio_offsets o' = Output.audio_offsets o) by congruence.
  unfold level. now rewrite Hv, Ha.
Qed.

Lemma set_higher_ts_frame (o : obs_output) (p : encoder_packet) :
  frame (Output.set_higher_ts o p) = frame o
  /\ Output.received_audio (Output.set_higher_ts o p) = Output.received_audio o
  /\ Output.received_video (Output.set_higher_ts o p) = Output.received_video o
  /\ Output.interleaved_packets (Output.set_higher_ts o p)
     = Output.interleaved_packets o
  /\ Output.highest_video_ts (Output.set_higher_ts o p)
     = match Output.type p with
       | Output.OBS_ENCODER_VIDEO =>
           Z.max (Output.highest_video_ts o) (Output.dts_usec p)
       | Output.OBS_ENCODER_AUDIO => Output.highest_video_ts o
       end
  /\ Output.highest_audio_ts (Output.set_higher_ts o p)
     = match Output.type p with
       | Output.OBS_ENCODER_AUDIO =>
           Z.max (Output.highest_audio_ts o) (Output.dts_usec p)
       | Output.OBS_ENCODER_VIDEO => Output.highest_audio_ts o
       end.
Proof.
  unfold Output.set_higher_ts.
  destruct (Output.type p).
  - destruct (Z.ltb_spec (Output.highest_audio_ts o) (Output.dts_usec p));
      cbn; repeat split; lia.
  - destruct (Z.ltb_spec (Output.highest_video_ts o) (Output.dts_usec p));
      cbn; repeat split; lia.
Qed.

Lemma check_received_frame (o : obs_output) (p : encoder_packet) :
  frame (Output.check_received o p) = frame o
  /\ Output.interleaved_packets (Output.check_received o p)
     = Output.interleaved_packets o
  /\ Output.highest_video_ts (Output.check_received o p)
     = Output.highest_video_ts o
  /\ Output.highest_audio_ts (Output.check_received o p)
     = Output.highest_audio_ts o.
Proof.
  unfold Output.check_received.
  destruct (Output.type p);
    [destruct (Output.received_audio o) | destruct (Output.received_video o)];
    cbn; repeat split.
Qed.

Lemma config_slot0 (o : obs_output) :
  config o = config o0 ->
  exists slots, Output.audio_encoders o = Some e :: slots.
Proof.
  unfold config. intros [= _ _ Hae]. destruct Hsingle as (_ & [slots Hs] & _).
  exists slots. now rewrite Hae.
Qed.

Lemma config_one_mix (o : obs_output) :
  config o = config o0 -> Output.num_audio_mixes o = 1%nat.
Proof.
  unfold config. intros [= Hf Hsv Hae]. destruct Hsingle as (H1 & _).
  rewrite <- H1. unfold Output.num_audio_mixes, Output.has_flag,
    Output.service_supports_multitrack. now rewrite Hf, Hsv, Hae.
Qed.

Lemma get_track_index_slot0 (o : obs_output) (p : encoder_packet) :
  config o = config o0 -> Output.encoder p = e ->
  Output.get_track_index o p = Some 0%nat.
Proof.
  intros Hcfg He. destruct (config_slot0 o Hcfg) as [slots Hs].
  unfold Output.get_track_index. rewrite Hs, He. cbn. now rewrite Nat.eqb_refl.
Qed.

(** *** Arrivals *)

Definition advance_v (lv : option Z) (p : encoder_packet) : option Z :=
  match Output.type p with
  | Output.OBS_ENCODER_VIDEO => Some (Output.dts p)
  | Output.OBS_ENCODER_AUDIO => lv
  end.

Definition advance_a (la : option Z) (p : encoder_packet) : option Z :=
  match Output.type p with
  | Output.OBS_ENCODER_VIDEO => la
  | Output.OBS_ENCODER_AUDIO => Some (Output.dts p)
  end.

(** What [in_order] demands of the next packet. *)
Definition arrival_ok (lv la : option Z) (p : encoder_packet) : Prop :=
  match Output.type p with
  | Output.OBS_ENCODER_VIDEO =>
      stamped cv p = true /\ not_before lv (Output.dts p) = true
  | Output.OBS_ENCODER_AUDIO =>
      Output.encoder p = e /\ stamped ca p = true
      /\ not_before la (Output.dts p) = true
  end.

Lemma in_order_cons (lv la : option Z) (p : encoder_packet)
    (r : list encoder_packet) :
  in_order cv ca e lv la (p :: r) = true ->
  arrival_ok lv la p
  /\ in_order cv ca e (advance_v lv p) (advance_a la p) r = true.
Proof.
  cbn [in_order]. unfold arrival_ok, advance_v, advance_a.
  destruct (Output.type p); rewrite !andb_true_iff, ?Nat.eqb_eq; tauto.
Qed.

Lemma stamped_spec (c : stream_clock) (p : encoder_packet) :
  stamped c p = true ->
  Output.timebase_den p = den c
  /\ Output.dts_usec p = base_usec c + usec_of c (Output.dts p)
  /\ 0 <= Output.dts_usec p.
Proof.
  unfold stamped. rewrite !andb_true_iff, !Z.eqb_eq, Z.leb_le.
  intros [[Hd Hu] H0]. unfold usec_of. rewrite <- Hd. auto.
Qed.

(** The resolved packet: an audio packet is tagged with track 0. *)
Definition resolve (p : encoder_packet) : encoder_packet :=
  match Output.type p with
  | Output.OBS_ENCODER_AUDIO => Output.set_track_idx p 0
  | Output.OBS_ENCODER_VIDEO => p
  end.

Lemma resolve_facts (p : encoder_packet) :
  Output.type (resolve p) = Output.type p
  /\ Output.dts (resolve p) = Output.dts p
  /\ Output.dts_usec (resolve p) = Output.dts_usec p
  /\ Output.timebase_den (resolve p) = Output.timebase_den p
  /\ (Output.type p = Output.OBS_ENCODER_AUDIO ->
      Output.track_idx (resolve p) = 0%nat).
Proof.
  unfold resolve. destruct (Output.type p) eqn:Hty; cbn; auto.
  repeat split; auto. discriminate.
Qed.

(** The corrected timestamp of an arrival once the offsets are set. *)
Lemma corrected_usec (o : obs_output) (lv la : Z) (p : encoder_packet) :
  Output.timebase_den p = den (clock_of (Output.type p)) ->
  (Output.type p = Output.OBS_ENCODER_AUDIO -> Output.track_idx p = 0%nat) ->
  Output.dts_usec (Output.apply_interleaved_packet_offset o p)
  = match Output.type p with
    | Output.OBS_ENCODER_VIDEO => level o (Output.dts p) la Output.OBS_ENCODER_VIDEO
    | Output.OBS_ENCODER_AUDIO => level o lv (Output.dts p) Output.OBS_ENCODER_AUDIO
    end.
Proof.
  intros Hden Htr. unfold Output.apply_interleaved_packet_offset, level,
    usec_of, Output.packet_dts_usec. cbn.
  destruct (Output.type p) eqn:Hty; cbn in Hden; rewrite Hden.
  - now rewrite (Htr eq_refl).
  - reflexivity.
Qed.

Lemma resolved_packet (o : obs_output) (p : encoder_packet) :
  config o = config o0 ->
  (Output.type p = Output.OBS_ENCODER_AUDIO -> Output.encoder p = e) ->
  match Output.type p with
  | Output.OBS_ENCODER_AUDIO =>
      option_map (Output.set_track_idx p) (Output.get_track_index o p)
  | Output.OBS_ENCODER_VIDEO => Some p
  end = Some (resolve p).
Proof.
  intros Hcfg He. unfold resolve. destruct (Output.type p); [ | reflexivity].
  now rewrite (get_track_index_slot0 o p Hcfg (He eq_refl)).
Qed.

(** A call once both streams are received: offset, insert, raise the
    high-water-mark, try to send. *)
Lemma interleave_started (o : obs_output) (p : encoder_packet) :
  config o = config o0 ->
  Output.received_audio o = true -> Output.received_video o = true ->
  (Output.type p = Output.OBS_ENCODER_AUDIO -> Output.encoder p = e) ->
  let out := Output.apply_interleaved_packet_offset o (resolve p) in
  Output.interleave_packets o p
  = Some (Output.send_interleaved
            (Output.set_higher_ts (Output.insert_interleaved_packet o out) out)).
Proof.
  intros Hcfg Hra Hrv He out. unfold Output.interleave_packets.
  rewrite (resolved_packet o p Hcfg He), Hra, Hrv. cbn [andb negb].
  fold out.
  destruct (set_higher_ts_frame (Output.insert_interleaved_packet o out) out)
    as (_ & -> & -> & _).
  cbn [Output.insert_interleaved_packet Output.set_interleaved_packets
       Output.received_audio Output.received_video].
  now rewrite Hra, Hrv.
Qed.

(** A call before both streams are received. *)
Lemma interleave_starting (o : obs_output) (p : encoder_packet) :
  config o = config o0 ->
  Output.received_audio o && Output.received_video o = false ->
  (Output.type p = Output.OBS_ENCODER_AUDIO -> Output.encoder p = e) ->
  let o3 :=
    Output.set_higher_ts
      (Output.insert_interleaved_packet
         (Output.check_received o (resolve p)) (resolve p)) (resolve p) in
  Output.interleave_packets o p
  = if Output.received_audio o3 && Output.received_video o3 then
      match
        Output.initialize_interleaved_packets
          (Output.prune_interleaved_packets o3)
      with
      | None => None
      | Some (o5, true) =>
          Some (Output.send_interleaved (Output.resort_interleaved_packets o5))
      | Some (o5, false) => Some (o5, [])
      end
    else Some (o3, []).
Proof.
  intros Hcfg Hns He o3. unfold Output.interleave_packets.
  rewrite (resolved_packet o p Hcfg He), Hns. cbn [negb]. reflexivity.
Qed.

(** An arrival after synchronization keeps the invariant, and every lower
    bound. *)
Lemma arrive_synchronized (o : obs_output) (lv la : Z) (p : encoder_packet) :
  synchronized o lv la ->
  arrival_ok (Some lv) (Some la) p ->
  exists lv' la' o3,
    advance_v (Some lv) p = Some lv'
    /\ advance_a (Some la) p = Some la'
    /\ Output.interleave_packets o p = Some (Output.send_interleaved o3)
    /\ synchronized o3 lv' la'
    /\ (forall E, lower E o lv la -> lower E o3 lv' la').
Proof.
  intros (Hcfg & Hra & Hrv & Hs & Hb & Hhv & Hha) Harr.
  set (out := Output.apply_interleaved_packet_offset o (resolve p)).
  set (o3 := Output.set_higher_ts (Output.insert_interleaved_packet o out) out).
  destruct (resolve_facts p) as (Rty & Rdts & _ & Rden & Rtr).
  assert (Hty : Output.type out = Output.type p) by (rewrite <- Rty; reflexivity).
  assert (He : Output.type p = Output.OBS_ENCODER_AUDIO -> Output.encoder p = e).
  { intros H. unfold arrival_ok in Harr. rewrite H in Harr. tauto. }
  destruct (set_higher_ts_frame (Output.insert_interleaved_packet o out) out)
    as (Hfr & Fra & Frv & Fpk & Fhv & Fha).
  fold o3 in Hfr, Fra, Frv, Fpk, Fhv, Fha.
  assert (Hfr3 : frame o3 = frame o) by (rewrite Hfr; reflexivity).
  assert (Hcfg3 : config o3 = config o0).
  { rewrite <- Hcfg. unfold frame in Hfr3. congruence. }
  assert (Hpk3 : Output.interleaved_packets o3
                 = Output.insert_packet out (Output.interleaved_packets o))
    by (rewrite Fpk; reflexivity).
  assert (Hden : Output.timebase_den (resolve p)
                 = den (clock_of (Output.type (resolve p)))).
  { rewrite Rden, Rty. unfold arrival_ok in Harr.
    destruct (Output.type p); cbn [clock_of].
    - destruct Harr as (_ & Hst & _). now destruct (stamped_spec ca p Hst).
    - destruct Harr as (Hst & _). now destruct (stamped_spec cv p Hst). }
  assert (Htr : Output.type (resolve p) = Output.OBS_ENCODER_AUDIO ->
                Output.track_idx (resolve p) = 0%nat).
  { rewrite Rty. exact Rtr. }
  pose proof (corrected_usec o lv la (resolve p) Hden Htr) as Hout.
  fold out in Hout. rewrite Rty, Rdts in Hout.
  exists (match Output.type p with
          | Output.OBS_ENCODER_VIDEO => Output.dts p
          | Output.OBS_ENCODER_AUDIO => lv
          end),
         (match Output.type p with
          | Output.OBS_ENCODER_VIDEO => la
          | Output.OBS_ENCODER_AUDIO => Output.dts p
          end), o3.
  split; [unfold advance_v; now destruct (Output.type p) | ].
  split; [unfold advance_a; now destruct (Output.type p) | ].
  split; [exact (interleave_started o p Hcfg Hra Hrv He) | ].
  unfold arrival_ok in Harr.
  destruct (Output.type p) eqn:Hp.
  - (* an audio packet *)
    destruct Harr as (_ & _ & Hnb). cbn [not_before] in Hnb.
    apply Z.leb_le in Hnb.
    assert (Hup : level o lv la Output.OBS_ENCODER_AUDIO
                  <= level o lv (Output.dts p) Output.OBS_ENCODER_AUDIO).
    { unfold level. apply usec_of_mono; [exact Hca | lia]. }
    split.
    + unfold synchronized.
      rewrite Hpk3, Fra, Frv, Fhv, Fha, Hty, !(level_frame o o3) by exact Hfr3.
      cbn [Output.insert_interleaved_packet Output.set_interleaved_packets
           Output.received_audio Output.received_video
           Output.highest_video_ts Output.highest_audio_ts].
      split; [exact Hcfg3 | split; [exact Hra | split; [exact Hrv | ]]].
      split; [now apply insert_packet_sorted | ].
      split; [ | split; [exact Hhv | ]].
      * intros q Hq. rewrite (level_frame o o3) by exact Hfr3.
        apply insert_packet_In in Hq. destruct Hq as [-> | Hq].
        -- rewrite Hty, Hout. cbn [level]. lia.
        -- specialize (Hb q Hq). destruct (Output.type q); cbn [level] in *; lia.
      * rewrite Hout. lia.
    + intros E (H1 & H2 & H3). unfold lower.
      rewrite Hpk3, !(level_frame o o3) by exact Hfr3.
      split; [ | split; [exact H2 | lia]].
      intros q Hq. apply insert_packet_In in Hq. destruct Hq as [-> | Hq].
      * rewrite Hout. lia.
      * now apply H1.
  - (* a video packet *)
    destruct Harr as (_ & Hnb). cbn [not_before] in Hnb.
    apply Z.leb_le in Hnb.
    assert (Hup : level o lv la Output.OBS_ENCODER_VIDEO
                  <= level o (Output.dts p) la Output.OBS_ENCODER_VIDEO).
    { unfold level. apply usec_of_mono; [exact Hcv | lia]. }
    split.
    + unfold synchronized.
      rewrite Hpk3, Fra, Frv, Fhv, Fha, Hty, !(level_frame o o3) by exact Hfr3.
      cbn [Output.insert_interleaved_packet Output.set_interleaved_packets
           Output.received_audio Output.received_video
           Output.highest_video_ts Output.highest_audio_ts].
      split; [exact Hcfg3 | split; [exact Hra | split; [exact Hrv | ]]].
      split; [now apply insert_packet_sorted | ].
      split; [ | split; [ | exact Hha]].
      * intros q Hq. rewrite (level_frame o o3) by exact Hfr3.
        apply insert_packet_In in Hq. destruct Hq as [-> | Hq].
        -- rewrite Hty, Hout. cbn [level]. lia.
        -- specialize (Hb q Hq). destruct (Output.type q); cbn [level] in *; lia.
      * rewrite Hout. lia.
    + intros E (H1 & H2 & H3). unfold lower.
      rewrite Hpk3, !(level_frame o o3) by exact Hfr3.
      split; [ | split; [lia | exact H3]].
      intros q Hq. apply insert_packet_In in Hq. destruct Hq as [-> | Hq].
      * rewrite Hout. lia.
      * now apply H1.
Qed.

Lemma non_decreasing_cons (x : Z) (l : list Z) :
  Forall (fun y => x <= y) l -> non_decreasing l = true ->
  non_decreasing (x :: l) = true.
Proof.
  intros Hx Hl. destruct l as [|y l]; [reflexivity | ].
  cbn [non_decreasing]. inversion Hx; subst.
  apply andb_true_iff. split; [now apply Z.leb_le | exact Hl].
Qed.

(** From a synchronized state on, what is passed downstream never
    decreases, and stays above every lower bound of the state. *)
Lemma deliver_synchronized (pkts : list encoder_packet) :
  forall o lv la,
    synchronized o lv la ->
    in_order cv ca e (Some lv) (Some la) pkts = true ->
    exists o' sent,
      Output.deliver o pkts = Some (o', sent)
      /\ non_decreasing (map Output.dts_usec sent) = true
      /\ forall E, lower E o lv la ->
           Forall (fun y => E <= y) (map Output.dts_usec sent).
Proof.
  induction pkts as [|p r IH]; intros o lv la Hsyn Hord.
  - exists o, []. repeat split. intros; constructor.
  - apply in_order_cons in Hord. destruct Hord as [Harr Hrest].
    destruct (arrive_synchronized o lv la p Hsyn Harr)
      as (lv' & la' & o3 & Hv & Ha & Hcall & Hsyn3 & Hlow3).
    rewrite Hv, Ha in Hrest.
    destruct (send_interleaved_ok o3 lv' la' Hsyn3) as [Hsyn4 [Hlow4 Hsent]].
    destruct (Output.send_interleaved o3) as [o4 sent1] eqn:Hsend.
    cbn [fst snd] in Hsyn4, Hlow4, Hsent.
    destruct (IH o4 lv' la' Hsyn4 Hrest) as (o' & sent2 & Hrun & Hnd & Hge).
    exists o', (sent1 ++ sent2). cbn [Output.deliver].
    rewrite Hcall, Hrun. split; [reflexivity | ].
    destruct Hsent as [-> | (h & -> & Hh & Hmin)]; cbn [app map].
    + split; [exact Hnd | ]. intros E HE. apply Hge, Hlow4, Hlow3, HE.
    + split.
      * apply non_decreasing_cons; [apply Hge, Hh | exact Hnd].
      * intros E HE. constructor.
        -- apply Hmin, Hlow3, HE.
        -- apply Hge, Hlow4, Hlow3, HE.
Qed.

(** *** Before both streams are received *)

(** The high-water-mark of a stream before synchronization: the stamped
    timestamp of its last packet. *)
Definition mark (c : stream_clock) (last : option Z) : Z :=
  match last with
  | None => 0
  | Some d => base_usec c + usec_of c d
  end.

Definition seen (last : option Z) (d : Z) : Prop :=
  exists l, last = Some l /\ d <= l.

(** A buffered packet is as its encoder stamped it, resolved to track 0,
    and not later than the last packet of its stream. *)
Definition buffered_raw (lv la : option Z) (p : encoder_packet) : Prop :=
  match Output.type p with
  | Output.OBS_ENCODER_VIDEO => stamped cv p = true /\ seen lv (Output.dts p)
  | Output.OBS_ENCODER_AUDIO =>
      Output.track_idx p = 0%nat /\ stamped ca p = true
      /\ seen la (Output.dts p)
  end.

Definition waiting (o : obs_output) (lv la : option Z) : Prop :=
  config o = config o0
  /\ Output.audio_offsets o <> []
  /\ sorted_usec (Output.interleaved_packets o)
  /\ (forall p, In p (Output.interleaved_packets o) -> buffered_raw lv la p)
  /\ Output.highest_video_ts o = mark cv lv
  /\ Output.highest_audio_ts o = mark ca la.

Lemma seen_advance (last : option Z) (d d' : Z) :
  seen last d -> not_before last d' = true -> seen (Some d') d.
Proof.
  intros (l & -> & Hd) Hnb. cbn in Hnb. apply Z.leb_le in Hnb.
  exists d'. split; [reflexivity | lia].
Qed.

Lemma mark_advance (c : stream_clock) (last : option Z) (p : encoder_packet) :
  0 < den c -> stamped c p = true -> not_before last (Output.dts p) = true ->
  Z.max (mark c last) (Output.dts_usec p) = mark c (Some (Output.dts p)).
Proof.
  intros Hc Hst Hnb. destruct (stamped_spec c p Hst) as (_ & Hu & H0).
  cbn [mark]. rewrite <- Hu. apply Z.max_r.
  destruct last as [l|]; cbn [mark not_before] in *; [ | exact H0].
  apply Z.leb_le in Hnb. rewrite Hu.
  pose proof (usec_of_mono c l (Output.dts p) Hc Hnb). lia.
Qed.

(** Buffering an arrival keeps the invariant of the waiting state. *)
Lemma arrive_waiting (o : obs_output) (lv la : option Z) (p : encoder_packet) :
  waiting o lv la ->
  arrival_ok lv la p ->
  waiting
    (Output.set_higher_ts
       (Output.insert_interleaved_packet
          (Output.check_received o (resolve p)) (resolve p)) (resolve p))
    (advance_v lv p) (advance_a la p).
Proof.
  intros (Hcfg & Hoff & Hs & Hb & Hhv & Hha) Harr.
  set (o1 := Output.check_received o (resolve p)).
  set (o2 := Output.insert_interleaved_packet o1 (resolve p)).
  destruct (resolve_facts p) as (Rty & Rdts & Rus & Rden & Rtr).
  destruct (check_received_frame o (resolve p)) as (Cfr & Cpk & Chv & Cha).
  fold o1 in Cfr, Cpk, Chv, Cha.
  destruct (set_higher_ts_frame o2 (resolve p)) as (Hfr & _ & _ & Fpk & Fhv & Fha).
  assert (Hfr3 : frame (Output.set_higher_ts o2 (resolve p)) = frame o)
    by (rewrite Hfr, <- Cfr; reflexivity).
  unfold waiting. rewrite Fpk, Fhv, Fha, Rty, Rus.
  cbn [o2 Output.insert_interleaved_packet Output.set_interleaved_packets
       Output.interleaved_packets Output.highest_video_ts
       Output.highest_audio_ts].
  rewrite Cpk, Chv, Cha, Hhv, Hha.
  split; [rewrite <- Hcfg; unfold frame in Hfr3; congruence | ].
  split; [unfold frame in Hfr3;
          replace (Output.audio_offsets (Output.set_higher_ts o2 (resolve p)))
            with (Output.audio_offsets o) by congruence; exact Hoff | ].
  split; [now apply insert_packet_sorted | ].
  unfold arrival_ok in Harr. unfold advance_v, advance_a.
  destruct (Output.type p) eqn:Hp.
  - destruct Harr as (_ & Hst & Hnb).
    split; [ | split; [reflexivity | now apply mark_advance]].
    intros q Hq. apply insert_packet_In in Hq. destruct Hq as [-> | Hq].
    + unfold buffered_raw. rewrite Rty, Rdts.
      split; [now apply Rtr | split].
      * unfold resolve. rewrite Hp. exact Hst.
      * exists (Output.dts p). split; [reflexivity | lia].
    + specialize (Hb q Hq). unfold buffered_raw in *.
      destruct (Output.type q); [ | exact Hb].
      destruct Hb as (H1 & H2 & H3). split; [exact H1 | split; [exact H2 | ]].
      now apply (seen_advance la).
  - destruct Harr as (Hst & Hnb).
    split; [ | split; [now apply mark_advance | reflexivity]].
    intros q Hq. apply insert_packet_In in Hq. destruct Hq as [-> | Hq].
    + unfold buffered_raw. rewrite Rty, Rdts.
      split.
      * unfold resolve. rewrite Hp. exact Hst.
      * exists (Output.dts p). split; [reflexivity | lia].
    + specialize (Hb q Hq). unfold buffered_raw in *.
      destruct (Output.type q); [exact Hb | ].
      destruct Hb as (H1 & H2). split; [exact H1 | ].
      now apply (seen_advance lv).
Qed.

Lemma prune_waiting (o : obs_output) (lv la : option Z) :
  waiting o lv la ->
  waiting (Output.prune_interleaved_packets o) lv la
  /\ Output.received_audio (Output.prune_interleaved_packets o)
     = Output.received_audio o
  /\ Output.received_video (Output.prune_interleaved_packets o)
     = Output.received_video o.
Proof.
  intros (Hcfg & Hoff & Hs & Hb & Hhv & Hha).
  unfold Output.prune_interleaved_packets.
  destruct (negb _); [ | unfold waiting; auto 10].
  unfold waiting. cbn. repeat split; auto.
  - now apply sorted_usec_skipn.
  - intros p Hp. apply Hb. now apply In_skipn in Hp.
Qed.

Lemma type_eqb_eq (a b : Output.obs_encoder_type) :
  Output.type_eqb a b = true -> a = b.
Proof. destruct a, b; cbn; congruence. Qed.

Lemma find_first_packet_type_spec (o : obs_output)
    (ty : Output.obs_encoder_type) (idx : nat) (x : encoder_packet) :
  Output.find_first_packet_type o ty idx = Some x ->
  In x (Output.interleaved_packets o) /\ Output.type x = ty.
Proof.
  unfold Output.find_first_packet_type. intros H.
  apply find_some in H. destruct H as [Hin Hx].
  apply andb_true_iff in Hx. destruct Hx as [Hx _].
  split; [exact Hin | now apply type_eqb_eq].
Qed.

Lemma nth_array_set_0 (a : list Z) (x : Z) :
  a <> [] -> nth 0 (Output.array_set a 0%nat x) 0 = x.
Proof. destruct a; [congruence | reflexivity]. Qed.

Lemma initialize_waiting (o : obs_output) (lv la : option Z) :
  waiting o lv la ->
  Output.received_audio o = true -> Output.received_video o = true ->
  exists o' b,
    Output.initialize_interleaved_packets o = Some (o', b)
    /\ (b = false ->
        waiting o' lv la
        /\ Output.received_audio o' && Output.received_video o' = false)
    /\ (b = true ->
        exists lvd lad,
          lv = Some lvd /\ la = Some lad
          /\ synchronized (Output.resort_interleaved_packets o') lvd lad).
Proof.
  intros Hw Hra Hrv. pose proof Hw as (Hcfg & Hoff & Hs & Hb & Hhv & Hha).
  unfold Output.initialize_interleaved_packets.
  rewrite (config_one_mix o Hcfg).
  destruct (Output.find_first_packet_type o Output.OBS_ENCODER_VIDEO 0)
    as [v|] eqn:Hfv.
  - cbn [Output.first_audio_packets].
    destruct (Output.find_first_packet_type o Output.OBS_ENCODER_AUDIO 0)
      as [a|] eqn:Hfa; cbn [option_map].
    + (* both streams have a packet in the buffer *)
      eexists; exists true. split; [reflexivity | ].
      split; [discriminate | intros _].
      apply find_first_packet_type_spec in Hfv, Hfa.
      destruct Hfv as [Vin Vty], Hfa as [Ain Aty].
      pose proof (Hb v Vin) as Vraw. pose proof (Hb a Ain) as Araw.
      unfold buffered_raw in Vraw, Araw. rewrite Vty in Vraw. rewrite Aty in Araw.
      destruct Vraw as (Vst & lvd & -> & Vle).
      destruct Araw as (_ & Ast & lad & -> & Ale).
      exists lvd, lad. split; [reflexivity | split; [reflexivity | ]].
      destruct (stamped_spec cv v Vst) as (_ & Vus & _).
      destruct (stamped_spec ca a Ast) as (_ & Aus & _).
      unfold Output.resort_interleaved_packets. rewrite resort_insertion_sort.
      cbn [Output.store_audio_offsets].
      match goal with
      | |- synchronized (Output.set_interleaved_packets ?o5 _) _ _ =>
          remember o5 as o' eqn:Ho'
      end.
      assert (Hvo : Output.video_offset o' = Output.dts v)
        by (subst o'; reflexivity).
      assert (Hao : nth 0 (Output.audio_offsets o') 0 = Output.dts a).
      { subst o'. cbn. now apply nth_array_set_0. }
      assert (Hpk : Output.interleaved_packets o'
                    = map (Output.apply_interleaved_packet_offset o')
                        (Output.interleaved_packets o))
        by (subst o'; reflexivity).
      assert (Hhv' : Output.highest_video_ts o'
                     = Output.highest_video_ts o - Output.dts_usec v)
        by (subst o'; reflexivity).
      assert (Hha' : Output.highest_audio_ts o'
                     = Output.highest_audio_ts o - Output.dts_usec a)
        by (subst o'; reflexivity).
      assert (Hcfg' : config o' = config o0)
        by (rewrite <- Hcfg; subst o'; reflexivity).
      assert (Hra' : Output.received_audio o' = true)
        by (rewrite <- Hra; subst o'; reflexivity).
      assert (Hrv' : Output.received_video o' = true)
        by (rewrite <- Hrv; subst o'; reflexivity).
      clear Ho'.
      set (sorted := insertion_sort (Output.interleaved_packets o') []).
      assert (Hlev : forall ty,
                level (Output.set_interleaved_packets o' sorted) lvd lad ty
                = match ty with
                  | Output.OBS_ENCODER_VIDEO => usec_of cv (lvd - Output.dts v)
                  | Output.OBS_ENCODER_AUDIO => usec_of ca (lad - Output.dts a)
                  end).
      { intros ty. unfold level.
        cbn [Output.set_interleaved_packets Output.video_offset
             Output.audio_offsets].
        now rewrite Hvo, Hao. }
      unfold synchronized. rewrite !Hlev.
      cbn [Output.set_interleaved_packets Output.interleaved_packets
           Output.received_audio Output.received_video
           Output.highest_video_ts Output.highest_audio_ts].
      split; [exact Hcfg' | split; [exact Hra' | split; [exact Hrv' | ]]].
      split; [apply insertion_sort_sorted; constructor | ].
      split; [ | split].
      * intros q Hq. rewrite Hlev. unfold sorted in Hq.
        apply insertion_sort_In in Hq. destruct Hq as [Hq | []].
        rewrite Hpk in Hq.
        apply in_map_iff in Hq. destruct Hq as (q0 & <- & Hq0).
        pose proof (Hb q0 Hq0) as Hraw. unfold buffered_raw in Hraw.
        assert (Hqty : Output.type (Output.apply_interleaved_packet_offset o' q0)
                       = Output.type q0) by reflexivity.
        rewrite Hqty.
        destruct (Output.type q0) eqn:Hq0ty.
        -- destruct Hraw as (Htr & Hst & l & [= <-] & Hle).
           destruct (stamped_spec ca q0 Hst) as (Hden & _).
           rewrite (corrected_usec o' lvd lad q0);
             rewrite Hq0ty; cbn [clock_of]; auto.
           unfold level. rewrite Hao. apply usec_of_mono; [exact Hca | lia].
        -- destruct Hraw as (Hst & l & [= <-] & Hle).
           destruct (stamped_spec cv q0 Hst) as (Hden & _).
           rewrite (corrected_usec o' lvd lad q0);
             rewrite Hq0ty; cbn [clock_of]; auto; try discriminate.
           unfold level. rewrite Hvo. apply usec_of_mono; [exact Hcv | lia].
      * rewrite Hhv', Hhv, Vus. cbn [mark].
        pose proof (usec_of_sub cv lvd (Output.dts v) Hcv Vle). lia.
      * rewrite Hha', Hha, Aus. cbn [mark].
        pose proof (usec_of_sub ca lad (Output.dts a) Hca Ale). lia.
    + (* no audio packet is left in the buffer *)
      eexists; exists false. split; [reflexivity | ].
      split; [intros _ | discriminate]. split.
      * unfold waiting. cbn. auto 10.
      * reflexivity.
  - cbn [Output.first_audio_packets].
    change (Output.find_first_packet_type
              (Output.set_received_video o false) Output.OBS_ENCODER_AUDIO 0)
      with (Output.find_first_packet_type o Output.OBS_ENCODER_AUDIO 0).
    destruct (Output.find_first_packet_type o Output.OBS_ENCODER_AUDIO 0)
      as [a|] eqn:Hfa; cbn [option_map].
    + eexists; exists false. split; [reflexivity | ].
      split; [intros _ | discriminate]. split.
      * unfold waiting. cbn. auto 10.
      * cbn. apply andb_false_r.
    + eexists; exists false. split; [reflexivity | ].
      split; [intros _ | discriminate]. split.
      * unfold waiting. cbn. auto 10.
      * reflexivity.
Qed.

(** Up to synchronization nothing is sent; from then on the run is the
    synchronized one. *)
Lemma deliver_waiting (pkts : list encoder_packet) :
  forall o lv la,
    waiting o lv la ->
    Output.received_audio o && Output.received_video o = false ->
    in_order cv ca e lv la pkts = true ->
    exists o' sent,
      Output.deliver o pkts = Some (o', sent)
      /\ non_decreasing (map Output.dts_usec sent) = true.
Proof.
  induction pkts as [|p r IH]; intros o lv la Hw Hns Hord.
  - exists o, []. split; reflexivity.
  - apply in_order_cons in Hord. destruct Hord as [Harr Hrest].
    pose proof Hw as (Hcfg & _).
    assert (He : Output.type p = Output.OBS_ENCODER_AUDIO -> Output.encoder p = e).
    { intros H. unfold arrival_ok in Harr. rewrite H in Harr. tauto. }
    cbn [Output.deliver]. rewrite (interleave_starting o p Hcfg Hns He).
    cbv zeta. pose proof (arrive_waiting o lv la p Hw Harr) as Hw3.
    set (o3 := Output.set_higher_ts _ _) in *.
    destruct (Output.received_audio o3 && Output.received_video o3) eqn:Hfl.
    + destruct (prune_waiting o3 _ _ Hw3) as (Hw4 & Pra & Prv).
      apply andb_true_iff in Hfl. destruct Hfl as [Hra Hrv].
      rewrite <- Pra in Hra. rewrite <- Prv in Hrv.
      destruct (initialize_waiting _ _ _ Hw4 Hra Hrv)
        as (o5 & b & -> & Hfalse & Htrue).
      destruct b.
      * destruct (Htrue eq_refl) as (lvd & lad & Hlv & Hla & Hsyn).
        rewrite Hlv, Hla in Hrest.
        destruct (send_interleaved_ok _ lvd lad Hsyn) as [Hsyn6 [_ Hsent]].
        destruct (Output.send_interleaved
                    (Output.resort_interleaved_packets o5)) as [o6 sent1].
        cbn [fst snd] in Hsyn6, Hsent.
        destruct (deliver_synchronized r o6 lvd lad Hsyn6 Hrest)
          as (o' & sent2 & -> & Hnd & Hge).
        exists o', (sent1 ++ sent2). split; [reflexivity | ].
        destruct Hsent as [-> | (h & -> & Hh & _)]; cbn [app map].
        -- exact Hnd.
        -- apply non_decreasing_cons; [apply Hge, Hh | exact Hnd].
      * destruct (Hfalse eq_refl) as [Hw5 Hns5].
        destruct (IH o5 _ _ Hw5 Hns5 Hrest) as (o' & sent2 & -> & Hnd).
        exists o', sent2. split; [reflexivity | exact Hnd].
    + destruct (IH o3 _ _ Hw3 Hfl Hrest) as (o' & sent2 & -> & Hnd).
      exists o', sent2. split; [reflexivity | exact Hnd].
Qed.

Lemma hook_data_capture_waiting (has_video has_audio : bool) :
  waiting (Output.hook_data_capture o0 true has_video has_audio) None None
  /\ Output.received_audio
       (Output.hook_data_capture o0 true has_video has_audio)
     && Output.received_video
          (Output.hook_data_capture o0 true has_video has_audio) = false.
Proof.
  pose proof (hook_data_capture_resets o0 has_video has_audio) as H.
  cbv zeta in H. destruct H as (Hp & Hra & Hrv & Hha & Hhv & _ & Hao).
  split; [ | now rewrite Hra].
  unfold waiting. rewrite Hp, Hha, Hhv, Hao.
  split; [reflexivity | split].
  - destruct Hsingle as (_ & _ & Hlen).
    destruct (Output.audio_offsets o0); [discriminate | cbn; discriminate].
  - split; [constructor | split; [intros p [] | split; reflexivity]].
Qed.

(** C1 (as amended).  Within one activation of an output with a single audio
    track, when each stream (video, audio) delivers packets of a fixed
    positive timebase, with decode timestamps that never decrease and with
    the non-negative microsecond timestamps origin + dts * 10^6 /
    timebase_den, then for every interleaving of the two streams every call
    to [interleave_packets] returns, and the packets passed to the driver's
    [encoded_packet] callback never decrease in corrected microsecond decode
    timestamp. *)
Theorem interleaved_sent_in_order (has_video has_audio : bool)
    (pkts : list encoder_packet) :
  in_order cv ca e None None pkts = true ->
  exists o' sent,
    Output.deliver (Output.hook_data_capture o0 true has_video has_audio) pkts
    = Some (o', sent)
    /\ non_decreasing (map Output.dts_usec sent) = true.
Proof.
  intros Hord.
  destruct (hook_data_capture_waiting has_video has_audio) as [Hw Hns].
  exact (deliver_waiting pkts _ None None Hw Hns Hord).
Qed.

End SingleTrack.

(** The gate of [send_interleaved]: what it passes downstream is the earliest
    buffered packet, and the high-water-mark of the opposing kind is
    strictly above its timestamp. *)
Lemma send_interleaved_gate (o : obs_output) (h : encoder_packet) :
  In h (snd (Output.send_interleaved o)) ->
  exists rest,
    Output.interleaved_packets o = h :: rest
    /\ Output.interleaved_packets (fst (Output.send_interleaved o)) = rest
    /\ match Output.type h with
       | Output.OBS_ENCODER_VIDEO => Output.dts_usec h < Output.highest_audio_ts o
       | Output.OBS_ENCODER_AUDIO => Output.dts_usec h < Output.highest_video_ts o
       end.
Proof.
  unfold Output.send_interleaved.
  destruct (Output.interleaved_packets o) as [|x rest]; [intros [] | ].
  destruct (Output.has_higher_opposing_ts o x) eqn:Hgate; cbn [negb fst snd];
    [ | intros []].
  destruct (Output.stopped _); cbn [negb]; [intros [] | ].
  intros [-> | []]. exists rest. split; [reflexivity | split].
  - destruct (Output.type h); reflexivity.
  - unfold Output.has_higher_opposing_ts in Hgate.
    destruct (Output.type h); apply Z.gtb_lt in Hgate; exact Hgate.
Qed.

Lemma interleaved_sent_in_order_witness :
  exists o' sent,
    Output.deliver (Output.hook_data_capture one_track_output true true true)
      in_order_arrivals = Some (o', sent)
    /\ non_decreasing (map Output.dts_usec sent) = true.
Proof.
  apply (interleaved_sent_in_order video_30fps audio_44k 1 one_track_output).
  - reflexivity.
  - reflexivity.
  - split; [reflexivity | split; [eexists; reflexivity | reflexivity]].
  - reflexivity.
Defined.

(** Without the condition on the sign of the microsecond timestamps the
    order is lost: the high-water-marks start at 0, above every negative
    timestamp. *)
Lemma negative_stamps_sent_out_of_order :
  in_order early_clock early_clock 1 None None negative_stamp_arrivals = false
  /\ sent_usec
       (Output.deliver
          (Output.hook_data_capture one_track_output true true true)
          negative_stamp_arrivals) = [0; 0; 50; 10].
Proof. split; reflexivity. Qed.

(** * Further properties *)

(** ** The order of binary32 values *)

Lemma leb_ltb_trans (x y z : f32) :
  F32.leb x y = true -> F32.ltb y z = true -> F32.ltb x z = true.
Proof.
  unfold F32.leb, F32.ltb, SFleb, SFltb.
  destruct x as [s1|s1| |s1 m1 e1], y as [s2|s2| |s2 m2 e2],
           z as [s3|s3| |s3 m3 e3]; cbn [SFcompare];
    try discriminate; try reflexivity;
    try (destruct s1; try discriminate; try reflexivity);
    try (destruct s2; try discriminate; try reflexivity);
    try (destruct s3; try discriminate; try reflexivity).
  all: change (Pos.compare_cont Eq m1 m2) with (Pos.compare m1 m2);
       change (Pos.compare_cont Eq m2 m3) with (Pos.compare m2 m3);
       change (Pos.compare_cont Eq m1 m3) with (Pos.compare m1 m3).
  all: destruct (Z.compare_spec e1 e2), (Z.compare_spec e2 e3),
         (Z.compare_spec e1 e3); try lia; try discriminate; try reflexivity;
       destruct (Pos.compare_spec m1 m2), (Pos.compare_spec m2 m3),
         (Pos.compare_spec m1 m3); cbn; try lia; try discriminate;
       try reflexivity.
Qed.

Lemma eqb_geb (x y : f32) : F32.eqb x y = true -> F32.geb x y = true.
Proof.
  unfold F32.eqb, F32.geb, SFeqb, SFleb. rewrite (SFcompare_antisym x y).
  destruct (SFcompare x y) as [[ | | ]|]; cbn; congruence.
Qed.

(** A value below [t0] is not at or above a threshold [t] that is not below
    [t0], and is not equal to it. *)
Lemma below_not_geb (x t0 t : f32) :
  F32.ltb x t0 = true -> F32.ltb t t0 = false -> F32.geb x t = false.
Proof.
  intros Hx Ht. unfold F32.geb. fold (F32.leb t x).
  destruct (F32.leb t x) eqn:Hle; [ | reflexivity].
  rewrite (leb_ltb_trans t x t0 Hle Hx) in Ht. discriminate.
Qed.

Lemma below_not_eqb (x t0 t : f32) :
  F32.ltb x t0 = true -> F32.ltb t t0 = false -> F32.eqb x t = false.
Proof.
  intros Hx Ht. destruct (F32.eqb x t) eqn:He; [ | reflexivity].
  apply eqb_geb in He. rewrite (below_not_geb x t0 t Hx Ht) in He.
  discriminate.
Qed.

Lemma ltb_irrefl (x : f32) : F32.ltb x x = false.
Proof.
  unfold F32.ltb, SFltb. destruct (F32.is_nan x) eqn:Hn.
  - destruct x; try discriminate. reflexivity.
  - now rewrite SFcompare_refl.
Qed.

Lemma nothing_below_neg_infinity (x : f32) : F32.ltb x F32.neg_infinity = false.
Proof. destruct x as [s|s| |s m e]; try reflexivity; destruct s; reflexivity. Qed.

(** ** More of the level math *)

(** X1.  The segmented (IEC) conversions saturate below their lowest
    segment: every deflection below 0.001 converts to minus infinity, and
    every level below -114 dB converts to deflection 0. *)
Theorem iec_saturates_below_lowest_segment :
  (forall def, F32.ltb def (F32.lit 1 1000) = true ->
     Level.iec_def_to_db def = F32.neg_infinity)
  /\ (forall db, F32.ltb db (F32.of_Z (-114)) = true ->
        Level.iec_db_to_def db = F32.zero).
Proof.
  split.
  - intros def Hlt. unfold Level.iec_def_to_db.
    rewrite (below_not_eqb def _ F32.one Hlt eq_refl).
    repeat match goal with
           | |- context [F32.geb def ?t] =>
               rewrite (below_not_geb def _ t Hlt eq_refl)
           end.
    now destruct (F32.leb def F32.zero).
  - intros db Hlt. unfold Level.iec_db_to_def.
    rewrite (below_not_eqb db _ F32.zero Hlt eq_refl).
    repeat match goal with
           | |- context [F32.geb db ?t] =>
               rewrite (below_not_geb db _ t Hlt eq_refl)
           end.
    now destruct (F32.eqb db F32.neg_infinity).
Qed.

Lemma iec_saturates_below_lowest_segment_witness :
  F32.ltb (F32.lit 5 10000) (F32.lit 1 1000) = true
  /\ Level.iec_def_to_db (F32.lit 5 10000) = F32.neg_infinity
  /\ Level.iec_db_to_def (F32.of_Z (-120)) = F32.zero.
Proof.
  assert (H : F32.ltb (F32.lit 5 10000) (F32.lit 1 1000) = true)
    by reflexivity.
  split; [exact H | split].
  - exact (proj1 iec_saturates_below_lowest_segment _ H).
  - apply (proj2 iec_saturates_below_lowest_segment). reflexivity.
Defined.

(** X2.  The segment boundaries of the IEC scale correspond exactly in both
    directions: each of the deflections 0.025, 0.075, 0.15, 0.3, 0.5, 0.75, 1
    converts to a level that converts back to it, and each of the levels
    -114, -60, -50, -40, -30, -20, -9, 0 dB converts to a deflection that
    converts back to it.  The lowest deflection 0.001 does not: its level,
    about -146.4 dB, is below -114 dB and converts back to 0. *)
Theorem iec_boundaries_round_trip :
  Forall (fun def => Level.iec_db_to_def (Level.iec_def_to_db def) = def)
    [F32.lit 25 1000; F32.lit 75 1000; F32.lit 15 100; F32.lit 3 10;
     F32.lit 5 10; F32.lit 75 100; F32.one]
  /\ Forall (fun db => Level.iec_def_to_db (Level.iec_db_to_def db) = db)
       [F32.of_Z (-114); F32.of_Z (-60); F32.of_Z (-50); F32.of_Z (-40);
        F32.of_Z (-30); F32.of_Z (-20); F32.of_Z (-9); F32.zero]
  /\ F32.ltb (Level.iec_def_to_db (F32.lit 1 1000)) (F32.of_Z (-114)) = true
  /\ Level.iec_db_to_def (Level.iec_def_to_db (F32.lit 1 1000)) = F32.zero.
Proof.
  split; [repeat constructor | split; [repeat constructor | ]].
  split; reflexivity.
Qed.

(** ** More of the fader *)

Section MoreFaderFacts.

Variable M : libm.

Lemma set_db_flag_and_push (f : Fader.obs_fader) (db : f32) :
  let r := Fader.obs_fader_set_db M (Some f) db in
  Fader.ignore_next_signal (Fader.after r f) = true
  /\ Fader.source (Fader.after r f) = Fader.source f
  /\ Fader.volume_changed r = None
  /\ Fader.set_volume r
     = option_map
         (fun s => (s, Level.db_to_mul M (Fader.cur_db (Fader.after r f))))
         (Fader.source f).
Proof.
  cbv zeta. unfold Fader.obs_fader_set_db, Fader.after.
  cbn [Fader.set_cur_db Fader.cur_db Fader.max_db Fader.min_db].
  destruct (F32.gtb db (Fader.max_db f));
    cbn [Fader.set_cur_db Fader.cur_db Fader.max_db Fader.min_db];
    match goal with |- context [if ?c then _ else _] => destruct c end;
    cbn; auto.
Qed.

(** X3.  Clamping is idempotent: on a fader whose [max_db] is not below its
    [min_db], setting the value that [obs_fader_set_db] stored stores it
    again and pushes the same gain to the source. *)
Theorem set_db_idempotent (f : Fader.obs_fader) (db : f32) :
  F32.ltb (Fader.max_db f) (Fader.min_db f) = false ->
  let r1 := Fader.obs_fader_set_db M (Some f) db in
  let f1 := Fader.after r1 f in
  let r2 := Fader.obs_fader_set_db M (Some f1) (Fader.cur_db f1) in
  Fader.cur_db (Fader.after r2 f1) = Fader.cur_db f1
  /\ Fader.set_volume r2 = Fader.set_volume r1.
Proof.
  intros Hord r1 f1 r2.
  destruct (set_db_stored M f db Hord) as (g1 & Hg1 & Hc1 & Hmn & Hmx & Hs & _).
  assert (Hf1 : f1 = g1) by (unfold f1, r1, Fader.after; now rewrite Hg1).
  assert (Hord1 : F32.ltb (Fader.max_db f1) (Fader.min_db f1) = false)
    by (rewrite Hf1, Hmn, Hmx; exact Hord).
  destruct (set_db_stored M f1 (Fader.cur_db f1) Hord1)
    as (g2 & Hg2 & Hc2 & _).
  assert (Hsame : Fader.cur_db (Fader.after r2 f1) = Fader.cur_db f1).
  { unfold r2, Fader.after. rewrite Hg2, Hc2.
    rewrite Hf1, Hmn, Hmx, Hc1.
    unfold F32.gtb.
    destruct (SFltb (Fader.max_db f) db) eqn:Hgt.
    - fold (F32.ltb (Fader.max_db f) (Fader.max_db f)).
      now rewrite ltb_irrefl, Hord.
    - destruct (F32.ltb db (Fader.min_db f)) eqn:Hlt.
      + fold (F32.ltb (Fader.max_db f) F32.neg_infinity).
        rewrite nothing_below_neg_infinity.
        now destruct (F32.ltb F32.neg_infinity (Fader.min_db f)).
      + now rewrite Hgt, Hlt. }
  split; [exact Hsame | ].
  destruct (set_db_flag_and_push f db) as (_ & Hsrc & _ & Hp1).
  destruct (set_db_flag_and_push f1 (Fader.cur_db f1)) as (_ & _ & _ & Hp2).
  fold r1 in Hp1, Hsrc. fold f1 in Hp1, Hsrc. fold r2 in Hp2.
  now rewrite Hp2, Hp1, Hsame, Hsrc.
Qed.

(** X4.  The fader ignores exactly one notification after
    [obs_fader_set_db]: the next "volume" signal of the source changes
    nothing but the flag and emits no [volume_changed], whatever gain it
    carries; the one after it is stored and emitted. *)
Theorem own_notification_is_ignored_once (f : Fader.obs_fader)
    (db mul mul' : f32) :
  let f1 := Fader.after (Fader.obs_fader_set_db M (Some f) db) f in
  let r1 := Fader.fader_source_volume_changed M f1 mul in
  let f2 := Fader.after r1 f1 in
  let r2 := Fader.fader_source_volume_changed M f2 mul' in
  Fader.volume_changed r1 = None
  /\ Fader.cur_db f2 = Fader.cur_db f1
  /\ Fader.volume_changed r2 = Some (Level.mul_to_db M mul')
  /\ Fader.cur_db (Fader.after r2 f2) = Level.mul_to_db M mul'.
Proof.
  intros f1 r1 f2 r2.
  destruct (set_db_flag_and_push f db) as (Hign & _). fold f1 in Hign.
  unfold r2, f2, r1, Fader.fader_source_volume_changed. rewrite Hign.
  cbn. auto.
Qed.


(** X6.  Muting through the fader is exact: [obs_fader_set_mul] with a gain
    of zero stores minus infinity on every fader and pushes the gain 0 to the
    bound source, whatever the C library; it counts as clamping exactly on
    a fader whose [min_db] is above minus infinity. *)
Theorem set_mul_zero_is_silence (f : Fader.obs_fader) (mul : f32) :
  F32.eqb mul F32.zero = true ->
  let r := Fader.obs_fader_set_mul M (Some f) mul in
  Fader.cur_db (Fader.after r f) = F32.neg_infinity
  /\ Fader.set_volume r = option_map (fun s => (s, F32.zero)) (Fader.source f)
  /\ Fader.returned r = negb (F32.ltb F32.neg_infinity (Fader.min_db f)).
Proof.
  intros Hz r. subst r. unfold Fader.obs_fader_set_mul, Level.mul_to_db.
  rewrite Hz. unfold Fader.obs_fader_set_db, Fader.after.
  cbn [Fader.set_cur_db Fader.cur_db Fader.max_db Fader.min_db].
  unfold F32.gtb. fold (F32.ltb (Fader.max_db f) F32.neg_infinity).
  rewrite nothing_below_neg_infinity.
  cbn [Fader.set_cur_db Fader.cur_db Fader.max_db Fader.min_db].
  destruct (F32.ltb F32.neg_infinity (Fader.min_db f)); cbn; auto.
Qed.

(** X7.  On a fader of any type as [obs_fader_create] makes it, a
    deflection of 1 sets exactly 0 dB without clamping, and a deflection of
    0 or less sets exactly minus infinity; on the logarithmic fader, whose
    [min_db] is -96, the latter is reported as clamped. *)
Theorem created_fader_deflection_ends (ty : Fader.obs_fader_type) (def : f32) :
  F32.leb def F32.zero = true ->
  let f := Fader.obs_fader_create M ty in
  let top := Fader.obs_fader_set_deflection M (Some f) F32.one in
  let bottom := Fader.obs_fader_set_deflection M (Some f) def in
  Fader.obs_fader_get_db (Fader.fader_after top) = F32.zero
  /\ Fader.returned top = true
  /\ Fader.obs_fader_get_db (Fader.fader_after bottom) = F32.neg_infinity
  /\ Fader.returned bottom
     = match ty with
       | Fader.OBS_FADER_LOG => false
       | _ => true
       end.
Proof.
  intros Hdef f top bottom. subst f top bottom.
  destruct (cubic_endpoints M) as (Hc1 & Hc0 & _).
  destruct iec_endpoints as (Hi1 & Hi0 & _).
  destruct (log_endpoints M) as (Hl1 & Hl0 & _).
  unfold Fader.obs_fader_set_deflection.
  destruct ty; cbn [Fader.obs_fader_create Fader.def_to_db];
    rewrite ?Hc1, ?Hi1, ?Hl1, ?(Hc0 def Hdef), ?(Hi0 def Hdef), ?(Hl0 def Hdef);
    repeat split.
Qed.

End MoreFaderFacts.

Lemma set_db_idempotent_witness :
  Fader.cur_db
    (Fader.after
       (Fader.obs_fader_set_db libm_points
          (Some (Fader.after (Fader.obs_fader_set_db libm_points
                                (Some log_fader_on_7) (F32.of_Z 5))
                   log_fader_on_7))
          F32.zero) log_fader_on_7) = F32.zero.
Proof.
  exact (proj1 (set_db_idempotent libm_points log_fader_on_7 (F32.of_Z 5)
                  eq_refl)).
Defined.

Lemma set_mul_zero_is_silence_witness :
  Fader.cur_db
    (Fader.after (Fader.obs_fader_set_mul libm_points (Some log_fader_on_7)
                    F32.neg_zero) log_fader_on_7) = F32.neg_infinity
  /\ Fader.returned
       (Fader.obs_fader_set_mul libm_points (Some log_fader_on_7) F32.neg_zero)
     = false.
Proof.
  destruct (set_mul_zero_is_silence libm_points log_fader_on_7 F32.neg_zero
              eq_refl) as (H1 & _ & H3).
  split; [exact H1 | exact H3].
Defined.

Lemma created_fader_deflection_ends_witness :
  Fader.obs_fader_get_db
    (Fader.fader_after
       (Fader.obs_fader_set_deflection libm_points
          (Some (Fader.obs_fader_create libm_points Fader.OBS_FADER_CUBIC))
          (F32.of_Z (-5)))) = F32.neg_infinity.
Proof.
  destruct (created_fader_deflection_ends libm_points Fader.OBS_FADER_CUBIC
              (F32.of_Z (-5)) eq_refl) as (_ & _ & H & _).
  exact H.
Defined.

(** ** More of the volume meter *)

Lemma process_loop_zero_window (fuel : nat) :
  forall v adata left upd log,
    Volmeter.update_frames v = 0 ->
    Volmeter.ival_frames v = 0 ->
    0 < left < 18446744073709551616 ->
    Volmeter.process_loop fuel v adata left upd log = None.
Proof.
  induction fuel as [|fuel IH]; intros v adata left upd log HW Ha Hl;
    cbn [Volmeter.process_loop];
    (destruct (Z.eqb_spec left 0); [lia | ]); [reflexivity | ].
  rewrite HW, Ha, Z.add_0_l, (usize_small left) by lia.
  destruct (Z.gtb_spec left 0); [ | lia].
  change (u32 (0 - 0)) with 0.
  destruct (Volmeter.volmeter_sum_and_max adata 0 _ _) as [s m].
  unfold Volmeter.accumulate at 1 2.
  cbn [Volmeter.ival_frames Volmeter.update_frames].
  rewrite Ha, HW. change (u32 (0 + u32 0) =? 0) with true. cbn [negb].
  rewrite Z.sub_0_r, (usize_small left) by lia.
  destruct (calc_resets_window (Volmeter.accumulate v 0 s m)) as [H0 HW'].
  apply IH; [ | exact H0 | exact Hl].
  rewrite HW'. exact HW.
Qed.

(** X8.  A meter created while the audio output reports a sample rate
    below 20 Hz (0 when there is no audio output) has an empty window:
    [update_frames] is 50 ms of frames, rounded down to 0.  It never returns
    from a buffer that holds frames: each round of the loop takes no frame
    and finalizes an empty window, so the handler of the "audio_data"
    signal never returns either. *)
Theorem zero_window_never_returns (ty : Fader.obs_fader_type) (sr ch : Z)
    (d : Volmeter.audio_data) :
  0 <= sr < 20 ->
  0 < Volmeter.frames d < 2 ^ 64 ->
  exists v,
    VolmeterApi.obs_volmeter_create ty sr ch = Some v
    /\ Volmeter.update_frames v = 0
    /\ forall (M : libm) (is_muted : bool) (fuel : nat),
         Volmeter.volmeter_process_audio_data fuel v d = None
         /\ VolmeterApi.volmeter_source_data_received M fuel ty v d is_muted
            = None.
Proof.
  change (2 ^ 64) with 18446744073709551616.
  intros Hsr Hn. eexists. split; [reflexivity | ].
  assert (HW : u32 (50 * u32 sr) / 1000 = 0).
  { rewrite (u32_small sr) by lia. rewrite (u32_small (50 * sr)) by lia.
    apply Z.div_small. lia. }
  split; [exact HW | ].
  intros M is_muted fuel.
  match goal with
  | |- Volmeter.volmeter_process_audio_data fuel ?v d = None /\ _ =>
      assert (H : Volmeter.volmeter_process_audio_data fuel v d = None)
        by (apply process_loop_zero_window; [exact HW | reflexivity | exact Hn])
  end.
  split; [exact H | ].
  unfold VolmeterApi.volmeter_source_data_received. now rewrite H.
Qed.

Lemma zero_window_never_returns_witness :
  Volmeter.update_frames meter_no_audio = 0
  /\ forall fuel,
       Volmeter.volmeter_process_audio_data fuel meter_no_audio ten_frames
       = None.
Proof.
  destruct (zero_window_never_returns Fader.OBS_FADER_LOG 0 0 ten_frames
              ltac:(lia) ltac:(cbn; lia)) as (v & Hv & HW & Hrun).
  assert (Hm : meter_no_audio = v).
  { unfold meter_no_audio. now rewrite Hv. }
  rewrite Hm. split; [exact HW | ].
  intros fuel. exact (proj1 (Hrun libm_points false fuel)).
Defined.

(** X9.  The windows do not depend on how the audio is cut into buffers:
    two buffers of [n1] and [n2] frames processed one after the other
    finalize, together, the windows that one buffer of [n1 + n2] frames
    finalizes, and leave the same number of frames accumulated. *)
Theorem split_buffers_same_windows (v : Volmeter.obs_volmeter)
    (d1 d2 d : Volmeter.audio_data) (fuel : nat) :
  0 <= Volmeter.ival_frames v < Volmeter.update_frames v ->
  Volmeter.update_frames v < 2 ^ 32 ->
  0 <= Volmeter.frames d1 ->
  0 <= Volmeter.frames d2 ->
  Volmeter.frames d = Volmeter.frames d1 + Volmeter.frames d2 ->
  Volmeter.ival_frames v + Volmeter.frames d < 2 ^ 64 ->
  (Z.to_nat (Volmeter.frames d) < fuel)%nat ->
  exists r1 r2 r,
    Volmeter.volmeter_process_audio_data fuel v d1 = Some r1
    /\ Volmeter.volmeter_process_audio_data fuel (Volmeter.meter r1) d2
       = Some r2
    /\ Volmeter.volmeter_process_audio_data fuel v d = Some r
    /\ Volmeter.finalized r1 ++ Volmeter.finalized r2 = Volmeter.finalized r
    /\ Volmeter.ival_frames (Volmeter.meter r2)
       = Volmeter.ival_frames (Volmeter.meter r)
    /\ Volmeter.updated r = Volmeter.updated r1 || Volmeter.updated r2.
Proof.
  change (2 ^ 32) with 4294967296. change (2 ^ 64) with 18446744073709551616.
  set (a := Volmeter.ival_frames v). set (W := Volmeter.update_frames v).
  set (n1 := Volmeter.frames d1). set (n2 := Volmeter.frames d2).
  intros Ha HW Hn1 Hn2 Hn Hsz Hfuel. rewrite Hn in Hsz, Hfuel.
  destruct (process_loop_windows fuel v (Volmeter.data d1) n1 false [])
    as (r1 & Hr1 & Hf1 & Hrem1 & Hu1 & HW1); try (fold a W; lia).
  fold a W in Hf1, Hrem1, Hu1, HW1.
  assert (Hm1 : 0 <= (a + n1) mod W < W) by (apply Z.mod_pos_bound; lia).
  destruct (process_loop_windows fuel (Volmeter.meter r1) (Volmeter.data d2)
              n2 false [])
    as (r2 & Hr2 & Hf2 & Hrem2 & Hu2 & _); try (rewrite ?Hrem1, ?HW1; lia).
  { rewrite Hrem1. pose proof (Z.mod_le (a + n1) W ltac:(lia) ltac:(lia)).
    lia. }
  rewrite Hrem1, HW1 in Hf2, Hrem2, Hu2.
  destruct (process_loop_windows fuel v (Volmeter.data d) (n1 + n2) false [])
    as (r & Hr & Hf & Hrem & Hu & _); try (fold a W; lia).
  fold a W in Hf, Hrem, Hu.
  exists r1, r2, r.
  unfold Volmeter.volmeter_process_audio_data. fold n1 n2. rewrite Hn.
  split; [exact Hr1 | split; [exact Hr2 | split; [exact Hr | ]]].
  assert (Hsplit : a + (n1 + n2) = ((a + n1) mod W + n2) + (a + n1) / W * W).
  { pose proof (Z.div_mod (a + n1) W ltac:(lia)). lia. }
  assert (Hq1 : 0 <= (a + n1) / W) by (apply Z.div_pos; lia).
  assert (Hq2 : 0 <= ((a + n1) mod W + n2) / W) by (apply Z.div_pos; lia).
  assert (Hq : (a + (n1 + n2)) / W
               = (a + n1) / W + ((a + n1) mod W + n2) / W).
  { rewrite Hsplit at 1. rewrite Z.div_add by lia. lia. }
  assert (Hr' : (a + (n1 + n2)) mod W = ((a + n1) mod W + n2) mod W).
  { rewrite Hsplit at 1. now rewrite Z.mod_add by lia. }
  cbn [app orb] in Hf1, Hf2, Hf, Hu1, Hu2, Hu.
  split; [ | split].
  - rewrite Hf1, Hf2, Hf, Hq, Z2Nat.inj_add by lia. now rewrite repeat_app.
  - now rewrite Hrem2, Hrem, Hr'.
  - rewrite Hu1, Hu2, Hu, Hq.
    destruct (Z.ltb_spec 0 ((a + n1) / W)),
             (Z.ltb_spec 0 (((a + n1) mod W + n2) / W)),
             (Z.ltb_spec 0 ((a + n1) / W + ((a + n1) mod W + n2) / W));
      try reflexivity; lia.
Qed.

Lemma split_buffers_same_windows_witness :
  exists r1 r2 r,
    Volmeter.volmeter_process_audio_data 21 meter_window_4 ten_frames = Some r1
    /\ Volmeter.volmeter_process_audio_data 21 (Volmeter.meter r1) ten_frames
       = Some r2
    /\ Volmeter.volmeter_process_audio_data 21 meter_window_4
         {| Volmeter.data := [Some (repeat F32.one 20)];
            Volmeter.frames := 20 |} = Some r
    /\ Volmeter.finalized r1 ++ Volmeter.finalized r2 = Volmeter.finalized r.
Proof.
  destruct (split_buffers_same_windows meter_window_4 ten_frames ten_frames
              {| Volmeter.data := [Some (repeat F32.one 20)];
                 Volmeter.frames := 20 |} 21)
    as (r1 & r2 & r & H1 & H2 & H3 & H4 & _).
  - cbn. lia.
  - reflexivity.
  - cbn. lia.
  - cbn. lia.
  - reflexivity.
  - reflexivity.
  - cbn. lia.
  - exists r1, r2, r. auto.
Defined.






Lemma process_loop_cur_db (fuel : nat) :
  forall v adata left upd log r,
    Volmeter.process_loop fuel v adata left upd log = Some r ->
    Volmeter.cur_db (Volmeter.meter r) = Volmeter.cur_db v.
Proof.
  induction fuel as [|fuel IH]; intros v adata left upd log r;
    cbn [Volmeter.process_loop]; destruct (left =? 0);
    try (intros [= <-]; reflexivity); try discriminate.
  destruct (Volmeter.volmeter_sum_and_max adata _ _ _) as [s m].
  destruct (negb _).
  - intros [= <-]. reflexivity.
  - intros H. apply IH in H. rewrite H.
    unfold Volmeter.volmeter_calc_ival_levels. now destruct (_ || _).
Qed.

Lemma mul_by_zero_gain (x : f32) :
  VolmeterApi.isfinite x = true -> F32.eqb (F32.mul x F32.zero) F32.zero = true.
Proof. destruct x as [s|s| |s m e]; try discriminate; reflexivity. Qed.

(** X12.  Once the source has signalled a volume of zero, every
    [levels_updated] signal of the meter carries the deflection 0 for level,
    magnitude and peak, on each of the three scales and whatever the C
    library computes, as long as the values of the meter are finite. *)
Theorem silent_source_publishes_zero (M : libm) (ty : Fader.obs_fader_type)
    (v0 v' : Volmeter.obs_volmeter) (mul : f32) (d : Volmeter.audio_data)
    (is_muted : bool) (fuel : nat) (out : option VolmeterApi.levels) :
  F32.eqb mul F32.zero = true ->
  VolmeterApi.volmeter_source_data_received M fuel ty
    (VolmeterApi.volmeter_source_volume_changed M v0 mul) d is_muted
  = Some (v', out) ->
  VolmeterApi.isfinite (Volmeter.vol_max v') = true ->
  VolmeterApi.isfinite (Volmeter.vol_mag v') = true ->
  VolmeterApi.isfinite (Volmeter.vol_peak v') = true ->
  Volmeter.cur_db v' = F32.neg_infinity
  /\ forall l, out = Some l ->
       VolmeterApi.level l = F32.zero
       /\ VolmeterApi.magnitude l = F32.zero
       /\ VolmeterApi.peak l = F32.zero
       /\ VolmeterApi.muted l = is_muted.
Proof.
  intros Hz Hrun Hmax Hmag Hpeak.
  unfold VolmeterApi.volmeter_source_data_received in Hrun.
  destruct (Volmeter.volmeter_process_audio_data fuel _ d) as [r|] eqn:Hr;
    [ | discriminate].
  apply process_loop_cur_db in Hr.
  assert (Hdb : Volmeter.cur_db (Volmeter.meter r) = F32.neg_infinity).
  { rewrite Hr. cbn. unfold Level.mul_to_db. now rewrite Hz. }
  assert (Hzero : VolmeterApi.db_to_pos M ty F32.neg_infinity = F32.zero).
  { destruct ty; cbn [VolmeterApi.db_to_pos].
    - apply (cubic_endpoints M).
    - apply iec_endpoints.
    - apply (log_endpoints M). }
  assert (Hlevel : forall x, VolmeterApi.isfinite x = true ->
            VolmeterApi.db_to_pos M ty
              (Level.mul_to_db M (F32.mul x (Level.db_to_mul M F32.neg_infinity)))
            = F32.zero).
  { intros x Hx. change (Level.db_to_mul M F32.neg_infinity) with F32.zero.
    unfold Level.mul_to_db. now rewrite (mul_by_zero_gain x Hx). }
  destruct (Volmeter.updated r); injection Hrun as <- <-.
  - split; [exact Hdb | ]. intros l [= <-].
    cbn [VolmeterApi.level VolmeterApi.magnitude VolmeterApi.peak
         VolmeterApi.muted].
    rewrite Hdb, !Hlevel by assumption. auto.
  - split; [exact Hdb | ]. intros l [=].
Qed.

Lemma silent_source_publishes_zero_witness :
  exists v' l,
    VolmeterApi.volmeter_source_data_received libm_points 11
      Fader.OBS_FADER_IEC
      (VolmeterApi.volmeter_source_volume_changed libm_points meter_window_4
         F32.neg_zero) ten_frames false = Some (v', Some l)
    /\ VolmeterApi.level l = F32.zero
    /\ VolmeterApi.peak l = F32.zero.
Proof.
  destruct
    (VolmeterApi.volmeter_source_data_received libm_points 11
       Fader.OBS_FADER_IEC
       (VolmeterApi.volmeter_source_volume_changed libm_points meter_window_4
          F32.neg_zero) ten_frames false) as [[v' [l|]]|] eqn:Hrun;
    try (vm_compute in Hrun; discriminate).
  exists v', l. split; [reflexivity | ].
  assert (Hv' : VolmeterApi.isfinite (Volmeter.vol_max v') = true
                /\ VolmeterApi.isfinite (Volmeter.vol_mag v') = true
                /\ VolmeterApi.isfinite (Volmeter.vol_peak v') = true).
  { vm_compute in Hrun. injection Hrun as <- _. repeat split. }
  destruct Hv' as (H1 & H2 & H3).
  destruct (silent_source_publishes_zero libm_points Fader.OBS_FADER_IEC
              meter_window_4 v' F32.neg_zero ten_frames false 11 (Some l)
              eq_refl Hrun H1 H2 H3) as (_ & Hl).
  destruct (Hl l eq_refl) as (Ha & _ & Hc & _). split; [exact Ha | exact Hc].
Defined.

(** ** Life cycle of an output *)

Lemma can_begin_ignores_total_frames (o : obs_output) (m : Lifecycle.media)
    (x : Z) (encoded has_video has_audio has_service : bool) :
  Lifecycle.can_begin_data_capture (Output.set_total_frames o x) m encoded
    has_video has_audio has_service
  = Lifecycle.can_begin_data_capture o m encoded has_video has_audio
      has_service.
Proof. reflexivity. Qed.

Lemma hook_data_capture_flags (o : obs_output) (encoded hv ha : bool) :
  let o' := Output.hook_data_capture o encoded hv ha in
  Output.reconnecting o' = Output.reconnecting o
  /\ Output.active o' = Output.active o
  /\ Output.total_frames o' = Output.total_frames o
  /\ Output.stopped o' = Output.stopped o
  /\ Output.reconnect_retry_sec o' = Output.reconnect_retry_sec o
  /\ Output.reconnect_retry_max o' = Output.reconnect_retry_max o.
Proof. destruct encoded; cbn; auto 10. Qed.

(** The one signal of a data capture that begins. *)
Lemma begin_data_capture_signal (o : obs_output) (m : Lifecycle.media)
    (fl : Z) :
  Lifecycle.obs_output_can_begin_data_capture (Some o) m fl = true ->
  snd (fst (Lifecycle.obs_output_begin_data_capture (Some o) m fl))
  = [if Output.reconnecting o then Output.signal_reconnect_success
     else Output.signal_start].
Proof.
  unfold Lifecycle.obs_output_begin_data_capture,
    Lifecycle.obs_output_can_begin_data_capture.
  destruct (Output.active o); [discriminate | ].
  unfold Lifecycle.convert_flags.
  cbn [Output.flags Output.set_total_frames].
  rewrite can_begin_ignores_total_frames. intros ->. cbn [negb].
  match goal with
  | |- context [Output.hook_data_capture ?a ?b ?c ?d] =>
      pose proof (hook_data_capture_flags a b c d) as Hh;
      set (oh := Output.hook_data_capture a b c d) in *
  end.
  cbv zeta in Hh. destruct Hh as (Hr & _).
  cbn [Output.set_total_frames Output.reconnecting] in Hr.
  change (Output.reconnecting (Output.set_active oh true))
    with (Output.reconnecting oh).
  rewrite Hr. now destruct (Output.reconnecting o).
Qed.

(** X13.  [obs_output_begin_data_capture] succeeds exactly when
    [obs_output_can_begin_data_capture] says it can.  When it fails it emits
    nothing and changes nothing, except that it has zeroed the frame count
    of an output that was not active.  When it succeeds the output is active
    and not reconnecting, its frame count is 0, exactly one signal was
    emitted ([reconnect_success] if the output was reconnecting, [start]
    otherwise), and a second call fails and changes nothing. *)
Theorem begin_data_capture_outcome (o : obs_output) (m : Lifecycle.media)
    (fl : Z) :
  let r := Lifecycle.obs_output_begin_data_capture (Some o) m fl in
  snd r = Lifecycle.obs_output_can_begin_data_capture (Some o) m fl
  /\ (snd r = false ->
      snd (fst r) = []
      /\ fst (fst r)
         = Some (if Output.active o then o else Output.set_total_frames o 0))
  /\ (snd r = true ->
      exists o',
        fst (fst r) = Some o'
        /\ Output.active o' = true
        /\ Output.reconnecting o' = false
        /\ Output.total_frames o' = 0
        /\ snd (fst r)
           = [if Output.reconnecting o then Output.signal_reconnect_success
              else Output.signal_start]
        /\ Output.obs_output_active (Some o') = true
        /\ forall fl',
             Lifecycle.obs_output_begin_data_capture (Some o') m fl'
             = (Some o', [], false)).
Proof.
  cbv zeta.
  unfold Lifecycle.obs_output_begin_data_capture,
    Lifecycle.obs_output_can_begin_data_capture.
  destruct (Output.active o) eqn:Hact.
  { cbn. split; [reflexivity | split; [auto | discriminate]]. }
  unfold Lifecycle.convert_flags.
  cbn [Output.flags Output.set_total_frames].
  rewrite can_begin_ignores_total_frames.
  set (encoded := negb (Z.land (Output.flags o) Output.OBS_OUTPUT_ENCODED =? 0)).
  set (fl0 := if fl =? 0 then Output.flags o else Z.land fl (Output.flags o)).
  set (hv := negb (Z.land fl0 Output.OBS_OUTPUT_VIDEO =? 0)).
  set (ha := negb (Z.land fl0 Output.OBS_OUTPUT_AUDIO =? 0)).
  set (hs := negb (Z.land fl0 Output.OBS_OUTPUT_SERVICE =? 0)).
  destruct (Lifecycle.can_begin_data_capture o m encoded hv ha hs) eqn:Hcan;
    cbn [negb].
  2: { cbn. split; [reflexivity | split; [auto | discriminate]]. }
  pose proof (hook_data_capture_flags (Output.set_total_frames o 0) encoded
                hv ha) as Hh.
  cbv zeta in Hh. destruct Hh as (Hrec & _ & Htf & _).
  cbn [Output.set_total_frames Output.reconnecting Output.total_frames]
    in Hrec, Htf.
  set (oh := Output.hook_data_capture (Output.set_total_frames o 0) encoded
               hv ha) in *.
  change (Output.reconnecting (Output.set_active oh true))
    with (Output.reconnecting oh).
  rewrite Hrec.
  destruct (Output.reconnecting o) eqn:Hr; cbn [fst snd];
    (split; [reflexivity | split; [discriminate | intros _]]);
    eexists; (split; [reflexivity | ]); cbn; rewrite ?Htf, ?Hrec; auto 10.
Qed.

(** X14.  A reconnect that succeeds closes the episode: when the data
    capture begins again on an output that is reconnecting, the output
    signals [reconnect_success]; whatever number of retries it took, the
    next disconnect opens a new episode whose first wait is
    [reconnect_retry_sec] again. *)
Theorem backoff_restarts_after_reconnect (o : obs_output)
    (m : Lifecycle.media) (fl : Z) :
  Output.reconnecting o = true ->
  Lifecycle.obs_output_can_begin_data_capture (Some o) m fl = true ->
  0 < Output.reconnect_retry_max o ->
  exists o',
    Lifecycle.obs_output_begin_data_capture (Some o) m fl
    = (Some o', [Output.signal_reconnect_success], true)
    /\ Output.obs_output_active (Some o') = true
    /\ next_failure o'
       = [Output.reconnect_thread_created (Output.reconnect_retry_sec o * 1000);
          Output.signal_reconnect (Output.reconnect_retry_sec o)]
    /\ Output.reconnect_retries (fst (fail o')) = 1.
Proof.
  intros Hrec Hcan Hmax.
  unfold Lifecycle.obs_output_begin_data_capture.
  unfold Lifecycle.obs_output_can_begin_data_capture in Hcan.
  destruct (Output.active o) eqn:Hact; [discriminate | ].
  unfold Lifecycle.convert_flags in *.
  cbn [Output.flags Output.set_total_frames].
  rewrite can_begin_ignores_total_frames, Hcan. cbn [negb].
  match goal with
  | |- context [Output.hook_data_capture ?a ?b ?c ?d] =>
      pose proof (hook_data_capture_flags a b c d) as Hh;
      set (oh := Output.hook_data_capture a b c d) in *
  end.
  cbv zeta in Hh. destruct Hh as (Hr & _ & _ & _ & Hsec & Hmx).
  cbn [Output.set_total_frames Output.reconnecting Output.reconnect_retry_sec
       Output.reconnect_retry_max] in Hr, Hsec, Hmx.
  change (Output.reconnecting (Output.set_active oh true))
    with (Output.reconnecting oh).
  rewrite Hr, Hrec.
  eexists. split; [reflexivity | ].
  set (o' := Output.set_reconnecting (Output.set_active oh true) false).
  split; [reflexivity | ].
  destruct (reconnect_first 0 o' eq_refl ltac:(lia))
    as (o2 & Ho2 & H1 & _).
  { change (Output.reconnect_retry_max o') with (Output.reconnect_retry_max oh).
    lia. }
  unfold next_failure, fail. rewrite Ho2. cbn [fst snd].
  change (Output.reconnect_retry_sec o') with (Output.reconnect_retry_sec oh).
  rewrite Hsec. split; [reflexivity | exact H1].
Qed.

Lemma backoff_restarts_after_reconnect_witness :
  exists o',
    Lifecycle.obs_output_begin_data_capture (Some reconnecting_output)
      no_media 0 = (Some o', [Output.signal_reconnect_success], true)
    /\ next_failure o'
       = [Output.reconnect_thread_created 2000; Output.signal_reconnect 2].
Proof.
  destruct (backoff_restarts_after_reconnect reconnecting_output no_media 0)
    as (o' & Ho' & _ & Hnext & _).
  - reflexivity.
  - reflexivity.
  - cbn. lia.
  - exists o'. split; [exact Ho' | exact Hnext].
Defined.

(** X15.  [obs_output_stop] does not close a reconnect episode.  An output
    stopped while it waits to reconnect is marked stopped, its stop signal
    carries the success code, and [obs_output_active] still answers true,
    also after the driver has ended the data capture and signalled a stop
    with the success code; when the output is started again and its data
    capture begins, it signals [reconnect_success] and not [start]. *)
Theorem stop_while_reconnecting_stays_active (o : obs_output)
    (thread_active : bool) (ret : Z) :
  Output.reconnecting o = true ->
  exists o1 steps o2 o3,
    Lifecycle.obs_output_stop thread_active (Some o) = (Some o1, steps)
    /\ Output.stopped o1 = true
    /\ In (Lifecycle.emit (Output.signal_stop Output.OBS_OUTPUT_SUCCESS)) steps
    /\ Output.obs_output_active (Some o1) = true
    /\ Output.obs_output_signal_stop ret (Some o1) Output.OBS_OUTPUT_SUCCESS
       = (Some o2, [Output.signal_stop Output.OBS_OUTPUT_SUCCESS])
    /\ Output.obs_output_active (Some o2) = true
    /\ Lifecycle.obs_output_start true (Some o2) = (Some o3, true)
    /\ Output.stopped o3 = false
    /\ forall m fl,
         Lifecycle.obs_output_can_begin_data_capture (Some o3) m fl = true ->
         snd (fst (Lifecycle.obs_output_begin_data_capture (Some o3) m fl))
         = [Output.signal_reconnect_success].
Proof.
  intros Hrec.
  eexists. eexists. eexists. eexists.
  split; [reflexivity | ].
  split; [reflexivity | ].
  split; [destruct thread_active; cbn; auto | ].
  split; [cbn; rewrite Hrec; apply orb_true_r | ].
  assert (Hstop :
    Output.obs_output_signal_stop ret (Some (Output.set_stopped o true))
      Output.OBS_OUTPUT_SUCCESS
    = (Some (Output.obs_output_end_data_capture (Output.set_stopped o true)),
       [Output.signal_stop Output.OBS_OUTPUT_SUCCESS])).
  { unfold Output.obs_output_signal_stop.
    change (Output.OBS_OUTPUT_SUCCESS =? Output.OBS_OUTPUT_SUCCESS) with true.
    change (Output.OBS_OUTPUT_SUCCESS =? Output.OBS_OUTPUT_DISCONNECTED)
      with false.
    cbn [negb]. now rewrite andb_false_r. }
  split; [exact Hstop | ].
  set (o2 := Output.obs_output_end_data_capture (Output.set_stopped o true)).
  assert (Hrec2 : Output.reconnecting o2 = true).
  { unfold o2, Output.obs_output_end_data_capture.
    destruct (negb _); cbn; exact Hrec. }
  split; [cbn; rewrite Hrec2; apply orb_true_r | ].
  split; [reflexivity | ].
  split; [reflexivity | ].
  intros m fl Hcan.
  refine (eq_trans
            (begin_data_capture_signal (Output.set_stopped o2 false) m fl Hcan)
            _).
  cbn [Output.set_stopped Output.reconnecting]. now rewrite Hrec2.
Qed.

Lemma stop_while_reconnecting_stays_active_witness :
  exists o1 steps,
    Lifecycle.obs_output_stop true (Some reconnecting_output)
    = (Some o1, steps)
    /\ Output.obs_output_active (Some o1) = true.
Proof.
  destruct (stop_while_reconnecting_stays_active reconnecting_output true 0
              eq_refl) as (o1 & steps & _ & _ & H1 & _ & _ & H2 & _).
  exists o1, steps. split; [exact H1 | exact H2].
Defined.




(** ** Encoder slots *)

Lemma nth_array_set_same {A} (l : list A) (i : nat) (x d : A) :
  (i < length l)%nat -> nth i (Output.array_set l i x) d = x.
Proof.
  revert i. induction l as [|a l IH]; intros [|i] H; cbn in *; try lia; auto.
  apply IH. lia.
Qed.

Lemma nth_array_set_other {A} (l : list A) (i j : nat) (x d : A) :
  j <> i -> nth j (Output.array_set l i x) d = nth j l d.
Proof.
  revert i j. induction l as [|a l IH]; intros [|i] [|j] H; cbn; auto;
    try congruence.
Qed.

Lemma same_encoder_eq (slot : option nat)
    (encoder : option Lifecycle.obs_encoder) :
  Lifecycle.same_encoder slot encoder = true ->
  slot = option_map Lifecycle.encoder_id encoder.
Proof.
  destruct slot, encoder; cbn; try discriminate; auto.
  intros H. apply Nat.eqb_eq in H. now subst.
Qed.

(** X17.  [obs_output_set_audio_encoder] and [obs_output_get_audio_encoder]
    agree on the slots.  When the encoder is NULL or an audio encoder and
    the index is accepted (below 4 on a multi-track output, 0 otherwise),
    the getter returns at that index what was set and at every other index
    what it returned before; a video encoder or any other index changes
    nothing, and the getter returns NULL at such an index. *)
Theorem audio_encoder_set_then_get (o : obs_output)
    (encoder : option Lifecycle.obs_encoder) (idx : nat) :
  length (Output.audio_encoders o) = Output.MAX_AUDIO_MIXES ->
  let o' := Lifecycle.obs_output_set_audio_encoder (Some o) encoder idx in
  let wrong_type :=
    match encoder with
    | Some en =>
        negb (Output.type_eqb (Lifecycle.encoder_type en)
                Output.OBS_ENCODER_AUDIO)
    | None => false
    end in
  (wrong_type = false -> Lifecycle.audio_idx_refused o idx = false ->
   Lifecycle.obs_output_get_audio_encoder o' idx
   = option_map Lifecycle.encoder_id encoder
   /\ forall j, j <> idx ->
        Lifecycle.obs_output_get_audio_encoder o' j
        = Lifecycle.obs_output_get_audio_encoder (Some o) j)
  /\ (wrong_type = true \/ Lifecycle.audio_idx_refused o idx = true ->
      o' = Some o)
  /\ (Lifecycle.audio_idx_refused o idx = true ->
      Lifecycle.obs_output_get_audio_encoder o' idx = None).
Proof.
  intros Hlen o' wrong_type. subst o'.
  unfold Lifecycle.obs_output_set_audio_encoder. fold wrong_type.
  split; [ | split].
  - intros Hty Hidx. rewrite Hty, Hidx.
    assert (Hlt : (idx < length (Output.audio_encoders o))%nat).
    { rewrite Hlen. unfold Lifecycle.audio_idx_refused in Hidx.
      destruct (Output.has_flag o Output.OBS_OUTPUT_MULTI_TRACK).
      - apply Nat.leb_gt in Hidx. exact Hidx.
      - apply Nat.ltb_ge in Hidx. unfold Output.MAX_AUDIO_MIXES. lia. }
    destruct (Lifecycle.same_encoder _ encoder) eqn:Hsame.
    + apply same_encoder_eq in Hsame.
      unfold Lifecycle.obs_output_get_audio_encoder. rewrite Hidx.
      split; [exact Hsame | reflexivity].
    + unfold Lifecycle.obs_output_get_audio_encoder.
      change (Lifecycle.audio_idx_refused (Lifecycle.set_audio_encoders o ?x))
        with (Lifecycle.audio_idx_refused o).
      rewrite Hidx. cbn [Lifecycle.set_audio_encoders Output.audio_encoders].
      split; [now apply nth_array_set_same | ].
      intros j Hj. now rewrite nth_array_set_other.
  - intros [Hty | Hidx].
    + now rewrite Hty.
    + rewrite Hidx. now destruct wrong_type.
  - intros Hidx. rewrite Hidx.
    destruct wrong_type; cbn; now rewrite Hidx.
Qed.

Lemma audio_encoder_set_then_get_witness :
  Lifecycle.obs_output_get_audio_encoder
    (Lifecycle.obs_output_set_audio_encoder (Some two_track_output)
       (Some audio_encoder_5) 3) 3 = Some 5%nat
  /\ Lifecycle.obs_output_set_audio_encoder (Some one_track_output)
       (Some audio_encoder_5) 1 = Some one_track_output.
Proof.
  split.
  - refine (proj1 (proj1 (audio_encoder_set_then_get two_track_output
                            (Some audio_encoder_5) 3 eq_refl) _ _));
      reflexivity.
  - refine (proj1 (proj2 (audio_encoder_set_then_get one_track_output
                            (Some audio_encoder_5) 1 eq_refl)) _).
    right. reflexivity.
Defined.

Lemma find_slot_spec (slots : list (option nat)) (e : nat) :
  forall i,
    match Output.find_slot slots e i with
    | Some k =>
        (i <= k < i + length slots)%nat
        /\ nth (k - i) slots None = Some e
        /\ forall j, (j < k - i)%nat -> nth j slots None <> Some e
    | None => ~ In (Some e) slots
    end.
Proof.
  induction slots as [|s slots IH]; intros i; cbn [Output.find_slot].
  - intros [].
  - destruct (Output.slot_holds s e) eqn:Hs.
    + replace (i - i)%nat with 0%nat by lia. cbn.
      destruct s as [e'|]; [ | discriminate]. cbn in Hs.
      apply Nat.eqb_eq in Hs. subst.
      split; [lia | split; [reflexivity | intros j Hj; lia]].
    + assert (Hne : s <> Some e).
      { intros ->. cbn in Hs. now rewrite Nat.eqb_refl in Hs. }
      specialize (IH (S i)).
      destruct (Output.find_slot slots e (S i)) as [k|].
      * destruct IH as (Hk & Hn & Hfirst).
        replace (k - i)%nat with (S (k - S i)) by lia. cbn [nth length].
        split; [lia | split; [exact Hn | ]].
        intros [|j] Hj; [exact Hne | ]. apply Hfirst. lia.
      * intros [H | H]; [congruence | now apply IH].
Qed.






Lemma count_mixes_filled (rest : list (option nat)) :
  forall pre,
    Lifecycle.slots_filled (pre ++ rest) (Output.count_mixes rest) (length pre)
    = true.
Proof.
  induction rest as [|[e|] rest IH]; intros pre; try reflexivity.
  cbn [Output.count_mixes Lifecycle.slots_filled].
  rewrite nth_middle. cbn [Lifecycle.is_null].
  specialize (IH (pre ++ [Some e])).
  rewrite <- app_assoc, length_app in IH. cbn in IH.
  now rewrite Nat.add_1_r in IH.
Qed.

Lemma count_mixes_le (slots : list (option nat)) :
  (Output.count_mixes slots <= length slots)%nat.
Proof.
  induction slots as [|[e|] slots IH]; cbn; lia.
Qed.

Lemma slots_filled_firstn (slots : list (option nat)) (n k : nat) :
  forall i, (i + n <= k)%nat ->
    Lifecycle.slots_filled (firstn k slots) n i
    = Lifecycle.slots_filled slots n i.
Proof.
  induction n as [|n IH]; intros i Hi; [reflexivity | ].
  cbn [Lifecycle.slots_filled]. rewrite nth_firstn.
  destruct (Nat.ltb_spec i k); [ | lia].
  destruct (Lifecycle.is_null _); [reflexivity | ]. apply IH. lia.
Qed.

Lemma slots_filled_nth (slots : list (option nat)) (n : nat) :
  forall j, Lifecycle.slots_filled slots n j = true ->
    forall i, (j <= i < j + n)%nat -> nth i slots None <> None.
Proof.
  induction n as [|n IH]; intros j H i Hi; [lia | ].
  cbn [Lifecycle.slots_filled] in H.
  destruct (nth j slots None) as [e|] eqn:Hj; cbn in H; [ | discriminate].
  destruct (Nat.eq_dec i j) as [-> | Hne]; [congruence | ].
  apply (IH (S j) H). lia.
Qed.

(** X20.  On an encoded output the audio is valid exactly when the first
    audio slot holds an encoder: the slots counted by [num_audio_mixes] are
    filled by construction.  The number of mixes is at most 4, and when the
    audio is valid it is not 0 and every slot below it holds an encoder. *)
Theorem encoded_audio_valid_iff_first_slot (o : obs_output)
    (m : Lifecycle.media) :
  Lifecycle.audio_valid o m true
  = negb (Lifecycle.is_null (nth 0 (Output.audio_encoders o) None))
  /\ (Output.num_audio_mixes o <= Output.MAX_AUDIO_MIXES)%nat
  /\ (Lifecycle.audio_valid o m true = true ->
      Output.num_audio_mixes o <> 0%nat
      /\ forall i, (i < Output.num_audio_mixes o)%nat ->
           nth i (Output.audio_encoders o) None <> None).
Proof.
  set (l := Output.audio_encoders o).
  assert (Hmulti :
    Lifecycle.slots_filled l
      (Output.count_mixes (firstn Output.MAX_AUDIO_MIXES l)) 0 = true).
  { rewrite <- (slots_filled_firstn l _ Output.MAX_AUDIO_MIXES).
    - apply (count_mixes_filled (firstn Output.MAX_AUDIO_MIXES l) []).
    - pose proof (count_mixes_le (firstn Output.MAX_AUDIO_MIXES l)).
      pose proof (firstn_le_length Output.MAX_AUDIO_MIXES l). lia. }
  assert (Hone : Lifecycle.slots_filled l 1 0
                 = negb (Lifecycle.is_null (nth 0 l None))).
  { cbn. now destruct (nth 0 l None). }
  assert (Hle : (Output.num_audio_mixes o <= Output.MAX_AUDIO_MIXES)%nat).
  { unfold Output.num_audio_mixes. fold l.
    destruct (_ && _); [unfold Output.MAX_AUDIO_MIXES; lia | ].
    destruct (Output.has_flag _ _); [ | unfold Output.MAX_AUDIO_MIXES; lia].
    pose proof (count_mixes_le (firstn Output.MAX_AUDIO_MIXES l)).
    pose proof (firstn_le_length Output.MAX_AUDIO_MIXES l). lia. }
  assert (Hval : Lifecycle.audio_valid o m true
                 = negb (Lifecycle.is_null (nth 0 l None))).
  { unfold Lifecycle.audio_valid, Output.num_audio_mixes. fold l.
    destruct (_ && _); [exact Hone | ].
    destruct (Output.has_flag _ _); [ | exact Hone].
    rewrite Hmulti.
    destruct l as [|[e|] r]; reflexivity. }
  split; [exact Hval | split; [exact Hle | ]].
  intros Hv. unfold Lifecycle.audio_valid in Hv. fold l in Hv.
  destruct (Nat.eqb_spec (Output.num_audio_mixes o) 0); [discriminate | ].
  split; [assumption | ].
  intros i Hi. apply (slots_filled_nth l _ 0 Hv). lia.
Qed.

(** ** More of the interleaver *)

Lemma same_setup_refl (o : obs_output) : same_setup o o.
Proof. unfold same_setup. repeat split. Qed.

Lemma same_setup_trans (o1 o2 o3 : obs_output) :
  same_setup o1 o2 -> same_setup o2 o3 -> same_setup o1 o3.
Proof.
  unfold same_setup.
  intros (A1 & A2 & A3 & A4 & A5 & A6 & A7) (B1 & B2 & B3 & B4 & B5 & B6 & B7).
  repeat split; congruence.
Qed.

Lemma kept_refl (o : obs_output) : kept o o.
Proof. split; [apply same_setup_refl | reflexivity]. Qed.

Lemma kept_trans (o1 o2 o3 : obs_output) :
  kept o1 o2 -> kept o2 o3 -> kept o1 o3.
Proof.
  intros (A & Ha) (B & Hb).
  split; [eapply same_setup_trans; eassumption | congruence].
Qed.

Lemma check_received_kept (o : obs_output) (p : encoder_packet) :
  kept o (Output.check_received o p).
Proof.
  unfold Output.check_received, kept, same_setup.
  destruct (Output.type p); destruct (negb _); repeat split.
Qed.

Lemma insert_kept (o : obs_output) (p : encoder_packet) :
  kept o (Output.insert_interleaved_packet o p).
Proof. unfold kept, same_setup. repeat split. Qed.

Lemma set_higher_ts_kept (o : obs_output) (p : encoder_packet) :
  kept o (Output.set_higher_ts o p).
Proof.
  unfold Output.set_higher_ts, kept, same_setup.
  destruct (Output.type p); destruct (_ <? _); repeat split.
Qed.

Lemma prune_kept (o : obs_output) :
  kept o (Output.prune_interleaved_packets o).
Proof.
  unfold Output.prune_interleaved_packets, kept, same_setup.
  destruct (negb _); repeat split.
Qed.

Lemma initialize_kept (o o' : obs_output) (b : bool) :
  Output.initialize_interleaved_packets o = Some (o', b) -> kept o o'.
Proof.
  unfold Output.initialize_interleaved_packets, kept, same_setup.
  destruct (Output.find_first_packet_type o Output.OBS_ENCODER_VIDEO 0);
    destruct (Output.first_audio_packets _ _ 0) as [[|a0 audio]|];
    intros [= <- <-]; repeat split.
Qed.

Lemma resort_kept (o : obs_output) :
  kept o (Output.resort_interleaved_packets o).
Proof.
  unfold Output.resort_interleaved_packets.
  rewrite resort_insertion_sort. unfold kept, same_setup. repeat split.
Qed.

Lemma send_setup (o : obs_output) :
  same_setup o (fst (Output.send_interleaved o)).
Proof.
  unfold Output.send_interleaved, same_setup.
  destruct (Output.interleaved_packets o) as [|out rest]; [repeat split | ].
  destruct (negb _); [repeat split | ].
  destruct (Output.type out); repeat split.
Qed.

Lemma same_setup_mixes (o o' : obs_output) :
  same_setup o o' -> Output.num_audio_mixes o' = Output.num_audio_mixes o.
Proof.
  intros (H1 & H2 & _ & H4 & _).
  unfold Output.num_audio_mixes, Output.has_flag,
    Output.service_supports_multitrack.
  now rewrite H1, H2, H4.
Qed.

Lemma same_setup_track (o o' : obs_output) (p : encoder_packet) :
  same_setup o o' -> with_track_index o' p = with_track_index o p.
Proof.
  intros (_ & _ & _ & H4 & _).
  unfold with_track_index, Output.get_track_index. now rewrite H4.
Qed.

(** What one call of [send_interleaved] passes on. *)
Lemma send_interleaved_sent (o : obs_output) :
  let r := Output.send_interleaved o in
  (length (snd r) <= 1)%nat
  /\ (Output.stopped o = true -> snd r = [])
  /\ (Output.stopped o = false ->
      Output.total_frames (fst r) = Output.total_frames o + video_count (snd r)).
Proof.
  cbv zeta. unfold Output.send_interleaved, video_count.
  destruct (Output.interleaved_packets o) as [|out rest] eqn:Hb.
  - cbn. split; [lia | split; [auto | intros _; lia]].
  - destruct (negb _).
    + cbn. split; [lia | split; [auto | intros _; lia]].
    + destruct (Output.type out) eqn:Hty; cbn;
        destruct (Output.stopped o); cbn; rewrite ?Hty; cbn;
          (split; [lia | split; [auto; discriminate | ]]);
          try discriminate; intros _; lia.
Qed.

(** One call of [interleave_packets], step by step. *)
Lemma interleave_packets_steps (o : obs_output) (p : encoder_packet) :
  Output.interleave_packets o p
  = match with_track_index o p with
    | None => None
    | Some q =>
        if Output.received_audio o && Output.received_video o then
          let out := Output.apply_interleaved_packet_offset o q in
          let o3 :=
            Output.set_higher_ts (Output.insert_interleaved_packet o out) out in
          if Output.received_audio o3 && Output.received_video o3
          then Some (Output.send_interleaved o3)
          else Some (o3, [])
        else
          let o3 :=
            Output.set_higher_ts
              (Output.insert_interleaved_packet (Output.check_received o q) q)
              q in
          if Output.received_audio o3 && Output.received_video o3 then
            match
              Output.initialize_interleaved_packets
                (Output.prune_interleaved_packets o3)
            with
            | None => None
            | Some (o5, true) =>
                Some (Output.send_interleaved
                        (Output.resort_interleaved_packets o5))
            | Some (o5, false) => Some (o5, [])
            end
          else Some (o3, [])
    end.
Proof.
  unfold Output.interleave_packets, with_track_index.
  destruct (match Output.type p with
            | Output.OBS_ENCODER_AUDIO => _
            | Output.OBS_ENCODER_VIDEO => _
            end) as [q|]; [ | reflexivity].
  destruct (Output.received_audio o && Output.received_video o); reflexivity.
Qed.

(** What a call leaves alone, and where what it passes on comes from. *)
Lemma interleave_packets_cases (o o' : obs_output) (p : encoder_packet)
    (sent : list encoder_packet) :
  Output.interleave_packets o p = Some (o', sent) ->
  same_setup o o'
  /\ ((sent = [] /\ kept o o')
      \/ exists ox, kept o ox /\ Output.send_interleaved ox = (o', sent)).
Proof.
  rewrite interleave_packets_steps.
  destruct (with_track_index o p) as [q|]; [ | discriminate].
  destruct (Output.received_audio o && Output.received_video o); cbv zeta.
  - set (out := Output.apply_interleaved_packet_offset o q).
    set (o3 := Output.set_higher_ts (Output.insert_interleaved_packet o out) out).
    assert (H3 : kept o o3).
    { eapply kept_trans; [apply insert_kept | apply set_higher_ts_kept]. }
    destruct (_ && _);
      [intros [= H] | intros [= <- <-]; split; [apply H3 | left; auto]].
    pose proof (send_setup o3) as Hs. rewrite H in Hs. cbn in Hs.
    split; [eapply same_setup_trans; [apply H3 | exact Hs] | ].
    right. exists o3. auto.
  - set (o3 := Output.set_higher_ts _ q).
    assert (H3 : kept o o3).
    { eapply kept_trans; [apply check_received_kept | ].
      eapply kept_trans; [apply insert_kept | apply set_higher_ts_kept]. }
    destruct (_ && _).
    2: { intros [= <- <-]. split; [apply H3 | left; auto]. }
    pose proof (prune_kept o3) as H4.
    destruct (Output.initialize_interleaved_packets _) as [[o5 [|]]|] eqn:Hi;
      [ | | discriminate].
    + apply initialize_kept in Hi.
      assert (H5 : kept o (Output.resort_interleaved_packets o5)).
      { eapply kept_trans; [exact H3 | ].
        eapply kept_trans; [exact H4 | ].
        eapply kept_trans; [exact Hi | apply resort_kept]. }
      intros [= H].
      pose proof (send_setup (Output.resort_interleaved_packets o5)) as Hs.
      rewrite H in Hs. cbn in Hs.
      split; [eapply same_setup_trans; [apply H5 | exact Hs] | ].
      right. eexists. split; [exact H5 | exact H].
    + apply initialize_kept in Hi. intros [= <- <-].
      assert (H5 : kept o o5).
      { eapply kept_trans; [exact H3 | ].
        eapply kept_trans; [exact H4 | exact Hi]. }
      split; [apply H5 | left; auto].
Qed.

Lemma interleave_packets_sent (o o' : obs_output) (p : encoder_packet)
    (sent : list encoder_packet) :
  Output.interleave_packets o p = Some (o', sent) ->
  (length sent <= 1)%nat
  /\ (Output.stopped o = true -> sent = [])
  /\ (Output.stopped o = false ->
      Output.total_frames o' = Output.total_frames o + video_count sent).
Proof.
  intros H. destruct (interleave_packets_cases o o' p sent H)
    as (_ & [(-> & _ & Hk) | (ox & (Hx & Hk) & Hs)]).
  - cbn. split; [lia | split; [auto | ]]. intros _. rewrite Hk.
    unfold video_count. cbn. lia.
  - pose proof (send_interleaved_sent ox) as Hsent. cbv zeta in Hsent.
    rewrite Hs in Hsent. cbn in Hsent. destruct Hsent as (H1 & H2 & H3).
    destruct Hx as (_ & _ & _ & _ & Hst & _).
    split; [exact H1 | split].
    + intros Hs0. apply H2. congruence.
    + intros Hs0. rewrite H3 by congruence. now rewrite Hk.
Qed.

(** X21.  A stopped output passes nothing downstream.  After
    [obs_output_stop] has marked the output, no call of the interleaver, of
    the plain encoded callback or of the raw video callback hands a packet
    or a frame to the driver, however many arrive; the plain callbacks go on
    counting the video frames. *)
Theorem stopped_output_passes_nothing (o : obs_output) :
  Output.stopped o = true ->
  (forall pkts o' sent,
     Output.deliver o pkts = Some (o', sent) ->
     sent = [] /\ Output.stopped o' = true)
  /\ (forall p o' sent,
        Lifecycle.default_encoded_callback o p = Some (o', sent) ->
        sent = []
        /\ Output.total_frames o'
           = match Output.type p with
             | Output.OBS_ENCODER_VIDEO => Output.total_frames o + 1
             | Output.OBS_ENCODER_AUDIO => Output.total_frames o
             end)
  /\ (forall (frame_t : Type) (frame : frame_t),
        Lifecycle.default_raw_video_callback o frame
        = (Output.set_total_frames o (Output.total_frames o + 1), [])).
Proof.
  intros Hst. split; [ | split].
  - intros pkts. revert o Hst.
    induction pkts as [|p pkts IH]; intros o Hst o' sent; cbn [Output.deliver].
    + intros [= <- <-]. auto.
    + destruct (Output.interleave_packets o p) as [[o1 sent1]|] eqn:H1;
        [ | discriminate].
      destruct (Output.deliver o1 pkts) as [[o2 sent2]|] eqn:H2;
        [ | discriminate].
      intros [= <- <-].
      destruct (interleave_packets_sent o o1 p sent1 H1) as (_ & Hs1 & _).
      destruct (interleave_packets_cases o o1 p sent1 H1)
        as ((_ & _ & _ & _ & Hst1 & _) & _).
      rewrite Hst in Hst1.
      destruct (IH o1 Hst1 o2 sent2 H2) as (-> & Hst2).
      rewrite (Hs1 Hst). auto.
  - intros p o' sent. unfold Lifecycle.default_encoded_callback.
    destruct (match Output.type p with
              | Output.OBS_ENCODER_AUDIO => _
              | Output.OBS_ENCODER_VIDEO => _
              end) as [q|] eqn:Hq; [ | discriminate].
    rewrite Hst. cbn [negb]. intros [= <- <-]. split; [reflexivity | ].
    assert (Hty : Output.type q = Output.type p).
    { destruct (Output.type p) eqn:Hp.
      - destruct (Output.get_track_index o p); [ | discriminate].
        injection Hq as <-. cbn. now rewrite Hp.
      - injection Hq as <-. now rewrite Hp. }
    rewrite Hty. now destruct (Output.type p).
  - intros frame_t frame. unfold Lifecycle.default_raw_video_callback.
    now rewrite Hst.
Qed.

Lemma stopped_output_passes_nothing_witness :
  exists o',
    Output.deliver
      (Output.set_stopped
         (Output.hook_data_capture one_track_output true true true) true)
      in_order_arrivals = Some (o', []).
Proof.
  destruct (Output.deliver
              (Output.set_stopped
                 (Output.hook_data_capture one_track_output true true true)
                 true) in_order_arrivals) as [[o' sent]|] eqn:H;
    [ | vm_compute in H; discriminate].
  exists o'.
  now rewrite (proj1 (proj1 (stopped_output_passes_nothing
                               (Output.set_stopped
                                  (Output.hook_data_capture one_track_output
                                     true true true) true) eq_refl)
                        in_order_arrivals o' sent H)).
Defined.

Lemma insert_packet_perm (out : encoder_packet) (l : list encoder_packet) :
  Permutation (Output.insert_packet out l) (out :: l).
Proof.
  induction l as [|a l IH]; cbn; [reflexivity | ].
  destruct (_ <? _); [reflexivity | ].
  rewrite IH. apply perm_swap.
Qed.

Lemma insertion_sort_perm (l acc : list encoder_packet) :
  Permutation (insertion_sort l acc) (acc ++ l).
Proof.
  revert acc. induction l as [|a l IH]; intros acc;
    cbn [insertion_sort fold_left].
  - now rewrite app_nil_r.
  - fold (insertion_sort l (Output.insert_packet a acc)).
    rewrite IH, insert_packet_perm. apply Permutation_middle.
Qed.

Lemma insert_packet_last (a : encoder_packet) (acc : list encoder_packet) :
  Forall (fun x => usec_le x a) acc -> Output.insert_packet a acc = acc ++ [a].
Proof.
  induction 1 as [|c acc Hc _ IH]; cbn; [reflexivity | ].
  unfold usec_le in Hc.
  destruct (Z.ltb_spec (Output.dts_usec a) (Output.dts_usec c)); [lia | ].
  now rewrite IH.
Qed.

Lemma sorted_usec_app (acc : list encoder_packet) (a : encoder_packet)
    (r : list encoder_packet) :
  sorted_usec (acc ++ a :: r) -> Forall (fun x => usec_le x a) acc.
Proof.
  unfold sorted_usec. induction acc as [|c acc IH]; cbn; intros Hs;
    [constructor | ].
  inversion Hs as [|? ? Hl Hc]; subst. constructor; [ | now apply IH].
  rewrite Forall_forall in Hc. apply Hc. apply in_or_app. right. now left.
Qed.

Lemma insertion_sort_sorted_id (l acc : list encoder_packet) :
  sorted_usec (acc ++ l) -> insertion_sort l acc = acc ++ l.
Proof.
  revert acc. induction l as [|a l IH]; intros acc Hs;
    cbn [insertion_sort fold_left].
  - now rewrite app_nil_r.
  - fold (insertion_sort l (Output.insert_packet a acc)).
    rewrite (insert_packet_last a acc) by (eapply sorted_usec_app; eassumption).
    rewrite IH; rewrite <- app_assoc; [reflexivity | exact Hs].
Qed.

(** X22.  [resort_interleaved_packets] sorts the buffer: afterwards the
    buffer holds the same packets in the order of their microsecond
    timestamps, nothing else of the output has changed, and a buffer that
    was in that order already is left as it is (packets of equal
    timestamp keep their order). *)
Theorem resort_sorts_the_buffer (o : obs_output) :
  let o' := Output.resort_interleaved_packets o in
  sorted_usec (Output.interleaved_packets o')
  /\ Permutation (Output.interleaved_packets o') (Output.interleaved_packets o)
  /\ o' = Output.set_interleaved_packets o (Output.interleaved_packets o')
  /\ (sorted_usec (Output.interleaved_packets o) ->
      Output.interleaved_packets o' = Output.interleaved_packets o).
Proof.
  cbv zeta. unfold Output.resort_interleaved_packets.
  rewrite resort_insertion_sort.
  cbn [Output.set_interleaved_packets Output.interleaved_packets].
  split; [apply insertion_sort_sorted; constructor | ].
  split; [apply (insertion_sort_perm _ []) | ].
  split; [reflexivity | ].
  intros Hs. now apply (insertion_sort_sorted_id _ []).
Qed.

(** X23.  Once both streams are received, a call of [interleave_packets] on
    an output that is not stopped loses no packet and makes none up: the
    packets of the buffer and the packet passed on, if any, are the
    packets the buffer held plus the arriving one with its offset applied.
    A buffer in timestamp order stays in timestamp order, and the packet
    passed on is the one that was first in it: no packet left in the buffer
    has a lower timestamp, and the high-water-mark of the other stream is
    above its timestamp. *)
Theorem started_call_keeps_every_packet (o o' : obs_output)
    (p : encoder_packet) (sent : list encoder_packet) :
  Output.received_audio o = true ->
  Output.received_video o = true ->
  Output.stopped o = false ->
  sorted_usec (Output.interleaved_packets o) ->
  Output.interleave_packets o p = Some (o', sent) ->
  exists q,
    with_track_index o p = Some q
    /\ Permutation (sent ++ Output.interleaved_packets o')
         (Output.apply_interleaved_packet_offset o q
          :: Output.interleaved_packets o)
    /\ sorted_usec (Output.interleaved_packets o')
    /\ (length sent <= 1)%nat
    /\ (forall s, In s sent ->
          Output.has_higher_opposing_ts o' s = true
          /\ forall x, In x (Output.interleaved_packets o') ->
               Output.dts_usec s <= Output.dts_usec x)
    /\ Output.received_audio o' = true
    /\ Output.received_video o' = true.
Proof.
  intros Hra Hrv Hst Hsorted. rewrite interleave_packets_steps.
  destruct (with_track_index o p) as [q|]; [ | discriminate].
  rewrite Hra, Hrv. cbn [andb]. cbv zeta.
  set (out := Output.apply_interleaved_packet_offset o q).
  set (o3 := Output.set_higher_ts (Output.insert_interleaved_packet o out) out).
  assert (Hb3 : Output.interleaved_packets o3
                = Output.insert_packet out (Output.interleaved_packets o)).
  { unfold o3, Output.set_higher_ts.
    destruct (Output.type out); destruct (_ <? _); reflexivity. }
  assert (Hr3 : Output.received_audio o3 = true
                /\ Output.received_video o3 = true
                /\ Output.stopped o3 = false).
  { unfold o3, Output.set_higher_ts.
    destruct (Output.type out); destruct (_ <? _); cbn; auto. }
  destruct Hr3 as (Hra3 & Hrv3 & Hst3). rewrite Hra3, Hrv3. cbn [andb].
  assert (Hs3 : sorted_usec (Output.interleaved_packets o3)).
  { rewrite Hb3. now apply insert_packet_sorted. }
  assert (Hp3 : Permutation (Output.interleaved_packets o3)
                  (out :: Output.interleaved_packets o)).
  { rewrite Hb3. apply insert_packet_perm. }
  clearbody o3. intros H. exists q. split; [reflexivity | ].
  revert H. unfold Output.send_interleaved.
  destruct (Output.interleaved_packets o3) as [|h rest] eqn:Hbuf.
  { intros [= <- <-]. cbn [app]. rewrite Hbuf.
    split; [exact Hp3 | split; [exact Hs3 | ]].
    split; [cbn; lia | split; [intros s [] | auto]]. }
  destruct (Output.has_higher_opposing_ts o3 h) eqn:Hhigh; cbn [negb].
  2: { intros [= <- <-]. cbn [app]. rewrite Hbuf.
       split; [exact Hp3 | split; [exact Hs3 | ]].
       split; [cbn; lia | split; [intros s [] | auto]]. }
  assert (Hrest : sorted_usec rest /\ forall x, In x rest ->
                    Output.dts_usec h <= Output.dts_usec x).
  { unfold sorted_usec in Hs3. inversion Hs3 as [|? ? Hl Hh]; subst.
    split; [exact Hl | ]. rewrite Forall_forall in Hh. exact Hh. }
  destruct Hrest as (Hsr & Hmin).
  unfold Output.has_higher_opposing_ts in Hhigh.
  destruct (Output.type h) eqn:Hty; intros [= <- <-];
    cbn [Output.stopped Output.set_interleaved_packets
         Output.set_total_frames Output.interleaved_packets
         Output.received_audio Output.received_video];
    rewrite Hst3; cbn [negb app];
    (split; [exact Hp3 | ]); (split; [exact Hsr | ]);
    (split; [cbn; lia | ]);
    (split; [ | auto]);
    intros s [<- | []]; (split; [ | exact Hmin]);
    unfold Output.has_higher_opposing_ts; rewrite Hty; exact Hhigh.
Qed.

Lemma started_call_keeps_every_packet_witness :
  exists o' sent q,
    Output.interleave_packets started_output (audio_packet 23)
    = Some (o', sent)
    /\ Permutation (sent ++ Output.interleaved_packets o')
         (Output.apply_interleaved_packet_offset started_output q
          :: Output.interleaved_packets started_output)
    /\ sorted_usec (Output.interleaved_packets o').
Proof.
  destruct (Output.interleave_packets started_output (audio_packet 23))
    as [[o' sent]|] eqn:H; [ | vm_compute in H; discriminate].
  assert (Hs : sorted_usec (Output.interleaved_packets started_output)).
  { change (Output.interleaved_packets started_output)
      with [video_packet 0; audio_packet 0; video_packet 33].
    unfold sorted_usec, usec_le. repeat constructor; cbn; lia. }
  destruct (started_call_keeps_every_packet started_output o'
              (audio_packet 23) sent eq_refl eq_refl eq_refl Hs H)
    as (q & _ & Hperm & Hsorted & _).
  exists o', sent, q. split; [reflexivity | split; assumption].
Defined.

Lemma can_prune_bound (o : obs_output) (idx : nat) :
  Output.can_prune_interleaved_packet o idx = true ->
  (S idx < length (Output.interleaved_packets o))%nat
  /\ exists p, nth_error (Output.interleaved_packets o) idx = Some p
               /\ Output.type p = Output.OBS_ENCODER_AUDIO.
Proof.
  unfold Output.can_prune_interleaved_packet.
  destruct (Nat.eqb_spec (length (Output.interleaved_packets o)) 0);
    [discriminate | ].
  destruct (Nat.leb_spec (length (Output.interleaved_packets o) - 1) idx);
    [discriminate | ].
  destruct (nth_error (Output.interleaved_packets o) idx) as [p|];
    [ | discriminate].
  destruct (Output.type p) eqn:Hty; cbn; [ | discriminate].
  intros _. split; [lia | ]. exists p. auto.
Qed.

Lemma prune_scan_spec (o : obs_output) (fuel : nat) :
  forall i,
    let k := Output.prune_scan fuel o i in
    (i <= k <= i + fuel)%nat
    /\ (forall j, (i <= j < k)%nat ->
          Output.can_prune_interleaved_packet o j = true)
    /\ ((k < i + fuel)%nat ->
        Output.can_prune_interleaved_packet o k = false).
Proof.
  induction fuel as [|fuel IH]; intros i; cbn [Output.prune_scan].
  - split; [lia | split; intros; lia].
  - destruct (Output.can_prune_interleaved_packet o i) eqn:Hc.
    + destruct (IH (S i)) as (H1 & H2 & H3).
      split; [lia | split].
      * intros j Hj. destruct (Nat.eq_dec j i) as [-> | Hne]; [exact Hc | ].
        apply H2. lia.
      * intros Hk. apply H3. lia.
    + split; [lia | split; [intros; lia | auto]].
Qed.

Lemma can_prune_skipn (o : obs_output) (k i : nat) :
  Output.can_prune_interleaved_packet
    (Output.set_interleaved_packets o (skipn k (Output.interleaved_packets o)))
    i
  = Output.can_prune_interleaved_packet o (k + i).
Proof.
  unfold Output.can_prune_interleaved_packet.
  cbn [Output.set_interleaved_packets Output.interleaved_packets].
  set (l := Output.interleaved_packets o).
  rewrite length_skipn, !nth_error_skipn.
  replace (k + S i)%nat with (S (k + i)) by lia.
  destruct (Nat.eqb_spec (length l - k) 0) as [H0 | H0].
  - destruct (Nat.eqb_spec (length l) 0); [reflexivity | ].
    destruct (Nat.leb_spec (length l - 1) (k + i)); [reflexivity | lia].
  - destruct (Nat.eqb_spec (length l) 0); [lia | ].
    destruct (Nat.leb_spec (length l - k - 1) i),
             (Nat.leb_spec (length l - 1) (k + i)); try lia; reflexivity.
Qed.

(** X24.  [prune_interleaved_packets] only drops audio packets from the
    front of the buffer: what is left is the buffer without its first [k]
    packets, each of them an audio packet.  Every video packet is kept, a
    buffer that holds a packet still holds one afterwards, and pruning a
    second time drops nothing more. *)
Theorem prune_drops_leading_audio_only (o : obs_output) :
  let l := Output.interleaved_packets o in
  let o' := Output.prune_interleaved_packets o in
  exists k,
    Output.interleaved_packets o' = skipn k l
    /\ (forall p, In p (firstn k l) ->
          Output.type p = Output.OBS_ENCODER_AUDIO)
    /\ (forall p, In p l -> Output.type p = Output.OBS_ENCODER_VIDEO ->
          In p (Output.interleaved_packets o'))
    /\ (l <> [] -> Output.interleaved_packets o' <> [])
    /\ Output.prune_interleaved_packets o' = o'.
Proof.
  intros l o'.
  set (k := Output.prune_scan (length l) o 0).
  destruct (prune_scan_spec o (length l) 0) as (Hk & Htrue & Hfalse).
  fold k in Hk, Htrue, Hfalse.
  assert (Hbuf : Output.interleaved_packets o' = skipn k l).
  { unfold o', Output.prune_interleaved_packets. fold l k.
    destruct (Nat.eqb_spec k 0) as [-> | Hne]; reflexivity. }
  assert (Haudio : forall p, In p (firstn k l) ->
            Output.type p = Output.OBS_ENCODER_AUDIO).
  { intros p Hin. apply In_nth_error in Hin. destruct Hin as (j & Hj).
    rewrite nth_error_firstn in Hj.
    destruct (Nat.ltb_spec j k) as [Hjk | Hjk]; [ | discriminate].
    destruct (can_prune_bound o j (Htrue j ltac:(lia))) as (_ & p' & Hp' & Hty).
    fold l in Hp'. congruence. }
  assert (Hstop : Output.can_prune_interleaved_packet o k = false).
  { destruct (Nat.lt_ge_cases k (length l)) as [Hlt | Hge];
      [apply Hfalse; lia | ].
    destruct (Output.can_prune_interleaved_packet o k) eqn:Hc;
      [ | reflexivity].
    apply can_prune_bound in Hc. fold l in Hc. lia. }
  exists k. split; [exact Hbuf | split; [exact Haudio | split; [ | split]]].
  - intros p Hin Hty. rewrite Hbuf.
    rewrite <- (firstn_skipn k l) in Hin. apply in_app_or in Hin.
    destruct Hin as [Hin | Hin]; [ | exact Hin].
    apply Haudio in Hin. congruence.
  - intros Hne. rewrite Hbuf. intros Hnil.
    assert (Hlen : (length l <= k)%nat).
    { pose proof (length_skipn k l) as Hsk. rewrite Hnil in Hsk.
      cbn in Hsk. lia. }
    assert (Hpos : length l <> 0%nat)
      by (intros H0; apply length_zero_iff_nil in H0; contradiction).
    assert (Hc : Output.can_prune_interleaved_packet o (length l - 1) = true)
      by (apply Htrue; lia).
    apply can_prune_bound in Hc. fold l in Hc. lia.
  - assert (Hzero : Output.can_prune_interleaved_packet o' 0 = false).
    { unfold o', Output.prune_interleaved_packets. fold l k.
      destruct (Nat.eqb_spec k 0) as [H0 | Hne]; cbn [negb].
      - rewrite <- H0. exact Hstop.
      - unfold l. rewrite can_prune_skipn, Nat.add_0_r. exact Hstop. }
    unfold Output.prune_interleaved_packets at 1.
    destruct (length (Output.interleaved_packets o')) as [|n];
      cbn [Output.prune_scan]; [reflexivity | ].
    now rewrite Hzero.
Qed.

Lemma first_audio_packets_length (o : obs_output) (n : nat) :
  forall i audio,
    Output.first_audio_packets o n i = Some audio -> length audio = n.
Proof.
  induction n as [|n IH]; intros i audio; cbn [Output.first_audio_packets].
  - now intros [= <-].
  - destruct (Output.find_first_packet_type o _ i) as [a|]; [ | discriminate].
    destruct (Output.first_audio_packets o n (S i)) as [r|] eqn:Hr;
      [ | discriminate].
    intros [= <-]. cbn. f_equal. now apply (IH (S i)).
Qed.

Lemma initialize_returns (o : obs_output) :
  Output.num_audio_mixes o <> 0%nat ->
  Output.initialize_interleaved_packets o <> None.
Proof.
  intros Hn. unfold Output.initialize_interleaved_packets.
  destruct (Output.find_first_packet_type o Output.OBS_ENCODER_VIDEO 0).
  - destruct (Output.first_audio_packets o _ 0) as [[|a0 audio]|] eqn:Ha;
      try discriminate.
    apply first_audio_packets_length in Ha. cbn in Ha. congruence.
  - destruct (Output.first_audio_packets _ _ 0); discriminate.
Qed.

Lemma interleave_packets_returns (o : obs_output) (p : encoder_packet) :
  Output.num_audio_mixes o <> 0%nat ->
  with_track_index o p <> None ->
  Output.interleave_packets o p <> None.
Proof.
  intros Hn Hq. rewrite interleave_packets_steps.
  destruct (with_track_index o p) as [q|]; [ | congruence].
  destruct (Output.received_audio o && Output.received_video o); cbv zeta.
  - destruct (_ && _); discriminate.
  - set (o3 := Output.set_higher_ts _ q).
    assert (H3 : same_setup o (Output.prune_interleaved_packets o3)).
    { eapply kept_trans; [apply check_received_kept | ].
      eapply kept_trans; [apply insert_kept | ].
      eapply kept_trans; [apply set_higher_ts_kept | ].
      apply prune_kept. }
    destruct (_ && _); [ | discriminate].
    pose proof (initialize_returns (Output.prune_interleaved_packets o3)) as Hi.
    rewrite (same_setup_mixes _ _ H3) in Hi. specialize (Hi Hn).
    destruct (Output.initialize_interleaved_packets _) as [[o5 [|]]|];
      [discriminate | discriminate | congruence].
Qed.

Lemma known_encoder_track (o : obs_output) (p : encoder_packet) :
  from_known_encoder o p -> with_track_index o p <> None.
Proof.
  unfold from_known_encoder, with_track_index, Output.get_track_index.
  destruct (Output.type p); [ | discriminate].
  intros Hin. specialize (Hin eq_refl).
  pose proof (find_slot_spec
                (firstn Output.MAX_AUDIO_MIXES (Output.audio_encoders o))
                (Output.encoder p) 0) as H.
  destruct (Output.find_slot _ _ 0); [discriminate | contradiction].
Qed.

(** X25.  The interleaver runs without failing an assertion and without
    reading an unset packet, whatever arrives in whatever order, as long as
    the output counts at least one audio mix and every audio packet comes
    from an encoder held by one of its four slots.  Each call passes on at
    most one packet, and no call touches the capabilities, the service, the
    encoders or the life-cycle flags of the output. *)
Theorem deliver_never_aborts (pkts : list encoder_packet) :
  forall o,
    Output.num_audio_mixes o <> 0%nat ->
    (forall p, In p pkts -> from_known_encoder o p) ->
    exists o' sent,
      Output.deliver o pkts = Some (o', sent)
      /\ (length sent <= length pkts)%nat
      /\ same_setup o o'.
Proof.
  induction pkts as [|p pkts IH]; intros o Hn Hknown; cbn [Output.deliver].
  - exists o, []. split; [reflexivity | split; [cbn; lia | ]].
    apply same_setup_refl.
  - pose proof (interleave_packets_returns o p Hn
                  (known_encoder_track o p (Hknown p (or_introl eq_refl))))
      as Hret.
    destruct (Output.interleave_packets o p) as [[o1 sent1]|] eqn:H1;
      [ | congruence].
    destruct (interleave_packets_cases o o1 p sent1 H1) as (Hs1 & _).
    destruct (interleave_packets_sent o o1 p sent1 H1) as (Hlen1 & _).
    destruct (IH o1) as (o2 & sent2 & H2 & Hlen2 & Hs2).
    + now rewrite (same_setup_mixes o o1 Hs1).
    + intros x Hx. specialize (Hknown x (or_intror Hx)).
      unfold from_known_encoder in *.
      destruct Hs1 as (_ & _ & _ & -> & _). exact Hknown.
    + rewrite H2. exists o2, (sent1 ++ sent2).
      split; [reflexivity | split].
      * rewrite length_app. cbn. lia.
      * eapply same_setup_trans; eassumption.
Qed.

Lemma deliver_never_aborts_witness :
  exists o' sent,
    Output.deliver (Output.hook_data_capture two_track_output true true true)
      two_track_arrivals = Some (o', sent)
    /\ (length sent <= 7)%nat.
Proof.
  destruct (deliver_never_aborts two_track_arrivals
              (Output.hook_data_capture two_track_output true true true))
    as (o' & sent & H & Hlen & _).
  - vm_compute. discriminate.
  - intros p Hp Hty. cbn in Hp.
    repeat (destruct Hp as [<- | Hp];
            [first [vm_compute in Hty; discriminate Hty | vm_compute; auto] | ]).
    contradiction.
  - exists o', sent. split; [exact H | exact Hlen].
Defined.

Lemma video_count_app (a b : list encoder_packet) :
  video_count (a ++ b) = video_count a + video_count b.
Proof.
  unfold video_count. rewrite filter_app, length_app. lia.
Qed.

(** X26.  The frame count of an output that is not stopped counts the video
    packets the interleaver has passed downstream: over any run of calls it
    grows by the number of video packets in what was passed on, and by
    nothing else. *)
Theorem total_frames_counts_video_sent (pkts : list encoder_packet) :
  forall o o' sent,
    Output.stopped o = false ->
    Output.deliver o pkts = Some (o', sent) ->
    Output.total_frames o' = Output.total_frames o + video_count sent.
Proof.
  induction pkts as [|p pkts IH]; intros o o' sent Hst; cbn [Output.deliver].
  - intros [= <- <-]. unfold video_count. cbn. lia.
  - destruct (Output.interleave_packets o p) as [[o1 sent1]|] eqn:H1;
      [ | discriminate].
    destruct (Output.deliver o1 pkts) as [[o2 sent2]|] eqn:H2;
      [ | discriminate].
    intros [= <- <-].
    destruct (interleave_packets_sent o o1 p sent1 H1) as (_ & _ & Hf1).
    destruct (interleave_packets_cases o o1 p sent1 H1)
      as ((_ & _ & _ & _ & Hst1 & _) & _).
    rewrite (IH o1 o2 sent2 ltac:(congruence) H2), (Hf1 Hst), video_count_app.
    lia.
Qed.

Lemma total_frames_counts_video_sent_witness :
  exists o' sent,
    Output.deliver (Output.hook_data_capture one_track_output true true true)
      in_order_arrivals = Some (o', sent)
    /\ Output.total_frames o' = 0 + video_count sent.
Proof.
  destruct (Output.deliver
              (Output.hook_data_capture one_track_output true true true)
              in_order_arrivals) as [[o' sent]|] eqn:H;
    [ | vm_compute in H; discriminate].
  exists o', sent. split; [reflexivity | ].
  exact (total_frames_counts_video_sent in_order_arrivals
           (Output.hook_data_capture one_track_output true true true) o' sent
           eq_refl H).
Defined.

